(** * n8n-nodes-aem-ops: a shallow embedding of the operation core

    The first part of the file models the sources, one module per file:
    - [JS]          the platform operations the sources rely on (string
                    helpers, [parseInt], number printing, object spread,
                    [slice], [join]);
    - [Retry]       [src/core/retry.ts];
    - [Types]       the error taxonomy of [src/core/types.ts];
    - [Validation]  [src/core/validation.ts];
    - [Web]         an executable fragment of the URL parser and of the
                    regular expression engine, to run the validators;
    - [Host]        the boundary with the workflow host: requests,
                    responses, thrown values, and the world (clock, trace
                    of network calls and sleeps);
    - [Redaction]   [src/core/redaction.ts];
    - [HttpClient]  [src/core/httpClient.ts], with the loop of [withRetry];
    - [Replication] [src/adapters/aem65/replication.ts];
    - [CachePurge]  the [execute] method of the cache purge node;
    - [PackageManager] [src/adapters/aem65/packageManager.ts].
    [Notions] and [Scenario] then fix the vocabulary of the statements and
    the concrete runs.  They are followed by the models of the code around
    these files:
    - [PathHelpers]     [sanitizePath] and [parsePathList] of
                        [src/core/validation.ts];
    - [ObjectRedaction] [redactHeaders] and [redactObject] of
                        [src/core/redaction.ts];
    - [ReplicateNode]   the [execute] method of the replicate node;
    - [HealthCheck]     [src/adapters/aem65/healthCheck.ts];
    with [RetryNotions], [ClientNotions], [PurgeNotions] and [Cases] for
    their vocabulary and runs.  The remaining modules hold the proofs.

    Conventions.  A JavaScript [string] is a [string] of 8-bit code units.
    Integral [number]s (status codes, counters, epoch milliseconds) are [Z];
    the delays of the backoff computation, which multiply and floor, are
    exact rationals [Q] (IEEE rounding is not modelled).  A time stamp is
    the clock reading that [toISOString] formats.  Effects are explicit: a
    function that talks to the network, sleeps or reads the clock takes a
    [World] and returns the next one; a function that can fail to
    terminate takes fuel and returns [None] when it runs out.  Platform
    operations that are not modelled ([JSON.parse], [String.replace], ...)
    are parameters of the functions that use them. *)

From Stdlib Require Import ZArith QArith Qround Qminmax Qpower Qabs.
From Stdlib Require Import String Ascii List Bool Lia Lqa DecimalString DecimalPos.
From stdpp Require Import base option list gmap sets strings.

Local Open Scope string_scope.
Local Open Scope list_scope.
Local Open Scope Z_scope.

#[local] Set Warnings "-register-all,-clear-no-such-hyp".

(* ===================================================================== *)
(** * Platform operations *)
(* ===================================================================== *)

Module JS.

(** [WhiteSpace] and [LineTerminator] code units below 256. *)
Definition isWhiteSpace (c : ascii) : bool :=
  let n := nat_of_ascii c in
  ((9 <=? n)%nat && (n <=? 13)%nat) || (n =? 32)%nat || (n =? 160)%nat.

Fixpoint trimStart (s : string) : string :=
  match s with
  | EmptyString => EmptyString
  | String c r => if isWhiteSpace c then trimStart r else s
  end.

Fixpoint trimEnd (s : string) : string :=
  match s with
  | EmptyString => EmptyString
  | String c r =>
      match trimEnd r with
      | EmptyString => if isWhiteSpace c then EmptyString else String c EmptyString
      | r' => String c r'
      end
  end.

(** [String.prototype.trim] *)
Definition trim (s : string) : string := trimEnd (trimStart s).

(** [String.prototype.startsWith] *)
Definition startsWith (s prefix : string) : bool := String.prefix prefix s.

(** [String.prototype.includes] *)
Fixpoint includes (s needle : string) : bool :=
  String.prefix needle s ||
  match s with
  | EmptyString => false
  | String _ r => includes r needle
  end.

(** [String.prototype.endsWith] *)
Definition endsWith (s suffix : string) : bool :=
  let n := String.length s in
  let k := String.length suffix in
  (k <=? n)%nat && String.eqb (substring (n - k) k s) suffix.

Definition isEmpty (s : string) : bool :=
  match s with EmptyString => true | _ => false end.

(** Truthiness of an optional string ([undefined] and [""] are falsy). *)
Definition truthyString (o : option string) : option string :=
  match o with
  | Some s => if isEmpty s then None else Some s
  | None => None
  end.

(** Truthiness of an optional integral number ([undefined] and [0]). *)
Definition truthyNumber (o : option Z) : option Z :=
  match o with
  | Some z => if z =? 0 then None else Some z
  | None => None
  end.

Definition digitValue (c : ascii) : option Z :=
  let n := nat_of_ascii c in
  if (48 <=? n)%nat && (n <=? 57)%nat then Some (Z.of_nat (n - 48)) else None.

(** The longest prefix of decimal digits of [s], read after [acc];
    [seen] records whether a digit has been consumed. *)
Fixpoint parseDigits (s : string) (acc : Z) (seen : bool) : option Z :=
  match s with
  | EmptyString => if seen then Some acc else None
  | String c r =>
      match digitValue c with
      | Some d => parseDigits r (10 * acc + d) true
      | None => if seen then Some acc else None
      end
  end.

(** An integral [number] or [NaN]. *)
Inductive Num : Type :=
| Int (z : Z)
| NaN.

Definition toNum (o : option Z) : Num :=
  match o with Some z => Int z | None => NaN end.

(** [parseInt(s, 10)] *)
Definition parseInt (s : string) : Num :=
  match trimStart s with
  | String "-" r => toNum (Z.opp <$> parseDigits r 0 false)
  | String "+" r => toNum (parseDigits r 0 false)
  | r => toNum (parseDigits r 0 false)
  end.

(** [String(n)] for an integral number. *)
Definition numberToString (n : Z) : string :=
  NilEmpty.string_of_int (Z.to_int n).

(** An optional property of an object literal: left out, or present with
    a value that may be [undefined].  The difference shows under object
    spread, where a present [undefined] overrides a default. *)
Inductive Optional (A : Type) : Type :=
| Absent
| Present (v : option A).
Arguments Absent {A}.
Arguments Present {A} v.

(** The property of [{ ...{ p: d }, ...{ p?: o } }]; [None] is [undefined]. *)
Definition spread {A : Type} (d : A) (o : Optional A) : option A :=
  match o with
  | Absent => Some d
  | Present v => v
  end.

(** [Array.prototype.slice(start, end)] for integral arguments. *)
Definition slice {A : Type} (l : list A) (start stop : Z) : list A :=
  let len := Z.of_nat (length l) in
  let clamp (k : Z) : Z := if k <? 0 then Z.max (len + k) 0 else Z.min k len in
  let from := clamp start in
  let to := clamp stop in
  take (Z.to_nat (to - from)) (drop (Z.to_nat from) l).

(** [items.join(sep)] *)
Fixpoint join (sep : string) (items : list string) : string :=
  match items with
  | [] => EmptyString
  | [x] => x
  | x :: rest => x +:+ sep +:+ join sep rest
  end.

End JS.

(* ===================================================================== *)
(** * src/core/retry.ts *)
(* ===================================================================== *)

Module Retry.

Record RetryConfig : Type := mkRetryConfig {
  maxRetries : Z;
  initialDelayMs : Q;
  maxDelayMs : Q;
  backoffMultiplier : Q;
  jitter : bool;
  retryableStatusCodes : list Z;
  retryableErrorCodes : list string;
}.

Definition DEFAULT_RETRY_CONFIG : RetryConfig := {|
  maxRetries := 3;
  initialDelayMs := 1000;
  maxDelayMs := 30000;
  backoffMultiplier := 2;
  jitter := true;
  retryableStatusCodes := [408; 429; 500; 502; 503; 504];
  retryableErrorCodes :=
    ["ECONNRESET"; "ECONNREFUSED"; "ETIMEDOUT"; "ENOTFOUND";
     "EAI_AGAIN"; "EPIPE"; "EHOSTUNREACH"; "ENETUNREACH"];
|}.

Module RetryDecision.
Record t : Type := mk {
  shouldRetry : bool;
  delayMs : Z;
  reason : string;
}.
End RetryDecision.

(** The error information [shouldRetry] inspects. *)
Record ErrorInfo : Type := mkErrorInfo {
  statusCode : option Z;
  code : option string;
  message : option string;
}.

(** [random] is the value drawn from [Math.random()], in [0, 1). *)
Definition calculateBackoffDelay (random : Q) (attempt : Z) (config : RetryConfig) : Z :=
  let baseDelay := (initialDelayMs config * Qpower (backoffMultiplier config) attempt)%Q in
  let cappedDelay := Qmin baseDelay (maxDelayMs config) in
  if jitter config then
    let jitterRange := (cappedDelay * (25 # 100))%Q in
    let jitter := ((random * 2 - 1) * jitterRange)%Q in
    Z.max 0 (Qfloor (cappedDelay + jitter))
  else Qfloor cappedDelay.

Definition isRetryableStatusCode (statusCode : Z) (config : RetryConfig) : bool :=
  existsb (Z.eqb statusCode) (retryableStatusCodes config).

Definition isRetryableErrorCode (errorCode : string) (config : RetryConfig) : bool :=
  existsb (String.eqb errorCode) (retryableErrorCodes config).

(** [error.statusCode && isRetryableStatusCode(error.statusCode, config)] *)
Definition retryableStatus (error : ErrorInfo) (config : RetryConfig) : option Z :=
  match JS.truthyNumber (statusCode error) with
  | Some sc => if isRetryableStatusCode sc config then Some sc else None
  | None => None
  end.

(** [error.code && isRetryableErrorCode(error.code, config)] *)
Definition retryableCode (error : ErrorInfo) (config : RetryConfig) : option string :=
  match JS.truthyString (code error) with
  | Some c => if isRetryableErrorCode c config then Some c else None
  | None => None
  end.

Section WithClock.

(** [new Date(s).getTime()]; [None] when the date is invalid. *)
Variable Date_parse : string -> option Z.

Definition parseHttpDate (now : Z) (retryAfter : string) : option Z :=
  match Date_parse retryAfter with
  | Some t => Some (Z.max 0 (t - now))
  | None => None
  end.

(** [now] is the reading of [Date.now()]. *)
Definition parseRetryAfterHeader (now : Z) (retryAfter : option string) : option Z :=
  match JS.truthyString retryAfter with
  | None => None
  | Some retryAfter =>
      match JS.parseInt retryAfter with
      | JS.Int seconds =>
          if 0 <=? seconds then Some (seconds * 1000)
          else parseHttpDate now retryAfter
      | JS.NaN => parseHttpDate now retryAfter
      end
  end.

Definition shouldRetry (now : Z) (random : Q)
    (error : ErrorInfo) (attempt : Z) (config : RetryConfig)
    (responseHeaders : option (gmap string string)) : RetryDecision.t :=
  if maxRetries config <=? attempt then
    RetryDecision.mk false 0
      ("Maximum retries (" +:+ JS.numberToString (maxRetries config) +:+ ") exceeded")
  else
    match retryableStatus error config with
    | Some sc =>
        let retryAfterDelay :=
          parseRetryAfterHeader now (responseHeaders ≫= (fun h => h !! "retry-after")) in
        let delay :=
          match retryAfterDelay with
          | Some d => d
          | None => calculateBackoffDelay random attempt config
          end in
        RetryDecision.mk true delay ("Retryable status code: " +:+ JS.numberToString sc)
    | None =>
        match retryableCode error config with
        | Some c =>
            RetryDecision.mk true (calculateBackoffDelay random attempt config)
              ("Retryable error code: " +:+ c)
        | None => RetryDecision.mk false 0 "Error is not retryable"
        end
    end.

End WithClock.

End Retry.

(* ===================================================================== *)
(** * src/core/types.ts: the error taxonomy *)
(* ===================================================================== *)

Module Types.

Inductive AemErrorCode : Type :=
| CONNECTION_FAILED
| TIMEOUT
| TLS_ERROR
| AUTHENTICATION_FAILED
| CSRF_TOKEN_FAILED
| FORBIDDEN
| REPLICATION_FAILED
| PACKAGE_UPLOAD_FAILED
| PACKAGE_INSTALL_FAILED
| HEALTH_CHECK_FAILED
| PURGE_FAILED
| INVALID_PATH
| INVALID_URL
| ALLOWLIST_VIOLATION
| NOT_IMPLEMENTED.

(** The string value of each member of the enum. *)
Definition AemErrorCode_value (c : AemErrorCode) : string :=
  match c with
  | CONNECTION_FAILED => "AEM_CONNECTION_FAILED"
  | TIMEOUT => "AEM_TIMEOUT"
  | TLS_ERROR => "AEM_TLS_ERROR"
  | AUTHENTICATION_FAILED => "AEM_AUTH_FAILED"
  | CSRF_TOKEN_FAILED => "AEM_CSRF_FAILED"
  | FORBIDDEN => "AEM_FORBIDDEN"
  | REPLICATION_FAILED => "AEM_REPLICATION_FAILED"
  | PACKAGE_UPLOAD_FAILED => "AEM_PACKAGE_UPLOAD_FAILED"
  | PACKAGE_INSTALL_FAILED => "AEM_PACKAGE_INSTALL_FAILED"
  | HEALTH_CHECK_FAILED => "AEM_HEALTH_CHECK_FAILED"
  | PURGE_FAILED => "AEM_PURGE_FAILED"
  | INVALID_PATH => "AEM_INVALID_PATH"
  | INVALID_URL => "AEM_INVALID_URL"
  | ALLOWLIST_VIOLATION => "AEM_ALLOWLIST_VIOLATION"
  | NOT_IMPLEMENTED => "AEM_NOT_IMPLEMENTED"
  end.

(** [AemErrorDetails]; an absent optional field is [None].  [context] is a
    small record of optional strings, kept as an association list. *)
Record AemErrorDetails : Type := mkDetails {
  code : AemErrorCode;
  message : string;
  statusCode : option Z;
  url : option string;
  path : option string;
  context : option (list (string * option string));
}.

End Types.

(* ===================================================================== *)
(** * src/core/validation.ts *)
(* ===================================================================== *)

Module Validation.
Import Types.

Record ValidationResult : Type := mkValidation {
  valid : bool;
  error : option AemErrorDetails;
}.

Definition Valid : ValidationResult := mkValidation true None.

Definition Invalid (d : AemErrorDetails) : ValidationResult := mkValidation false (Some d).

Fixpoint existsChar (p : ascii -> bool) (s : string) : bool :=
  match s with
  | EmptyString => false
  | String c r => p c || existsChar p r
  end.

(** The character class of [/[\x00-\x1f\x7f]/]. *)
Definition isControlChar (c : ascii) : bool :=
  let n := nat_of_ascii c in (n <=? 31)%nat || (n =? 127)%nat.

Definition invalidPath (msg path : string) : ValidationResult :=
  Invalid (mkDetails INVALID_PATH msg None None (Some path) None).

Definition validateAemPath (path : string) : ValidationResult :=
  if JS.isEmpty path then invalidPath "Path must be a non-empty string" path
  else if negb (JS.startsWith path "/") then invalidPath "Path must start with /" path
  else if JS.includes path ".." then
    invalidPath "Path must not contain path traversal sequences (..)" path
  else if existsChar isControlChar path then
    invalidPath "Path must not contain control characters" path
  else Valid.

(** The loop of [validateAemPaths]: the first invalid result, if any. *)
Fixpoint firstInvalidPath (paths : list string) : ValidationResult :=
  match paths with
  | [] => Valid
  | p :: rest =>
      let result := validateAemPath p in
      if valid result then firstInvalidPath rest else result
  end.

Definition validateAemPaths (paths : list string) : ValidationResult :=
  match paths with
  | [] => Invalid (mkDetails INVALID_PATH "At least one path is required" None None None None)
  | _ => firstInvalidPath paths
  end.

(** What the validators read of a parsed [URL] object. *)
Record URL : Type := mkURL {
  protocol : string;
  hostname : string;
}.

Record UrlOptions : Type := mkUrlOptions {
  requireHttps : option bool;
  allowLocalhost : option bool;
}.

Definition invalidUrl (msg url : string) : ValidationResult :=
  Invalid (mkDetails INVALID_URL msg None (Some url) None None).

Section WithPlatform.

(** [new URL(s)]; [None] when the constructor throws. *)
Variable URL_parse : string -> option URL.

(** [new RegExp(p)] ([None] when it throws a [SyntaxError]) and
    [RegExp.prototype.test] for a pattern compiled without flags. *)
Variable RegExp : Type.
Variable RegExp_new : string -> option RegExp.
Variable RegExp_test : RegExp -> string -> bool.

Definition validateUrl (url : string) (options : option UrlOptions) : ValidationResult :=
  let requireHttps := default false (options ≫= requireHttps) in
  let allowLocalhost := default true (options ≫= allowLocalhost) in
  if JS.isEmpty url then invalidUrl "URL must be a non-empty string" url
  else
    match URL_parse url with
    | None => invalidUrl "Invalid URL format" url
    | Some parsed =>
        if negb (String.eqb (protocol parsed) "http:" || String.eqb (protocol parsed) "https:")
        then invalidUrl "URL must use HTTP or HTTPS protocol" url
        else if requireHttps && negb (String.eqb (protocol parsed) "https:")
        then invalidUrl "URL must use HTTPS" url
        else
          let isLocalhost :=
            String.eqb (hostname parsed) "localhost" ||
            String.eqb (hostname parsed) "127.0.0.1" ||
            String.eqb (hostname parsed) "::1" ||
            JS.endsWith (hostname parsed) ".localhost" in
          if isLocalhost && negb allowLocalhost
          then invalidUrl "Localhost URLs are not allowed" url
          else Valid
    end.

Definition validateUrlAgainstAllowlist (url allowlistPattern : string) : ValidationResult :=
  let urlValidation := validateUrl url None in
  if negb (valid urlValidation) then urlValidation
  else if JS.isEmpty allowlistPattern || JS.isEmpty (JS.trim allowlistPattern) then Valid
  else
    match RegExp_new allowlistPattern with
    | None =>
        Invalid (mkDetails INVALID_URL
                   ("Invalid allowlist regex pattern: " +:+ allowlistPattern)
                   None None None (Some [("pattern", Some allowlistPattern)]))
    | Some regex =>
        if negb (RegExp_test regex url) then
          Invalid (mkDetails ALLOWLIST_VIOLATION
                     ("URL does not match allowlist pattern: " +:+ allowlistPattern)
                     None (Some url) None (Some [("pattern", Some allowlistPattern)]))
        else Valid
    end.

Fixpoint firstInvalidUrl (urls : list string) (allowlistPattern : string) : ValidationResult :=
  match urls with
  | [] => Valid
  | u :: rest =>
      let result := validateUrlAgainstAllowlist u allowlistPattern in
      if valid result then firstInvalidUrl rest allowlistPattern else result
  end.

Definition validateUrlsAgainstAllowlist (urls : list string) (allowlistPattern : string)
    : ValidationResult :=
  match urls with
  | [] => Invalid (mkDetails INVALID_URL "At least one URL is required" None None None None)
  | _ => firstInvalidUrl urls allowlistPattern
  end.

End WithPlatform.

End Validation.

(* ===================================================================== *)
(** * A fragment of the web platform *)
(* ===================================================================== *)

(** The validators are parametric in the URL parser and the regular
    expression engine.  To run them on concrete inputs this module gives an
    executable fragment of both: the WHATWG parser on plain http-like URLs
    with an ASCII host name, and ECMAScript patterns built from literal
    characters, [.], [^], [$], identity escapes, groups, [|] and the
    quantifiers [*], [+], [?].  An input outside the fragment is reported as
    such ([Outside]) and never as a result. *)

Module Web.
Import Validation.

Inductive parsed (A : Type) : Type :=
| Ok (a : A)
| Failure
| Outside.
Arguments Ok {A} a.
Arguments Failure {A}.
Arguments Outside {A}.

Definition toOption {A : Type} (p : parsed A) : option A :=
  match p with Ok a => Some a | _ => None end.

Definition charIn (c : ascii) (s : string) : bool := existsChar (Ascii.eqb c) s.

Definition isAlpha (c : ascii) : bool :=
  let n := nat_of_ascii c in
  ((65 <=? n)%nat && (n <=? 90)%nat) || ((97 <=? n)%nat && (n <=? 122)%nat).

Definition isDigit (c : ascii) : bool :=
  let n := nat_of_ascii c in (48 <=? n)%nat && (n <=? 57)%nat.

Definition toLower (c : ascii) : ascii :=
  let n := nat_of_ascii c in
  if (65 <=? n)%nat && (n <=? 90)%nat then ascii_of_nat (n + 32) else c.

Fixpoint mapString (f : ascii -> ascii) (s : string) : string :=
  match s with
  | EmptyString => EmptyString
  | String c r => String (f c) (mapString f r)
  end.

Fixpoint allChars (p : ascii -> bool) (s : string) : bool :=
  match s with
  | EmptyString => true
  | String c r => p c && allChars p r
  end.

(** [span p s]: the longest prefix of [s] whose characters satisfy [p],
    and the rest. *)
Fixpoint span (p : ascii -> bool) (s : string) : string * string :=
  match s with
  | EmptyString => (EmptyString, EmptyString)
  | String c r =>
      if p c then let '(a, b) := span p r in (String c a, b) else (EmptyString, s)
  end.

(** The part of [s] after the last occurrence of [c], if [c] occurs. *)
Fixpoint afterLast (c : ascii) (s : string) : option string :=
  match s with
  | EmptyString => None
  | String d r =>
      match afterLast c r with
      | Some t => Some t
      | None => if Ascii.eqb c d then Some r else None
      end
  end.

Fixpoint splitOn (c : ascii) (s : string) : list string :=
  match s with
  | EmptyString => [EmptyString]
  | String d r =>
      if Ascii.eqb c d then EmptyString :: splitOn c r
      else match splitOn c r with
           | h :: t => String d h :: t
           | [] => [String d EmptyString]
           end
  end.

Definition isC0OrSpace (c : ascii) : bool := (nat_of_ascii c <=? 32)%nat.

Fixpoint dropWhile (p : ascii -> bool) (s : string) : string :=
  match s with
  | EmptyString => EmptyString
  | String c r => if p c then dropWhile p r else s
  end.

Fixpoint dropWhileEnd (p : ascii -> bool) (s : string) : string :=
  match s with
  | EmptyString => EmptyString
  | String c r =>
      match dropWhileEnd p r with
      | EmptyString => if p c then EmptyString else String c EmptyString
      | r' => String c r'
      end
  end.

Definition isHostChar (c : ascii) : bool :=
  isAlpha c || isDigit c || charIn c "-._~!$&'()*+,;=".

(** A decimal label without leading zero, at most 255. *)
Definition isCanonicalOctet (s : string) : bool :=
  match s with
  | EmptyString => false
  | String "0" EmptyString => true
  | String "0" _ => false
  | _ => allChars isDigit s && (String.length s <=? 3)%nat &&
         match JS.parseDigits s 0 false with Some n => n <=? 255 | None => false end
  end.

(** Host names whose last label starts with a digit go through the IPv4
    parser; only the canonical dotted quad is kept in the fragment. *)
Definition hostInFragment (host : string) : bool :=
  let labels := splitOn "." host in
  match last labels with
  | Some (String c _) =>
      if isDigit c then (length labels =? 4)%nat && forallb isCanonicalOctet labels
      else true
  | _ => true
  end.

Definition parsePort (s : string) : parsed unit :=
  if allChars isDigit s then
    match JS.parseDigits s 0 false with
    | Some n => if n <=? 65535 then Ok tt else Failure
    | None => Ok tt
    end
  else Failure.

Definition parseAuthority (scheme authority : string) : parsed URL :=
  let hostport := default authority (afterLast "@" authority) in
  let '(host, rest) := span (fun c => negb (Ascii.eqb c ":")) hostport in
  if charIn "[" hostport || charIn "%" hostport then Outside
  else if JS.isEmpty host then Failure
  else if negb (allChars (fun c => (nat_of_ascii c <? 128)%nat) host) then Outside
  else if negb (allChars isHostChar host) then Failure
  else if negb (hostInFragment host) then Outside
  else
    match rest with
    | EmptyString => Ok (mkURL (scheme +:+ ":") (mapString toLower host))
    | String _ port =>
        match parsePort port with
        | Ok _ => Ok (mkURL (scheme +:+ ":") (mapString toLower host))
        | Failure => Failure
        | Outside => Outside
        end
    end.

Definition isSlash (c : ascii) : bool := Ascii.eqb c "/" || Ascii.eqb c "\".

Definition parseURL (input : string) : parsed URL :=
  let s := dropWhileEnd isC0OrSpace (dropWhile isC0OrSpace input) in
  if existsChar (fun c => charIn c (String "009" (String "010" (String "013" "")))) s
  then Outside
  else
    match s with
    | EmptyString => Failure
    | String c _ =>
        if negb (isAlpha c) then Failure
        else
          let '(scheme, rest) :=
            span (fun c => isAlpha c || isDigit c || charIn c "+-.") s in
          match rest with
          | String ":" after =>
              let scheme := mapString toLower scheme in
              if existsb (String.eqb scheme) ["http"; "https"; "ftp"; "ws"; "wss"] then
                let after := dropWhile isSlash after in
                let '(authority, _) :=
                  span (fun c => negb (isSlash c || charIn c "?#")) after in
                parseAuthority scheme authority
              else if String.eqb scheme "file" then Outside
              else if JS.startsWith after "/" then Outside
              else Ok (mkURL (scheme +:+ ":") "")
          | _ => Failure
          end
    end.

Definition URL_parse (s : string) : option URL := toOption (parseURL s).

(** ** Regular expressions *)

Inductive regex : Type :=
| Empty
| Char (c : ascii)
| AnyChar
| LineStart
| LineEnd
| Seq (r1 r2 : regex)
| Alt (r1 r2 : regex)
| Star (r : regex).

Definition isSyntaxChar (c : ascii) : bool := charIn c "^$\.*+?()[]{}|".

Section Terms.

(** The parser of a parenthesised disjunction. *)
Variable parseGroup : string -> parsed (regex * string).

Definition parseAtom (s : string) : parsed (regex * string) :=
  match s with
  | EmptyString => Failure
  | String "(" (String "?" _) => Outside
  | String "(" r =>
      match parseGroup r with
      | Ok (e, String ")" r') => Ok (e, r')
      | Ok _ => Failure
      | other => other
      end
  | String "\" EmptyString => Failure
  | String "\" (String c r) =>
      if isSyntaxChar c || Ascii.eqb c "/" then Ok (Char c, r) else Outside
  | String "." r => Ok (AnyChar, r)
  | String c r =>
      if charIn c "*+?" then Failure
      else if charIn c "[]{}" then Outside
      else Ok (Char c, r)
  end.

Definition parseQuantifier (e : regex) (s : string) : parsed (regex * string) :=
  let lazy (q : regex) (r : string) : parsed (regex * string) :=
    match r with
    | String "?" _ => Outside
    | _ => Ok (q, r)
    end in
  match s with
  | String "*" r => lazy (Star e) r
  | String "+" r => lazy (Seq e (Star e)) r
  | String "?" r => lazy (Alt e Empty) r
  | String "{" _ => Outside
  | _ => Ok (e, s)
  end.

(** An alternative: terms up to [|], [)] or the end; [n] bounds the number
    of terms. *)
Fixpoint parseAlternative (n : nat) (acc : regex) (s : string) : parsed (regex * string) :=
  match n with
  | O => Ok (acc, s)
  | S n' =>
      match s with
      | EmptyString => Ok (acc, s)
      | String "|" _ => Ok (acc, s)
      | String ")" _ => Ok (acc, s)
      | String "^" r => parseAlternative n' (Seq acc LineStart) r
      | String "$" r => parseAlternative n' (Seq acc LineEnd) r
      | _ =>
          match parseAtom s with
          | Ok (e, r) =>
              match parseQuantifier e r with
              | Ok (e', r') => parseAlternative n' (Seq acc e') r'
              | other => other
              end
          | other => other
          end
      end
  end.

Definition parseDisjunctionStep (s : string) : parsed (regex * string) :=
  match parseAlternative (String.length s) Empty s with
  | Ok (a, String "|" r) =>
      match parseGroup r with
      | Ok (b, r') => Ok (Alt a b, r')
      | other => other
      end
  | other => other
  end.

End Terms.

Fixpoint parseDisjunction (fuel : nat) (s : string) : parsed (regex * string) :=
  match fuel with
  | O => Outside
  | S fuel' => parseDisjunctionStep (parseDisjunction fuel') s
  end.

Definition parsePattern (p : string) : parsed regex :=
  match parseDisjunction (S (String.length p)) p with
  | Ok (e, EmptyString) => Ok e
  | Ok (_, _) => Failure
  | Failure => Failure
  | Outside => Outside
  end.

Definition isLineTerminator (c : ascii) : bool :=
  Ascii.eqb c "010" || Ascii.eqb c "013".

(** [matchFrom r atStart rest k]: some match of [r] at the current
    position, at the start of the input iff [atStart] and before [rest],
    can be continued by [k]. *)
Fixpoint matchFrom (r : regex) (atStart : bool) (rest : string)
    (k : bool -> string -> bool) : bool :=
  match r with
  | Empty => k atStart rest
  | Char c =>
      match rest with
      | String d t => Ascii.eqb c d && k false t
      | EmptyString => false
      end
  | AnyChar =>
      match rest with
      | String d t => negb (isLineTerminator d) && k false t
      | EmptyString => false
      end
  | LineStart => atStart && k atStart rest
  | LineEnd => JS.isEmpty rest && k atStart rest
  | Seq r1 r2 => matchFrom r1 atStart rest (fun st s => matchFrom r2 st s k)
  | Alt r1 r2 => matchFrom r1 atStart rest k || matchFrom r2 atStart rest k
  | Star r1 =>
      (fix iterate (fuel : nat) (st : bool) (s : string) : bool :=
         k st s ||
         match fuel with
         | O => false
         | S fuel' =>
             matchFrom r1 st s
               (fun st' s' =>
                  (String.length s' <? String.length s)%nat && iterate fuel' st' s')
         end) (String.length rest) atStart rest
  end.

(** The pattern matches the whole of [s]. *)
Definition fullMatch (r : regex) (s : string) : bool :=
  matchFrom r true s (fun _ rest => JS.isEmpty rest).

(** Some match starting at the current position or later. *)
Fixpoint searchFrom (r : regex) (atStart : bool) (s : string) : bool :=
  matchFrom r atStart s (fun _ _ => true) ||
  match s with
  | EmptyString => false
  | String _ t => searchFrom r false t
  end.

(** [RegExp.prototype.test] without flags: a match anywhere in [s]. *)
Definition RegExp_test (r : regex) (s : string) : bool := searchFrom r true s.

Definition RegExp_new (p : string) : option regex := toOption (parsePattern p).

(** The validators on the fragment. *)
Definition validateUrl := Validation.validateUrl URL_parse.

Definition validateUrlAgainstAllowlist :=
  Validation.validateUrlAgainstAllowlist URL_parse regex RegExp_new RegExp_test.

End Web.

(* ===================================================================== *)
(** * The host boundary: requests, responses, thrown values, the world *)
(* ===================================================================== *)

Module Host.

(** A JSON value, for response bodies of unknown shape. *)
Inductive Json : Type :=
| JNull
| JBool (b : bool)
| JNumber (n : Z)
| JString (s : string)
| JArray (items : list Json)
| JObject (fields : list (string * Json)).

Fixpoint assoc {A : Type} (name : string) (fields : list (string * A)) : option A :=
  match fields with
  | [] => None
  | (k, v) :: rest => if String.eqb k name then Some v else assoc name rest
  end.

(** [v?.name] *)
Definition field (name : string) (v : Json) : option Json :=
  match v with
  | JObject fields => assoc name fields
  | _ => None
  end.

(** [v?.name] when it holds a string. *)
Definition stringField (name : string) (v : Json) : option string :=
  match field name v with
  | Some (JString s) => Some s
  | _ => None
  end.

(** [typeof v === 'string'] *)
Definition asString (v : Json) : option string :=
  match v with
  | JString s => Some s
  | _ => None
  end.

(** What a request carries as its body. *)
Inductive Payload : Type :=
| NoBody
| JsonBody (v : Json)
| FormBody (fields : list (string * string))
| MultipartBody (fileData fileName contentType : string) (fields : list (string * string)).

(** The options handed to the host's [helpers.httpRequest]. *)
Record IHttpRequestOptions : Type := mkRequestOptions {
  method : string;
  url : string;
  headers : gmap string string;
  body : Payload;
  qs : list (string * string);
  timeout : Z;
  skipSslCertificateValidation : bool;
}.

(** A value raised by [throw]: what the handlers of this code base read of
    it.  [isError] is [e instanceof Error]. *)
Record Thrown : Type := mkThrown {
  isError : bool;
  message : string;
  code : option string;
  statusCode : option Z;
  httpCode : option string;
  description : option string;
}.

(** The full response the host returns ([returnFullResponse]). *)
Record FullResponse : Type := mkFullResponse {
  res_statusCode : Z;
  res_headers : option (gmap string string);
  res_body : Json;
}.

Inductive Outcome : Type :=
| Responded (r : FullResponse)
| Threw (e : Thrown).

Inductive Event : Type :=
| NetworkCall (request : IHttpRequestOptions)
| Slept (ms : Z).

(** The state of the outside world: the clock ([Date.now()]), the number
    of values drawn from [Math.random()], and everything done so far. *)
Record World : Type := mkWorld {
  now : Z;
  draws : nat;
  trace : list Event;
}.

(** The network calls issued so far, oldest first. *)
Definition networkCalls (w : World) : list IHttpRequestOptions :=
  omap (fun e => match e with NetworkCall r => Some r | Slept _ => None end) (trace w).

(** The environment: how the network answers the [n]-th call (with the time
    it takes), and the values [Math.random()] returns. *)
Record Environment : Type := mkEnvironment {
  answer : nat -> IHttpRequestOptions -> Outcome * Z;
  Math_random : nat -> Q;
}.

Section WithEnvironment.

Variable env : Environment.

(** [await helpers.httpRequest(options)] *)
Definition httpRequest (options : IHttpRequestOptions) (w : World) : Outcome * World :=
  let '(outcome, elapsed) := answer env (length (networkCalls w)) options in
  (outcome, mkWorld (now w + elapsed) (draws w) (trace w ++ [NetworkCall options])).

(** [await sleep(ms)] *)
Definition sleep (ms : Z) (w : World) : World :=
  mkWorld (now w + Z.max 0 ms) (draws w) (trace w ++ [Slept ms]).

(** [Math.random()] *)
Definition random (w : World) : Q * World :=
  (Math_random env (draws w), mkWorld (now w) (S (draws w)) (trace w)).

End WithEnvironment.

End Host.

(* ===================================================================== *)
(** * src/core/redaction.ts *)
(* ===================================================================== *)

Module Redaction.

Definition SENSITIVE_HEADERS : list string :=
  ["authorization"; "cookie"; "set-cookie"; "x-auth-token"; "x-api-key";
   "api-key"; "apikey"; "x-csrf-token"; "csrf-token"; "x-access-token";
   "access-token"; "bearer"; "x-bearer-token"; "proxy-authorization";
   "www-authenticate"].

Definition SENSITIVE_FIELDS : list string :=
  ["password"; "passwd"; "secret"; "token"; "apikey"; "api_key"; "apiKey";
   "access_token"; "accessToken"; "refresh_token"; "refreshToken"; "bearer";
   "bearerToken"; "bearer_token"; "client_secret"; "clientSecret";
   "private_key"; "privateKey"; "auth"; "authentication"; "credential";
   "credentials"].

Definition REDACTED : string := "[REDACTED]".

(** [String.prototype.toLowerCase] on ASCII letters. *)
Definition toLowerCase (s : string) : string := Web.mapString Web.toLower s.

Definition isSensitiveKey (key : string) : bool :=
  let lowerKey := toLowerCase key in
  existsb (String.eqb lowerKey) SENSITIVE_HEADERS ||
  existsb (fun field => JS.includes lowerKey (toLowerCase field)) SENSITIVE_FIELDS.

(** The double quote character, as a string. *)
Definition dquote : string := String "034" EmptyString.

(** A regular expression literal of the source: its pattern and flags. *)
Record RegExpLiteral : Type := mkLiteral {
  source : string;
  flags : string;
}.

Section WithPlatform.

(** [s.replace(re, replacement)] *)
Variable String_replace : RegExpLiteral -> string -> string -> string.

(** The [try] block of [redactUrl]: parse [url], overwrite the value of
    every query parameter whose key satisfies [sensitive] and a non-empty
    password with [replacement], and serialise; [None] when [new URL]
    throws. *)
Variable URL_redact : (string -> bool) -> string -> string -> option string.

Definition redactUrl (url : string) : string :=
  match URL_redact isSensitiveKey REDACTED url with
  | Some safe => safe
  | None =>
      let s1 := String_replace (mkLiteral "password=[^&]+" "gi") url ("password=" +:+ REDACTED) in
      let s2 := String_replace (mkLiteral "token=[^&]+" "gi") s1 ("token=" +:+ REDACTED) in
      let s3 := String_replace (mkLiteral "apikey=[^&]+" "gi") s2 ("apikey=" +:+ REDACTED) in
      String_replace (mkLiteral ":[^:@]+@" "g") s3 (":" +:+ REDACTED +:+ "@")
  end.

Definition quoted (key : string) : string := dquote +:+ key +:+ dquote.

Definition redactErrorMessage (message : string) : string :=
  let redacted := message in
  let redacted :=
    String_replace (mkLiteral "Basic\s+[A-Za-z0-9+/=]+" "gi") redacted ("Basic " +:+ REDACTED) in
  let redacted :=
    String_replace (mkLiteral "Bearer\s+[A-Za-z0-9._-]+" "gi") redacted ("Bearer " +:+ REDACTED) in
  let field (key : string) (text : string) : string :=
    String_replace
      (mkLiteral (quoted key +:+ "\s*:\s*" +:+ dquote +:+ "[^" +:+ dquote +:+ "]+" +:+ dquote) "gi")
      text (quoted key +:+ ": " +:+ quoted REDACTED) in
  let redacted := field "password" redacted in
  let redacted := field "token" redacted in
  let redacted := field "secret" redacted in
  field "apiKey" redacted.

End WithPlatform.

End Redaction.

(* ===================================================================== *)
(** * src/core/httpClient.ts *)
(* ===================================================================== *)

Module HttpClient.
Import Host.

Inductive AuthMethod : Type := basic | bearer.

Record Aem65Credentials : Type := mkCredentials {
  baseUrl : string;
  authMethod : AuthMethod;
  username : option string;
  password : option string;
  bearerToken : option string;
  insecureTls : option bool;
  csrfEnabled : option bool;
}.

Record CsrfTokenCache : Type := mkCsrfTokenCache {
  token : string;
  expiresAt : Z;
}.

(** The fields of an [AemHttpClient] instance; [csrfCache] is the only one
    that changes. *)
Record AemHttpClient : Type := mkClient {
  credentials : Aem65Credentials;
  retryConfig : Retry.RetryConfig;
  defaultTimeoutMs : Z;
  csrfCache : option CsrfTokenCache;
}.

(** [createHttpClient]: no retry override and no timeout override. *)
Definition createHttpClientWithCredentials (credentials : Aem65Credentials) : AemHttpClient :=
  mkClient credentials Retry.DEFAULT_RETRY_CONFIG 30000 None.

Record RequestOptions : Type := mkOptions {
  req_method : string;
  req_url : string;
  req_headers : option (gmap string string);
  req_body : option Json;
  req_formData : option (list (string * string));
  req_qs : option (list (string * string));
  req_timeout : option Z;
  req_skipRetry : option bool;
}.

Record HttpResponse : Type := mkHttpResponse {
  resp_statusCode : Z;
  resp_headers : gmap string string;
  resp_body : Json;
  resp_latencyMs : Z;
}.

(** [baseUrl.replace(/\/+$/, '')] *)
Definition normalizeBaseUrl (baseUrl : string) : string :=
  Web.dropWhileEnd (Ascii.eqb "/") baseUrl.

Definition buildUrl (client : AemHttpClient) (urlOrPath : string) : string :=
  if JS.startsWith urlOrPath "http://" || JS.startsWith urlOrPath "https://" then urlOrPath
  else
    let baseUrl := normalizeBaseUrl (baseUrl (credentials client)) in
    let path := if JS.startsWith urlOrPath "/" then urlOrPath else "/" +:+ urlOrPath in
    baseUrl +:+ path.

(** Truthiness of a JSON value. *)
Definition truthy (v : Json) : bool :=
  match v with
  | JNull => false
  | JBool b => b
  | JNumber n => negb (n =? 0)
  | JString s => negb (JS.isEmpty s)
  | _ => true
  end.

(** The value thrown by [throw undefined]. *)
Definition thrownUndefined : Thrown := mkThrown false "" None None None None.

Section WithPlatform.

Variable env : Environment.

(** [JSON.stringify] *)
Variable JSON_stringify : Json -> string.

(** [Buffer.from(s).toString('base64')] *)
Variable base64 : string -> string.

Variable Date_parse : string -> option Z.
Variable String_replace : Redaction.RegExpLiteral -> string -> string -> string.
Variable URL_redact : (string -> bool) -> string -> string -> option string.

Definition getAuthHeaders (client : AemHttpClient) : gmap string string :=
  match authMethod (credentials client) with
  | basic =>
      let username := default "" (username (credentials client)) in
      let password := default "" (password (credentials client)) in
      let encoded := base64 (username +:+ ":" +:+ password) in
      {[ "Authorization" := "Basic " +:+ encoded ]}
  | bearer =>
      let token := default "" (bearerToken (credentials client)) in
      {[ "Authorization" := "Bearer " +:+ token ]}
  end.

Definition getErrorDetails (statusCode : Z) (url : string) (body : Json)
    : Types.AemErrorDetails :=
  let safeUrl := Redaction.redactUrl String_replace URL_redact url in
  if statusCode =? 401 then
    Types.mkDetails Types.AUTHENTICATION_FAILED
      "Authentication failed. Check your credentials."
      (Some statusCode) (Some safeUrl) None None
  else if statusCode =? 403 then
    Types.mkDetails Types.FORBIDDEN
      "Access forbidden. Check user permissions."
      (Some statusCode) (Some safeUrl) None None
  else if statusCode =? 404 then
    Types.mkDetails Types.HEALTH_CHECK_FAILED
      "Resource not found. Check the URL or path."
      (Some statusCode) (Some safeUrl) None None
  else if (statusCode =? 500) || (statusCode =? 502) || (statusCode =? 503) || (statusCode =? 504) then
    Types.mkDetails Types.CONNECTION_FAILED
      ("Server error (" +:+ JS.numberToString statusCode +:+
       "). The AEM instance may be unavailable.")
      (Some statusCode) (Some safeUrl) None None
  else
    Types.mkDetails Types.CONNECTION_FAILED
      ("Request failed with status " +:+ JS.numberToString statusCode)
      (Some statusCode) (Some safeUrl) None
      (Some [("body", (fun s => substring 0 200 s) <$> asString body)]).

(** [createError]: the [NodeApiError] built from the details; of the
    details only the message is used. *)
Definition createError (statusCode : Z) (url : string) (body : Json) : Thrown :=
  let details := getErrorDetails statusCode url body in
  mkThrown true (Types.message details) None None
    (Some (JS.numberToString statusCode))
    (Some (Redaction.redactErrorMessage String_replace (JSON_stringify body))).

(** [(error as { statusCode }).statusCode = statusCode] *)
Definition setStatusCode (e : Thrown) (statusCode : Z) : Thrown :=
  mkThrown (isError e) (message e) (code e) (Some statusCode) (httpCode e) (description e).

(** The closure [executeRequest] of [request]. *)
Definition executeRequest (requestOptions : IHttpRequestOptions) (startTime : Z)
    (fullUrl : string) (w : World) : (Thrown + HttpResponse) * World :=
  let '(outcome, w) := httpRequest env requestOptions w in
  match outcome with
  | Threw e => (inl e, w)
  | Responded fullResponse =>
      let latencyMs := now w - startTime in
      if 400 <=? res_statusCode fullResponse then
        let error := createError (res_statusCode fullResponse) fullUrl (res_body fullResponse) in
        (inl (setStatusCode error (res_statusCode fullResponse)), w)
      else
        (inr (mkHttpResponse (res_statusCode fullResponse)
                (default ∅ (res_headers fullResponse))
                (res_body fullResponse) latencyMs), w)
  end.

(** The loop of [withRetry] (src/core/retry.ts), from [attempt] on, with
    [remaining] iterations left before [attempt] exceeds [maxRetries].
    [shouldRetry] is called without response headers, so a decision to
    retry takes its delay from [calculateBackoffDelay], which calls
    [Math.random()] exactly when [jitter] is set; no other decision does. *)
Fixpoint retryLoop {T : Type} (fn : World -> (Thrown + T) * World)
    (fullConfig : Retry.RetryConfig) (remaining : nat) (attempt : Z)
    (lastError : option Thrown) (w : World) : (Thrown + T) * World :=
  match remaining with
  | O => (inl (default thrownUndefined lastError), w)
  | S remaining' =>
      let '(result, w) := fn w in
      match result with
      | inr value => (inr value, w)
      | inl error =>
          let errorInfo :=
            Retry.mkErrorInfo (statusCode error) (code error) (Some (message error)) in
          let '(r, drawn) := random env w in
          let decision :=
            Retry.shouldRetry Date_parse (now w) r errorInfo attempt fullConfig None in
          if negb (Retry.RetryDecision.shouldRetry decision) then (inl error, w)
          else
            let w := if Retry.jitter fullConfig then drawn else w in
            let w := sleep (Retry.RetryDecision.delayMs decision) w in
            retryLoop fn fullConfig remaining' (attempt + 1) (Some error) w
      end
  end.

Definition withRetry {T : Type} (fn : World -> (Thrown + T) * World)
    (fullConfig : Retry.RetryConfig) (w : World) : (Thrown + T) * World :=
  retryLoop fn fullConfig (Z.to_nat (Retry.maxRetries fullConfig + 1)) 0 None w.

(** The body of [request] once the anti-forgery token is known. *)
Definition send (client : AemHttpClient) (options : RequestOptions) (startTime : Z)
    (csrfToken : option string) (w : World) : (Thrown + HttpResponse) * World :=
  let fullUrl := buildUrl client (req_url options) in
  let headers := default ∅ (req_headers options) ∪ getAuthHeaders client in
  let '(body, headers) :=
    match req_body options with
    | Some b =>
        if truthy b then
          (JsonBody b,
           match JS.truthyString (headers !! "Content-Type") with
           | Some _ => headers
           | None => <["Content-Type" := "application/json"]> headers
           end)
        else (NoBody, headers)
    | None => (NoBody, headers)
    end in
  let '(body, headers) :=
    match req_formData options with
    | Some formData =>
        (FormBody formData,
         <["Content-Type" := "application/x-www-form-urlencoded"]> headers)
    | None => (body, headers)
    end in
  let headers :=
    match JS.truthyString csrfToken with
    | Some t => <["CSRF-Token" := t]> headers
    | None => headers
    end in
  let requestOptions :=
    mkRequestOptions (req_method options) fullUrl headers body
      (default [] (req_qs options))
      (default (defaultTimeoutMs client) (req_timeout options))
      (default false (insecureTls (credentials client))) in
  if default false (req_skipRetry options)
  then executeRequest requestOptions startTime fullUrl w
  else withRetry (executeRequest requestOptions startTime fullUrl) (retryConfig client) w.

(** The cached token, when there is one that has not expired.  (In
    [getCsrfToken] below the [token] field of the response is taken when it
    holds a string; the source declares it a string.) *)
Definition cachedToken (client : AemHttpClient) (w : World) : option string :=
  match csrfCache client with
  | Some cache => if now w <? expiresAt cache then Some (token cache) else None
  | None => None
  end.

Definition getCsrfToken (client : AemHttpClient) (w : World)
    : option string * AemHttpClient * World :=
  if negb (default false (csrfEnabled (credentials client))) then (None, client, w)
  else
    match cachedToken client w with
    | Some token => (Some token, client, w)
    | None =>
        let options :=
          mkOptions "GET" "/libs/granite/csrf/token.json" None None None None None (Some true) in
        let '(result, w) := send client options (now w) None w in
        match result with
        | inr response =>
            match stringField "token" (resp_body response) with
            | Some token =>
                (Some token,
                 mkClient (credentials client) (retryConfig client) (defaultTimeoutMs client)
                   (Some (mkCsrfTokenCache token (now w + 5 * 60 * 1000))), w)
            | None => (None, client, w)
            end
        | inl _ => (None, client, w)
        end
    end.

Definition request (client : AemHttpClient) (options : RequestOptions) (w : World)
    : (Thrown + HttpResponse) * AemHttpClient * World :=
  let startTime := now w in
  let '(csrfToken, client, w) :=
    if existsb (String.eqb (req_method options)) ["POST"; "PUT"; "DELETE"]
    then getCsrfToken client w
    else (None, client, w) in
  let '(result, w) := send client options startTime csrfToken w in
  (result, client, w).

Definition get (client : AemHttpClient) (url : string) (timeout : option Z) (w : World) :=
  request client (mkOptions "GET" url None None None None timeout None) w.

Definition postForm (client : AemHttpClient) (url : string)
    (formData : list (string * string)) (w : World) :=
  request client (mkOptions "POST" url None None (Some formData) None None None) w.

Definition uploadFile (client : AemHttpClient) (url : string) (fileData fileName : string)
    (additionalFields : option (list (string * string))) (w : World)
    : (Thrown + HttpResponse) * AemHttpClient * World :=
  let startTime := now w in
  let fullUrl := buildUrl client url in
  let '(csrfToken, client, w) := getCsrfToken client w in
  let headers := getAuthHeaders client in
  let headers :=
    match JS.truthyString csrfToken with
    | Some t => <["CSRF-Token" := t]> headers
    | None => headers
    end in
  let requestOptions :=
    mkRequestOptions "POST" fullUrl headers
      (MultipartBody fileData fileName "application/zip" (default [] additionalFields)) []
      (defaultTimeoutMs client)
      (default false (insecureTls (credentials client))) in
  let '(outcome, w) := httpRequest env requestOptions w in
  match outcome with
  | Threw e => (inl e, client, w)
  | Responded fullResponse =>
      let latencyMs := now w - startTime in
      if 400 <=? res_statusCode fullResponse then
        (inl (createError (res_statusCode fullResponse) fullUrl (res_body fullResponse)),
         client, w)
      else
        (inr (mkHttpResponse (res_statusCode fullResponse)
                (default ∅ (res_headers fullResponse))
                (res_body fullResponse) latencyMs), client, w)
  end.

End WithPlatform.

End HttpClient.

(* ===================================================================== *)
(** * src/adapters/aem65/replication.ts *)
(* ===================================================================== *)

Module Replication.
Import Host.

Inductive ReplicationAction : Type := activate | deactivate.

(** The string value of an action type. *)
Definition actionName (action : ReplicationAction) : string :=
  match action with
  | activate => "activate"
  | deactivate => "deactivate"
  end.

Definition mapActionToCmd (action : ReplicationAction) : string :=
  match action with
  | activate => "Activate"
  | deactivate => "Deactivate"
  end.

(** [timestamp] is the clock reading that [toISOString] formats. *)
Record ReplicationPathResult : Type := mkPathResult {
  path : string;
  action : ReplicationAction;
  requested : bool;
  ok : bool;
  statusCode : JS.Num;
  message : string;
  durationMs : Z;
  timestamp : Z;
}.

(** [dryRun] is [None] when the merged option is [undefined]. *)
Record ReplicationOutput : Type := mkOutput {
  out_ok : bool;
  totalPaths : nat;
  successCount : nat;
  failureCount : nat;
  dryRun : option bool;
  results : list ReplicationPathResult;
  out_timestamp : Z;
}.

Record ReplicationOptions : Type := mkReplicationOptions {
  opt_paths : list string;
  opt_action : ReplicationAction;
  opt_batchSize : JS.Optional Z;
  opt_throttleMs : JS.Optional Z;
  opt_dryRun : JS.Optional bool;
}.

(** [AEM65_ENDPOINTS.replication.action] *)
Definition replication_action_endpoint : string := "/bin/replicate.json".

(** [[...new Set(paths)]]: the first occurrence of each path, in order. *)
Fixpoint dedupe (seen : gset string) (paths : list string) : list string :=
  match paths with
  | [] => []
  | p :: rest =>
      if decide (p ∈ seen) then dedupe seen rest
      else p :: dedupe ({[p]} ∪ seen) rest
  end.

(** The loop that splits [paths] into batches, from index [i] on.  It does
    not terminate for a batch size below one; [None] is "out of fuel". *)
Fixpoint splitBatches (fuel : nat) (paths : list string) (batchSize i : Z)
    : option (list (list string)) :=
  if i <? Z.of_nat (length paths) then
    match fuel with
    | O => None
    | S fuel' =>
        cons (JS.slice paths i (i + batchSize)) <$>
          splitBatches fuel' paths batchSize (i + batchSize)
    end
  else Some [].

(** The same loop when [batchSize] is [undefined]: [0 + undefined] is
    [NaN], [slice(0, NaN)] is empty and [NaN < length] is false. *)
Definition splitBatchesUndefined (paths : list string) : list (list string) :=
  match paths with
  | [] => []
  | _ => [ [] ]
  end.

Definition skipped (path : string) (action : ReplicationAction) (w : World)
    : ReplicationPathResult :=
  mkPathResult path action false true (JS.Int 200)
    "Skipped (already processed in this run)" 0 (now w).

Section WithClient.

(** The client and its [postForm] method. *)
Variable Client : Type.
Variable postForm :
  Client -> string -> list (string * string) -> World ->
  (Thrown + HttpClient.HttpResponse) * Client * World.

Definition replicateSinglePath (client : Client) (path : string)
    (action : ReplicationAction) (dryRun : option bool) (w : World)
    : ReplicationPathResult * Client * World :=
  let timestamp := now w in
  let startTime := now w in
  let validation := Validation.validateAemPath path in
  if negb (Validation.valid validation) then
    (mkPathResult path action false false (JS.Int 400)
       (default "Invalid path"
          (JS.truthyString (Types.message <$> Validation.error validation)))
       (now w - startTime) timestamp, client, w)
  else if default false dryRun then
    (mkPathResult path action false true (JS.Int 200)
       ("[DRY RUN] Would " +:+ actionName action +:+ " path")
       (now w - startTime) timestamp, client, w)
  else
    let '(outcome, client, w) :=
      postForm client replication_action_endpoint
        [("cmd", mapActionToCmd action); ("path", path); ("_charset_", "utf-8")] w in
    match outcome with
    | inr response =>
        let sc := HttpClient.resp_statusCode response in
        let ok := (200 <=? sc) && (sc <? 300) in
        let message :=
          default
            (if ok then "Successfully " +:+ actionName action +:+ "d" else "Replication failed")
            (JS.truthyString (stringField "message" (HttpClient.resp_body response))) in
        (mkPathResult path action true ok (JS.Int sc) message (now w - startTime) timestamp,
         client, w)
    | inl error =>
        let errorMessage := if isError error then Host.message error else "Unknown error" in
        let statusCode :=
          match JS.truthyString (httpCode error) with
          | Some h => JS.parseInt h
          | None => JS.Int 500
          end in
        (mkPathResult path action true false statusCode
           ("Replication failed: " +:+ errorMessage) (now w - startTime) timestamp,
         client, w)
    end.

(** The inner loop of [processBatches]: the paths of one batch. *)
Fixpoint processBatch (action : ReplicationAction) (dryRun : option bool)
    (batch : list string) (client : Client) (processedPaths : gset string)
    (results : list ReplicationPathResult) (w : World)
    : list ReplicationPathResult * gset string * Client * World :=
  match batch with
  | [] => (results, processedPaths, client, w)
  | path :: rest =>
      if decide (path ∈ processedPaths) then
        processBatch action dryRun rest client processedPaths
          (results ++ [skipped path action w]) w
      else
        let '(result, client, w) := replicateSinglePath client path action dryRun w in
        processBatch action dryRun rest client ({[path]} ∪ processedPaths)
          (results ++ [result]) w
  end.

(** The outer loop of [processBatches]; [rest] is empty exactly at the
    last batch. *)
Fixpoint processEachBatch (action : ReplicationAction) (throttleMs : option Z)
    (dryRun : option bool) (batches : list (list string)) (client : Client)
    (processedPaths : gset string) (results : list ReplicationPathResult) (w : World)
    : list ReplicationPathResult * gset string * Client * World :=
  match batches with
  | [] => (results, processedPaths, client, w)
  | batch :: rest =>
      let '(results, processedPaths, client, w) :=
        processBatch action dryRun batch client processedPaths results w in
      let w :=
        match rest, throttleMs with
        | _ :: _, Some ms => if 0 <? ms then sleep ms w else w
        | _, _ => w
        end in
      processEachBatch action throttleMs dryRun rest client processedPaths results w
  end.

Definition processBatches (fuel : nat) (client : Client) (paths : list string)
    (action : ReplicationAction) (batchSize throttleMs : option Z) (dryRun : option bool)
    (processedPaths : gset string) (w : World)
    : option (list ReplicationPathResult * Client * World) :=
  let batches :=
    match batchSize with
    | Some b => splitBatches fuel paths b 0
    | None => Some (splitBatchesUndefined paths)
    end in
  match batches with
  | None => None
  | Some batches =>
      let '(results, _, client, w) :=
        processEachBatch action throttleMs dryRun batches client processedPaths [] w in
      Some (results, client, w)
  end.

Definition performReplication (fuel : nat) (client : Client) (options : ReplicationOptions)
    (w : World) : option (ReplicationOutput * Client * World) :=
  let batchSize := JS.spread 10 (opt_batchSize options) in
  let throttleMs := JS.spread 100 (opt_throttleMs options) in
  let dryRun := JS.spread false (opt_dryRun options) in
  let timestamp := now w in
  let processedPaths : gset string := ∅ in
  let uniquePaths := dedupe ∅ (opt_paths options) in
  match processBatches fuel client uniquePaths (opt_action options)
          batchSize throttleMs dryRun processedPaths w with
  | None => None
  | Some (results, client, w) =>
      let successCount := length (filter (fun r => ok r = true) results) in
      let failureCount := length (filter (fun r => ok r = false) results) in
      Some (mkOutput (failureCount =? 0)%nat (length results) successCount failureCount
              dryRun results timestamp, client, w)
  end.

Definition activatePaths (fuel : nat) (client : Client) (paths : list string)
    (batchSize throttleMs : JS.Optional Z) (dryRun : JS.Optional bool) (w : World) :=
  performReplication fuel client
    (mkReplicationOptions paths activate batchSize throttleMs dryRun) w.

Definition deactivatePaths (fuel : nat) (client : Client) (paths : list string)
    (batchSize throttleMs : JS.Optional Z) (dryRun : JS.Optional bool) (w : World) :=
  performReplication fuel client
    (mkReplicationOptions paths deactivate batchSize throttleMs dryRun) w.

End WithClient.

End Replication.

(* ===================================================================== *)
(** * src/nodes/AemCachePurge/AemCachePurge.node.ts: [execute] *)
(* ===================================================================== *)

Module CachePurge.
Import Host.

Inductive PurgeMethod : Type := PURGE | POST.

Definition methodName (m : PurgeMethod) : string :=
  match m with
  | PURGE => "PURGE"
  | POST => "POST"
  end.

Record PurgeUrlResult : Type := mkUrlResult {
  url : string;
  method : PurgeMethod;
  requested : bool;
  ok : bool;
  statusCode : Z;
  message : string;
  timestamp : Z;
}.

Record CachePurgeOutput : Type := mkOutput {
  out_ok : bool;
  totalUrls : nat;
  successCount : nat;
  failureCount : nat;
  dryRun : bool;
  results : list PurgeUrlResult;
  out_timestamp : Z;
}.

(** The parameters of one input item, once resolved by the host: [urls] is
    the list read from the manual text or the array parameter. *)
Record Parameters : Type := mkParameters {
  urls : list string;
  par_method : PurgeMethod;
  allowlistRegex : string;
  par_dryRun : bool;
  customHeaders : option (list (string * string));
  timeoutMs : option Z;
  failOnError : option bool;
}.

(** What [execute] does with one input item: it pushes an output (with an
    [error] property on the substitute output of the handler), or the
    error leaves [execute]. *)
Inductive ItemResult : Type :=
| Pushed (output : CachePurgeOutput) (error : option string)
| Raised (e : Thrown).

(** [new NodeOperationError(node, message)] *)
Definition NodeOperationError (message : string) : Thrown :=
  mkThrown true message None None None None.

(** The loop that builds [customHeaders]. *)
Fixpoint buildCustomHeaders (header : list (string * string)) (acc : gmap string string)
    : gmap string string :=
  match header with
  | [] => acc
  | (name, value) :: rest =>
      if negb (JS.isEmpty name) && negb (JS.isEmpty value)
      then buildCustomHeaders rest (<[name := value]> acc)
      else buildCustomHeaders rest acc
  end.

Section WithPlatform.

Variable env : Environment.
Variable URL_parse : string -> option Validation.URL.
Variable RegExp : Type.
Variable RegExp_new : string -> option RegExp.
Variable RegExp_test : RegExp -> string -> bool.

Definition validateUrl := Validation.validateUrl URL_parse.

Definition validateUrlAgainstAllowlist :=
  Validation.validateUrlAgainstAllowlist URL_parse RegExp RegExp_new RegExp_test.

(** One iteration of the loop [for (const url of urls)]. *)
Definition purgeUrl (p : Parameters) (headers : gmap string string) (timeout : Z)
    (timestamp : Z) (url : string) (processedUrls : gset string) (w : World)
    : PurgeUrlResult * gset string * World :=
  let method := par_method p in
  if decide (url ∈ processedUrls) then
    (mkUrlResult url method false true 200 "Skipped (duplicate URL in this batch)" timestamp,
     processedUrls, w)
  else
    let processedUrls := {[url]} ∪ processedUrls in
    let urlValidation := validateUrl url None in
    if negb (Validation.valid urlValidation) then
      (mkUrlResult url method false false 400
         (default "Invalid URL format"
            (JS.truthyString (Types.message <$> Validation.error urlValidation)))
         timestamp, processedUrls, w)
    else
      let allowlistValidation := validateUrlAgainstAllowlist url (allowlistRegex p) in
      if negb (Validation.valid allowlistValidation) then
        (mkUrlResult url method false false 403
           (default "URL not in allowlist"
              (JS.truthyString (Types.message <$> Validation.error allowlistValidation)))
           timestamp, processedUrls, w)
      else if par_dryRun p then
        (mkUrlResult url method false true 200
           ("[DRY RUN] Would send " +:+ methodName method +:+ " request")
           timestamp, processedUrls, w)
      else
        let requestOptions :=
          mkRequestOptions (methodName method) url headers NoBody [] timeout false in
        let '(outcome, w) := httpRequest env requestOptions w in
        match outcome with
        | Responded response =>
            let sc := res_statusCode response in
            let ok := (200 <=? sc) && (sc <? 300) in
            (mkUrlResult url method true ok sc
               (if ok then "Purge successful"
                else "Purge failed with status " +:+ JS.numberToString sc)
               timestamp, processedUrls, w)
        | Threw error =>
            (mkUrlResult url method true false 0
               ("Request failed: " +:+
                (if isError error then Host.message error else "Unknown error"))
               timestamp, processedUrls, w)
        end.

(** The loop over [urls], from the state [(results, processedUrls, w)]. *)
Fixpoint purgeUrls (p : Parameters) (headers : gmap string string) (timeout : Z)
    (timestamp : Z) (urls : list string) (results : list PurgeUrlResult)
    (processedUrls : gset string) (w : World)
    : list PurgeUrlResult * gset string * World :=
  match urls with
  | [] => (results, processedUrls, w)
  | url :: rest =>
      let '(result, processedUrls, w) :=
        purgeUrl p headers timeout timestamp url processedUrls w in
      purgeUrls p headers timeout timestamp rest (results ++ [result]) processedUrls w
  end.

(** The summary computed after the loop. *)
Definition summarize (dryRun : bool) (timestamp : Z) (results : list PurgeUrlResult)
    : CachePurgeOutput :=
  let successCount := length (filter (fun r => ok r = true) results) in
  let failureCount := length (filter (fun r => ok r = false) results) in
  mkOutput (failureCount =? 0)%nat (length results) successCount failureCount
    dryRun results timestamp.

(** The [try] block of [execute] for one input item, from the check that
    there is at least one URL; [inl] is a thrown error. *)
Definition tryItem (p : Parameters) (w : World) : (Thrown + CachePurgeOutput) * World :=
  match urls p with
  | [] => (inl (NodeOperationError "At least one URL is required"), w)
  | _ =>
      let customHeaders := buildCustomHeaders (default [] (customHeaders p)) ∅ in
      let timeout := default 5000 (JS.truthyNumber (timeoutMs p)) in
      let timestamp := now w in
      let '(results, _, w) :=
        purgeUrls p customHeaders timeout timestamp (urls p) [] ∅ w in
      let output := summarize (par_dryRun p) timestamp results in
      if default false (failOnError p) && negb (out_ok output) then
        let failedUrls :=
          JS.join "; "
            (map (fun r => url r +:+ ": " +:+ message r)
               (filter (fun r => ok r = false) results)) in
        (inl (NodeOperationError
                ("Cache purge failed for " +:+
                 JS.numberToString (Z.of_nat (failureCount output)) +:+
                 " URL(s): " +:+ failedUrls)), w)
      else (inr output, w)
  end.

(** The body of the loop of [execute] for one input item, with its
    [catch]; [continueOnFail] is the host's setting. *)
Definition executeItem (continueOnFail : bool) (p : Parameters) (w : World)
    : ItemResult * World :=
  let '(attempt, w) := tryItem p w in
  match attempt with
  | inr output => (Pushed output None, w)
  | inl error =>
      if continueOnFail then
        (Pushed (mkOutput false 0 0 0 false [] (now w))
           (Some (if isError error then Host.message error else "Unknown error")), w)
      else (Raised error, w)
  end.

End WithPlatform.

End CachePurge.

(* ===================================================================== *)
(** * src/adapters/aem65/packageManager.ts *)
(* ===================================================================== *)

Module PackageManager.
Import Host.

Record PackageOutput : Type := mkOutput {
  ok : bool;
  statusCode : JS.Num;
  uploaded : bool;
  installed : bool;
  packageId : option string;
  packageName : string;
  logs : list string;
  dryRun : bool;
  timestamp : Z;
}.

Record PackageUploadOptions : Type := mkUploadOptions {
  opt_packageName : JS.Optional string;
  opt_install : JS.Optional bool;
  opt_dryRun : JS.Optional bool;
}.

(** [AEM65_ENDPOINTS.packageManager.service] *)
Definition packageManager_service : string := "/crx/packmgr/service.jsp".

(** [now] is the reading of [Date.now()]. *)
Definition extractPackageName (now : Z) (providedName : option string) : string :=
  match JS.truthyString providedName with
  | Some provided =>
      let name := JS.trim provided in
      if JS.isEmpty name then "package-" +:+ JS.numberToString now +:+ ".zip"
      else if JS.endsWith name ".zip" then name else name +:+ ".zip"
  | None => "package-" +:+ JS.numberToString now +:+ ".zip"
  end.

(** The markup test of [isSuccessResponse]. *)
Definition markupIndicatesSuccess (response : string) : bool :=
  JS.includes response "success" ||
  JS.includes response "Package uploaded" ||
  JS.includes response "Package installed" ||
  negb (JS.includes response "error") ||
  negb (JS.includes response "Error").

(** The literal that finds a package path in markup: [/etc/packages/],
    then characters other than a double quote, [<] and white space, then
    [.zip]. *)
Definition packagePathPattern : Redaction.RegExpLiteral :=
  Redaction.mkLiteral ("\/etc\/packages\/[^" +:+ Redaction.dquote +:+ "<\s]+\.zip") "".

Section WithPlatform.

(** [JSON.parse]; [None] when it throws. *)
Variable JSON_parse : string -> option Json.

(** [s.match(re)?.[0]] and [s.replace(re, replacement)] *)
Variable String_match : Redaction.RegExpLiteral -> string -> option string.
Variable String_replace : Redaction.RegExpLiteral -> string -> string -> string.

(** The [TypeError] raised by reading the named property of [null]. *)
Variable nullPropertyError : string -> Thrown.

(** [response.name] for a response that is not a string. *)
Definition property (name : string) (response : Json) : Thrown + option Json :=
  match response with
  | JNull => inl (nullPropertyError name)
  | _ => inr (field name response)
  end.

Definition isSuccessResponse (response : Json) (statusCode : Z) : Thrown + bool :=
  if (statusCode <? 200) || (300 <=? statusCode) then inr false
  else
    match response with
    | JString markup => inr (markupIndicatesSuccess markup)
    | _ =>
        match property "success" response with
        | inl e => inl e
        | inr (Some (JBool true)) => inr true
        | inr _ => inr false
        end
    end.

(** [value || null] for a property expected to hold a string. *)
Definition stringOrNull (v : option Json) : option string :=
  match v with
  | Some (JString s) => JS.truthyString (Some s)
  | _ => None
  end.

Definition parsePackageId (response : Json) : Thrown + option string :=
  match response with
  | JString text =>
      match JSON_parse text with
      | Some JNull | None =>
          inr (String_match packagePathPattern text)
      | Some parsed => inr (stringOrNull (field "path" parsed))
      end
  | _ =>
      match property "path" response with
      | inl e => inl e
      | inr v => inr (stringOrNull v)
      end
  end.

Definition logLine (line : string) : option string :=
  let trimmed := JS.trim (String_replace (Redaction.mkLiteral "<[^>]*>" "g") line "") in
  if negb (JS.isEmpty trimmed) && negb (JS.startsWith trimmed "<") then Some trimmed else None.

Definition stringItems (items : list Json) : list string := omap asString items.

Definition parseInstallLogs (response : Json) : Thrown + list string :=
  match response with
  | JString text => inr (take 100 (omap logLine (Web.splitOn "010" text)))
  | _ =>
      match property "log" response with
      | inl e => inl e
      | inr (Some (JArray items)) => inr (stringItems items)
      | inr _ =>
          match stringOrNull (field "msg" response) with
          | Some msg => inr [msg]
          | None => inr []
          end
      end
  end.

(** The variables of [uploadPackage] that its [catch] block reads. *)
Record Progress : Type := mkProgress {
  p_uploaded : bool;
  p_installed : bool;
  p_packageId : option string;
  p_logs : list string;
}.

Variable Client : Type.
Variable uploadFile :
  Client -> string -> string -> string -> option (list (string * string)) -> World ->
  (Thrown + HttpClient.HttpResponse) * Client * World.
Variable postForm :
  Client -> string -> list (string * string) -> World ->
  (Thrown + HttpClient.HttpResponse) * Client * World.

(** The installation step of the [try] block. *)
Definition installStep (client : Client) (packageName : string) (timestamp : Z)
    (install : bool) (statusCode : Z) (packageId : option string) (logs : list string)
    (w : World) : Progress * (Thrown + PackageOutput) * Client * World :=
  match (if install then JS.truthyString packageId else None) with
  | None =>
      (mkProgress true false packageId logs,
       inr (mkOutput (negb install) (JS.Int statusCode) true false packageId packageName
              logs false timestamp), client, w)
  | Some id =>
      let logs := logs ++ ["Installing package..."] in
      let '(outcome, client, w) :=
        postForm client (packageManager_service +:+ "/script.html" +:+ id)
          [("cmd", "install")] w in
      match outcome with
      | inl e => (mkProgress true false packageId logs, inl e, client, w)
      | inr installResponse =>
          let statusCode := HttpClient.resp_statusCode installResponse in
          match isSuccessResponse (HttpClient.resp_body installResponse) statusCode with
          | inl e => (mkProgress true false packageId logs, inl e, client, w)
          | inr installed =>
              match parseInstallLogs (HttpClient.resp_body installResponse) with
              | inl e => (mkProgress true installed packageId logs, inl e, client, w)
              | inr installLogs =>
                  let logs :=
                    logs ++ installLogs ++
                    [if installed then "Package installed successfully"
                     else "Package installation failed"] in
                  (mkProgress true installed packageId logs,
                   inr (mkOutput installed (JS.Int statusCode) true installed packageId
                          packageName logs false timestamp), client, w)
              end
          end
      end
  end.

(** The [try] block: the variables as they stand when it is left, and the
    value it returns or throws. *)
Definition tryUpload (client : Client) (packageData packageName : string) (timestamp : Z)
    (install : bool) (w : World) : Progress * (Thrown + PackageOutput) * Client * World :=
  let logs := ["Uploading package: " +:+ packageName] in
  let '(outcome, client, w) :=
    uploadFile client (packageManager_service +:+ "?cmd=upload&force=true")
      packageData packageName None w in
  match outcome with
  | inl e => (mkProgress false false None logs, inl e, client, w)
  | inr uploadResponse =>
      let statusCode := HttpClient.resp_statusCode uploadResponse in
      let body := HttpClient.resp_body uploadResponse in
      match isSuccessResponse body statusCode with
      | inl e => (mkProgress false false None logs, inl e, client, w)
      | inr uploaded =>
          match parsePackageId body with
          | inl e => (mkProgress uploaded false None logs, inl e, client, w)
          | inr packageId =>
              if uploaded then
                let logs := logs ++ ["Package uploaded successfully"] in
                let logs :=
                  match JS.truthyString packageId with
                  | Some id => logs ++ ["Package path: " +:+ id]
                  | None => logs
                  end in
                installStep client packageName timestamp install statusCode packageId logs w
              else
                let logs := logs ++ ["Package upload failed"] in
                match parseInstallLogs body with
                | inl e => (mkProgress uploaded false packageId logs, inl e, client, w)
                | inr uploadLogs =>
                    let logs := logs ++ uploadLogs in
                    (mkProgress uploaded false packageId logs,
                     inr (mkOutput false (JS.Int statusCode) false false packageId packageName
                            logs false timestamp), client, w)
                end
          end
      end
  end.

Definition uploadPackage (client : Client) (packageData : string)
    (options : PackageUploadOptions) (w : World) : PackageOutput * Client * World :=
  let optPackageName := JS.spread "" (opt_packageName options) in
  let install := default false (JS.spread false (opt_install options)) in
  let dryRun := default false (JS.spread false (opt_dryRun options)) in
  let timestamp := now w in
  let packageName := extractPackageName (now w) optPackageName in
  if dryRun then
    let logs :=
      "[DRY RUN] Would upload package" ::
      (if install then ["[DRY RUN] Would install package after upload"] else []) in
    (mkOutput true (JS.Int 200) false false None packageName logs true timestamp, client, w)
  else
    let '(progress, result, client, w) :=
      tryUpload client packageData packageName timestamp install w in
    match result with
    | inr output => (output, client, w)
    | inl error =>
        let errorMessage := if isError error then Host.message error else "Unknown error" in
        let logs := p_logs progress ++ ["Error: " +:+ errorMessage] in
        (mkOutput false
           match JS.truthyString (httpCode error) with
           | Some h => JS.parseInt h
           | None => JS.Int 500
           end
           (p_uploaded progress) (p_installed progress) (p_packageId progress)
           packageName logs false timestamp, client, w)
    end.

End WithPlatform.

End PackageManager.

(* ===================================================================== *)
(** * Notions used to state the properties *)
(* ===================================================================== *)

Module Notions.
Import Host.

(** ** Validation *)

(** The code of the error of a validation result, if it has one. *)
Definition errorCode (r : Validation.ValidationResult) : option Types.AemErrorCode :=
  Types.code <$> Validation.error r.

(** ** The HTTP client *)

Section ClientErrors.

Variable env : Environment.
Variable JSON_stringify : Json -> string.
Variable String_replace : Redaction.RegExpLiteral -> string -> string -> string.
Variable URL_redact : (string -> bool) -> string -> string -> option string.

(** The error [request] builds for a response with a status of 400 or
    more. *)
Definition classified (e : Thrown) : Prop :=
  exists status url body,
    400 <= status /\
    e = HttpClient.setStatusCode
          (HttpClient.createError JSON_stringify String_replace URL_redact status url body)
          status.

(** A value the host's [httpRequest] itself threw. *)
Definition thrownByNetwork (e : Thrown) : Prop :=
  exists n options elapsed, answer env n options = (Threw e, elapsed).

End ClientErrors.

(** ** Replication *)

(** A result with the shape of the "already processed" short-circuit. *)
Definition isSkip (r : Replication.ReplicationPathResult) : Prop :=
  Replication.requested r = false /\
  Replication.message r = "Skipped (already processed in this run)".

(** ** Cache purge *)

(** The result pushed for a URL already seen in this run. *)
Definition skipResult (p : CachePurge.Parameters) (timestamp : Z) (u : string)
    : CachePurge.PurgeUrlResult :=
  CachePurge.mkUrlResult u (CachePurge.par_method p) false true 200
    "Skipped (duplicate URL in this batch)" timestamp.

(** The request sent for a URL. *)
Definition purgeRequest (p : CachePurge.Parameters) (headers : gmap string string)
    (timeout : Z) (u : string) : IHttpRequestOptions :=
  mkRequestOptions (CachePurge.methodName (CachePurge.par_method p)) u headers NoBody []
    timeout false.

(** The requests the loop sends for a list of results: one per requested
    result. *)
Definition requestsOf (p : CachePurge.Parameters) (headers : gmap string string)
    (timeout : Z) (rs : list CachePurge.PurgeUrlResult) : list IHttpRequestOptions :=
  map (fun r => purgeRequest p headers timeout (CachePurge.url r))
      (filter (fun r => CachePurge.requested r = true) rs).

(** The invariant of an aggregate output. *)
Definition consistent (o : CachePurge.CachePurgeOutput) : Prop :=
  CachePurge.totalUrls o = (CachePurge.successCount o + CachePurge.failureCount o)%nat /\
  CachePurge.totalUrls o = length (CachePurge.results o) /\
  (CachePurge.out_ok o = true <-> CachePurge.failureCount o = 0%nat).

(** The headers and the timeout [execute] computes from the parameters. *)
Definition runHeaders (p : CachePurge.Parameters) : gmap string string :=
  CachePurge.buildCustomHeaders (default [] (CachePurge.customHeaders p)) ∅.

Definition runTimeout (p : CachePurge.Parameters) : Z :=
  default 5000 (JS.truthyNumber (CachePurge.timeoutMs p)).

Section Purge.

Variable env : Environment.
Variable URL_parse : string -> option Validation.URL.
Variable RegExp : Type.
Variable RegExp_new : string -> option RegExp.
Variable RegExp_test : RegExp -> string -> bool.

(** The loop as [execute] runs it for the parameters [p] from the world [w]. *)
Definition run (p : CachePurge.Parameters) (w : World)
    : list CachePurge.PurgeUrlResult * gset string * World :=
  CachePurge.purgeUrls env URL_parse RegExp RegExp_new RegExp_test
    p (runHeaders p) (runTimeout p) (now w) (CachePurge.urls p) [] ∅ w.

Variable p : CachePurge.Parameters.
Variable headers : gmap string string.
Variable timeout : Z.
Variable timestamp : Z.

(** The four ways a URL not seen before is settled: rejected by the format
    check, rejected by the allowlist, simulated, or attempted. *)
Inductive settled (u : string) (w : World) : CachePurge.PurgeUrlResult -> World -> Prop :=
| settled_invalid :
    Validation.valid (Validation.validateUrl URL_parse u None) = false ->
    settled u w
      (CachePurge.mkUrlResult u (CachePurge.par_method p) false false 400
         (default "Invalid URL format"
            (JS.truthyString
               (Types.message <$> Validation.error (Validation.validateUrl URL_parse u None))))
         timestamp) w
| settled_rejected :
    Validation.valid (Validation.validateUrl URL_parse u None) = true ->
    Validation.valid
      (Validation.validateUrlAgainstAllowlist URL_parse RegExp RegExp_new RegExp_test
         u (CachePurge.allowlistRegex p)) = false ->
    settled u w
      (CachePurge.mkUrlResult u (CachePurge.par_method p) false false 403
         (default "URL not in allowlist"
            (JS.truthyString
               (Types.message <$>
                Validation.error
                  (Validation.validateUrlAgainstAllowlist URL_parse RegExp RegExp_new
                     RegExp_test u (CachePurge.allowlistRegex p)))))
         timestamp) w
| settled_simulated :
    Validation.valid (Validation.validateUrl URL_parse u None) = true ->
    Validation.valid
      (Validation.validateUrlAgainstAllowlist URL_parse RegExp RegExp_new RegExp_test
         u (CachePurge.allowlistRegex p)) = true ->
    CachePurge.par_dryRun p = true ->
    settled u w
      (CachePurge.mkUrlResult u (CachePurge.par_method p) false true 200
         ("[DRY RUN] Would send " +:+ CachePurge.methodName (CachePurge.par_method p) +:+
          " request")
         timestamp) w
| settled_attempted (r : CachePurge.PurgeUrlResult) :
    Validation.valid (Validation.validateUrl URL_parse u None) = true ->
    Validation.valid
      (Validation.validateUrlAgainstAllowlist URL_parse RegExp RegExp_new RegExp_test
         u (CachePurge.allowlistRegex p)) = true ->
    CachePurge.par_dryRun p = false ->
    CachePurge.url r = u -> CachePurge.requested r = true ->
    (match (httpRequest env (purgeRequest p headers timeout u) w).1 with
     | Responded response =>
         CachePurge.ok r =
           ((200 <=? res_statusCode response) && (res_statusCode response <? 300)) /\
         CachePurge.statusCode r = res_statusCode response
     | Threw error =>
         CachePurge.ok r = false /\ CachePurge.statusCode r = 0 /\
         CachePurge.message r =
           "Request failed: " +:+ (if isError error then message error else "Unknown error")
     end) ->
    settled u w r (httpRequest env (purgeRequest p headers timeout u) w).2.

End Purge.

(** ** The package adapter *)

(** The markup contains one of the success keywords. *)
Definition hasSuccessKeyword (markup : string) : bool :=
  JS.includes markup "success" ||
  JS.includes markup "Package uploaded" ||
  JS.includes markup "Package installed".

(** The markup contains one of the error keywords. *)
Definition hasErrorKeyword (markup : string) : bool :=
  JS.includes markup "error" || JS.includes markup "Error".

End Notions.


(* ===================================================================== *)
(** * Concrete runs *)
(* ===================================================================== *)

Module Scenario.
Import Host.

(** A network that answers every call with the given status and an empty
    object, after five milliseconds; [Math.random()] returns 0. *)
Definition respond (status : Z) : Environment :=
  mkEnvironment
    (fun _ _ => (Responded (mkFullResponse status None (JObject [])), 5))
    (fun _ => 0%Q).

(** The world before the run. *)
Definition world : World := mkWorld 1000 0 [].

(** A client with bearer credentials and no anti-forgery token. *)
Definition client : HttpClient.AemHttpClient :=
  HttpClient.createHttpClientWithCredentials
    (HttpClient.mkCredentials "https://author.example.com/" HttpClient.bearer
       None None (Some "t") None None).

(** [postForm] of the client.  On the runs below every response has a
    status below 400, so that none of the platform operations passed here
    ([JSON.stringify], base64, date parsing, [replace], URL redaction) is
    reached. *)
Definition postForm (env : Environment) :=
  HttpClient.postForm env (fun _ => "") (fun s => s) (fun _ => None)
    (fun _ s _ => s) (fun _ _ _ => None).

(** The same path twice, with explicit batch size and no dry run. *)
Definition repeatedPath : Replication.ReplicationOptions :=
  Replication.mkReplicationOptions ["/content/a"; "/content/a"] Replication.activate
    (JS.Present (Some 10)) (JS.Present (Some 0)) (JS.Present (Some false)).

(** Three paths in dry run. *)
Definition dryReplication : Replication.ReplicationOptions :=
  Replication.mkReplicationOptions ["/content/a"; "/content/b"; "/content/c"]
    Replication.activate (JS.Present (Some 2)) (JS.Present (Some 0)) (JS.Present (Some true)).

(** The scenario of the specification: the same URL twice against an
    allowlist it matches. *)
Definition repeatedUrl : CachePurge.Parameters :=
  CachePurge.mkParameters ["https://a.example.com/x"; "https://a.example.com/x"]
    CachePurge.PURGE "^https://.*\.example\.com/.*$" false None None None.

(** The same, failing the workflow on error. *)
Definition strictPurge : CachePurge.Parameters :=
  CachePurge.mkParameters ["https://a.example.com/x"]
    CachePurge.PURGE "^https://.*\.example\.com/.*$" false None None (Some true).

(** A URL outside the allowlist, twice. *)
Definition rejectedTwice : CachePurge.Parameters :=
  CachePurge.mkParameters ["https://evil.com/x"; "https://evil.com/x"]
    CachePurge.PURGE "^https://good\.com/.*$" false None None None.

(** The purge of the cache on the platform fragment. *)
Definition executeItem (env : Environment) :=
  CachePurge.executeItem env Web.URL_parse Web.regex Web.RegExp_new Web.RegExp_test.

Definition tryItem (env : Environment) :=
  CachePurge.tryItem env Web.URL_parse Web.regex Web.RegExp_new Web.RegExp_test.

(** A markup body that reports an error and no success. *)
Definition errorPage : string := "<html><body>error: invalid package</body></html>".

(** A network whose first call fails with a connection reset and whose
    later calls are answered 200. *)
Definition connectionReset : Thrown :=
  mkThrown true "socket hang up" (Some "ECONNRESET") None None None.

Definition flaky : Environment :=
  mkEnvironment
    (fun n _ =>
       match n with
       | O => (Threw connectionReset, 5)
       | S _ => (Responded (mkFullResponse 200 None (JObject [])), 5)
       end)
    (fun _ => 0%Q).

(** Two distinct URLs, no allowlist. *)
Definition twoUrls : CachePurge.Parameters :=
  CachePurge.mkParameters ["https://a.example.com/x"; "https://a.example.com/y"]
    CachePurge.POST "" false None None None.

(** The default retry configuration with jitter off. *)
Definition steadyConfig : Retry.RetryConfig :=
  Retry.mkRetryConfig 3 1000 30000 2 false
    (Retry.retryableStatusCodes Retry.DEFAULT_RETRY_CONFIG)
    (Retry.retryableErrorCodes Retry.DEFAULT_RETRY_CONFIG).

(** The same with a multiplier of one half. *)
Definition halvingConfig : Retry.RetryConfig :=
  Retry.mkRetryConfig 3 1000 30000 (1 # 2) false
    (Retry.retryableStatusCodes Retry.DEFAULT_RETRY_CONFIG)
    (Retry.retryableErrorCodes Retry.DEFAULT_RETRY_CONFIG).

(** A 404 response, which is in no retryable set. *)
Definition notFound : Retry.ErrorInfo := Retry.mkErrorInfo (Some 404) None (Some "Not Found").

(** The URL and the pattern of the specification's example, and an
    unanchored pattern with a URL that merely contains a match. *)
Definition evilUrl : string := "https://evil.com/x".
Definition goodPattern : string := "^https://good\.com/.*$".
Definition lureUrl : string := "https://evil.com/good".
Definition loosePattern : string := "good".

(** What the replication node passes when the batch size and the throttle
    are not set among its options: both properties are there, [undefined]. *)
Definition unsetBatchSize : Replication.ReplicationOptions :=
  Replication.mkReplicationOptions ["/content/a"; "/content/b"] Replication.activate
    (JS.Present None) (JS.Present None) (JS.Present (Some false)).

(** A batch size of zero. *)
Definition zeroBatchSize : Replication.ReplicationOptions :=
  Replication.mkReplicationOptions ["/content/a"; "/content/b"] Replication.activate
    (JS.Present (Some 0)) (JS.Present (Some 0)) (JS.Present (Some false)).

(** The message V8 gives the [TypeError] for a property of [null]. *)
Definition v8NullPropertyError (name : string) : Thrown :=
  mkThrown true ("Cannot read properties of null (reading '" +:+ name +:+ "')")
    None None None None.

End Scenario.

(* ===================================================================== *)
(** * src/core/validation.ts: [sanitizePath], [parsePathList] *)
(* ===================================================================== *)

Module PathHelpers.

(** [s.replace(/\/+/g, '/')]: every run of slashes becomes one slash. *)
Fixpoint collapseSlashes (s : string) : string :=
  match s with
  | EmptyString => EmptyString
  | String c r =>
      if Ascii.eqb c "/" then
        match r with
        | String "/" _ => collapseSlashes r
        | _ => String "/" (collapseSlashes r)
        end
      else String c (collapseSlashes r)
  end.

Definition sanitizePath (path : string) : string :=
  let sanitized := if JS.startsWith path "/" then path else "/" +:+ path in
  let sanitized := collapseSlashes sanitized in
  if (1 <? String.length sanitized)%nat
  then Web.dropWhileEnd (Ascii.eqb "/") sanitized
  else sanitized.

(** The character class [[\n,;]]. *)
Definition isSeparator (c : ascii) : bool :=
  Ascii.eqb c "010" || Ascii.eqb c "," || Ascii.eqb c ";".

(** [input.split(/[\n,;]+/)]: the pieces between the runs of separators;
    a run at either end leaves an empty piece there. *)
Fixpoint splitOnSeparators (input : string) : list string :=
  match input with
  | EmptyString => [EmptyString]
  | String c r =>
      if isSeparator c then
        match r with
        | String d _ =>
            if isSeparator d then splitOnSeparators r
            else EmptyString :: splitOnSeparators r
        | EmptyString => EmptyString :: splitOnSeparators r
        end
      else
        match splitOnSeparators r with
        | piece :: rest => String c piece :: rest
        | [] => [String c EmptyString]
        end
  end.

Definition parsePathList (input : string) : list string :=
  if JS.isEmpty input then []
  else
    filter (fun p => (0 <? String.length p)%nat = true)
      (map JS.trim (splitOnSeparators input)).

End PathHelpers.

(* ===================================================================== *)
(** * The trace of the retry loop *)
(* ===================================================================== *)

Module RetryNotions.
Import Host.

Section Trace.

Variable env : Environment.
Variable config : Retry.RetryConfig.
Variable request : IHttpRequestOptions.

(** What [k] retries of [request] leave in the trace, from the attempt
    number [attempt] on, when [draws] values have been drawn from
    [Math.random()] so far: a sleep of the computed backoff delay, then
    the request again. *)
Fixpoint retries (k : nat) (attempt : Z) (draws : nat) : list Event :=
  match k with
  | O => []
  | S k' =>
      Slept (Retry.calculateBackoffDelay (Math_random env draws) attempt config) ::
      NetworkCall request ::
      retries k' (attempt + 1) (if Retry.jitter config then S draws else draws)
  end.

End Trace.

(** The network answers every call with the status [status]. *)
Definition alwaysAnswers (env : Environment) (status : Z) : Prop :=
  forall n options,
    exists response elapsed,
      answer env n options = (Responded response, elapsed) /\
      res_statusCode response = status.

End RetryNotions.

(* ===================================================================== *)
(** * The requests of the client *)
(* ===================================================================== *)

Module ClientNotions.
Import Host HttpClient.

Section Requests.

Variable base64 : string -> string.

(** The headers with the anti-forgery token, when there is one. *)
Definition withToken (token : option string) (headers : gmap string string)
    : gmap string string :=
  match JS.truthyString token with
  | Some t => <["CSRF-Token" := t]> headers
  | None => headers
  end.

(** The request that fetches the anti-forgery token. *)
Definition tokenRequest (client : AemHttpClient) : IHttpRequestOptions :=
  mkRequestOptions "GET" (buildUrl client "/libs/granite/csrf/token.json")
    (getAuthHeaders base64 client) NoBody [] (defaultTimeoutMs client)
    (default false (insecureTls (credentials client))).

(** The request of [get]. *)
Definition getRequest (client : AemHttpClient) (url : string) (timeout : option Z)
    : IHttpRequestOptions :=
  mkRequestOptions "GET" (buildUrl client url) (getAuthHeaders base64 client) NoBody []
    (default (defaultTimeoutMs client) timeout)
    (default false (insecureTls (credentials client))).

(** The request of [postForm], with the token it carries. *)
Definition formRequest (client : AemHttpClient) (url : string)
    (formData : list (string * string)) (token : option string) : IHttpRequestOptions :=
  mkRequestOptions "POST" (buildUrl client url)
    (withToken token
       (<["Content-Type" := "application/x-www-form-urlencoded"]>
          (getAuthHeaders base64 client)))
    (FormBody formData) [] (defaultTimeoutMs client)
    (default false (insecureTls (credentials client))).

(** The request of [uploadFile], with the token it carries. *)
Definition uploadRequest (client : AemHttpClient) (url fileData fileName : string)
    (additionalFields : option (list (string * string))) (token : option string)
    : IHttpRequestOptions :=
  mkRequestOptions "POST" (buildUrl client url) (withToken token (getAuthHeaders base64 client))
    (MultipartBody fileData fileName "application/zip" (default [] additionalFields)) []
    (defaultTimeoutMs client) (default false (insecureTls (credentials client))).

End Requests.

(** The client once it has stored a token fetched at the time [fetched]. *)
Definition withCachedToken (client : AemHttpClient) (token : string) (fetched : Z)
    : AemHttpClient :=
  mkClient (credentials client) (retryConfig client) (defaultTimeoutMs client)
    (Some (mkCsrfTokenCache token (fetched + 5 * 60 * 1000))).

End ClientNotions.

(* ===================================================================== *)
(** * src/core/redaction.ts: [redactHeaders], [redactObject] *)
(* ===================================================================== *)

Module ObjectRedaction.
Import Host Redaction.

(** [redacted[key] = value] on the object literal [redacted], as the entry
    it adds: the key [__proto__] is the prototype accessor, and an
    assignment to it adds no property. *)
Definition assigned {A : Type} (key : string) (value : A) : option (string * A) :=
  if String.eqb key "__proto__" then None else Some (key, value).

(** The headers are the entries of the object, in the order of
    [Object.entries]. *)
Definition redactHeaders (headers : list (string * string)) : list (string * string) :=
  omap (fun entry : string * string =>
          let (key, value) := entry in
          if isSensitiveKey key then assigned key REDACTED else assigned key value)
       headers.

Fixpoint redactObject (obj : Json) (depth : Z) {struct obj} : Json :=
  if 10 <? depth then obj
  else
    match obj with
    | JNull => obj
    | JArray items => JArray (map (fun item => redactObject item (depth + 1)) items)
    | JObject fields =>
        JObject
          (omap (fun entry : string * Json =>
                   let (key, value) := entry in
                   if isSensitiveKey key then assigned key (JString REDACTED)
                   else
                     match value with
                     | JArray _ | JObject _ => assigned key (redactObject value (depth + 1))
                     | _ => assigned key value
                     end)
                fields)
    | _ => obj
    end.

(** ** Notions *)

(** The value is the placeholder. *)
Definition isRedacted (v : Json) : bool :=
  match v with
  | JString s => String.eqb s REDACTED
  | _ => false
  end.

(** Within [levels] levels of arrays and objects, some sensitive key of
    [v] holds something else than the placeholder. *)
Fixpoint exposes (levels : nat) (v : Json) : bool :=
  match levels with
  | O => false
  | S n =>
      match v with
      | JArray items => existsb (exposes n) items
      | JObject fields =>
          existsb (fun entry : string * Json =>
                     let (key, value) := entry in
                     if isSensitiveKey key then negb (isRedacted value) else exposes n value)
                  fields
      | _ => false
      end
  end.

(** The keys that [redactObject] acts on: the sensitive ones and
    [__proto__]. *)
Definition special (key : string) : bool :=
  isSensitiveKey key || String.eqb key "__proto__".

(** Some key of [v], at any depth, is special. *)
Fixpoint hasSpecialKey (v : Json) : bool :=
  match v with
  | JArray items => existsb hasSpecialKey items
  | JObject fields =>
      existsb (fun entry : string * Json =>
                 let (key, value) := entry in special key || hasSpecialKey value)
              fields
  | _ => false
  end.

(** [v] wrapped in one object per key of [keys], outermost first. *)
Fixpoint nest (keys : list string) (v : Json) : Json :=
  match keys with
  | [] => v
  | key :: rest => JObject [(key, nest rest v)]
  end.

End ObjectRedaction.

(* ===================================================================== *)
(** * The requests of the cache purge node *)
(* ===================================================================== *)

Module PurgeNotions.
Import Host.

(** An entry of the custom headers that the node keeps: name and value
    are both non-empty. *)
Definition keptHeader (entry : string * string) : bool :=
  negb (JS.isEmpty entry.1) && negb (JS.isEmpty entry.2).

(** What holds of a URL the node sends a request to: it passes the URL
    check and the allowlist, and the run is not a dry run. *)
Definition cleared (URL_parse : string -> option Validation.URL) (RegExp : Type)
    (RegExp_new : string -> option RegExp) (RegExp_test : RegExp -> string -> bool)
    (p : CachePurge.Parameters) (u : string) : Prop :=
  Validation.valid (Validation.validateUrl URL_parse u None) = true /\
  Validation.valid
    (Validation.validateUrlAgainstAllowlist URL_parse RegExp RegExp_new RegExp_test u
       (CachePurge.allowlistRegex p)) = true /\
  CachePurge.par_dryRun p = false.

End PurgeNotions.

(* ===================================================================== *)
(** * src/nodes/AemReplicate/AemReplicate.node.ts: [execute] *)
(* ===================================================================== *)

Module ReplicateNode.
Import Host.

(** The parameters of one input item, once resolved by the host: [paths]
    is the list read from the manual text or the array parameter;
    [batchSize], [throttleMs] and [failOnError] are the properties of the
    [options] collection, [None] when the option is not set. *)
Record Parameters : Type := mkParameters {
  credentialType : string;
  action : Replication.ReplicationAction;
  paths : list string;
  dryRun : bool;
  batchSize : option Z;
  throttleMs : option Z;
  failOnError : option bool;
}.

Inductive ItemResult : Type :=
| Pushed (output : Replication.ReplicationOutput) (error : option string)
| Raised (e : Thrown).

(** [new NodeOperationError(node, message, { description })] *)
Definition NodeOperationError (message : string) (description : option string) : Thrown :=
  mkThrown true message None None None description.

Section WithPlatform.

Variable env : Environment.
Variable JSON_stringify : Json -> string.
Variable base64 : string -> string.
Variable Date_parse : string -> option Z.
Variable String_replace : Redaction.RegExpLiteral -> string -> string -> string.
Variable URL_redact : (string -> bool) -> string -> string -> option string.

Definition performReplication :=
  Replication.performReplication HttpClient.AemHttpClient
    (HttpClient.postForm env JSON_stringify base64 Date_parse String_replace URL_redact).

(** The [try] block of [execute] for one input item; [credentials] is
    what [getCredentials] returns.  [None] is "out of fuel". *)
Definition tryItem (fuel : nat) (credentials : HttpClient.Aem65Credentials)
    (p : Parameters) (w : World)
    : option ((Thrown + Replication.ReplicationOutput) * World) :=
  if String.eqb (credentialType p) "aemCloud" then
    Some (inl (NodeOperationError
                 "AEM Cloud support is not yet implemented. Please use AEM 6.5 credentials."
                 (Some "AEM as a Cloud Service support is planned for a future release.")),
          w)
  else
    match paths p with
    | [] => Some (inl (NodeOperationError "At least one path is required" None), w)
    | _ =>
        let validation := Validation.validateAemPaths (paths p) in
        if negb (Validation.valid validation) then
          Some (inl (NodeOperationError
                       (default "Invalid paths provided"
                          (JS.truthyString (Types.message <$> Validation.error validation)))
                       None), w)
        else
          let client := HttpClient.createHttpClientWithCredentials credentials in
          match
            performReplication fuel client
              (Replication.mkReplicationOptions (paths p) (action p)
                 (JS.Present (batchSize p)) (JS.Present (throttleMs p))
                 (JS.Present (Some (dryRun p)))) w
          with
          | None => None
          | Some (result, _, w) =>
              if default false (failOnError p) && negb (Replication.out_ok result) then
                let failedPaths :=
                  JS.join "; "
                    (map (fun r => Replication.path r +:+ ": " +:+ Replication.message r)
                       (filter (fun r => Replication.ok r = false)
                          (Replication.results result))) in
                Some (inl (NodeOperationError
                             ("Replication failed for " +:+
                              JS.numberToString (Z.of_nat (Replication.failureCount result)) +:+
                              " path(s): " +:+ failedPaths)
                             None), w)
              else Some (inr result, w)
          end
    end.

(** The body of the loop of [execute] for one input item, with its
    [catch]. *)
Definition executeItem (fuel : nat) (continueOnFail : bool)
    (credentials : HttpClient.Aem65Credentials) (p : Parameters) (w : World)
    : option (ItemResult * World) :=
  match tryItem fuel credentials p w with
  | None => None
  | Some (inr output, w) => Some (Pushed output None, w)
  | Some (inl error, w) =>
      if continueOnFail then
        Some (Pushed (Replication.mkOutput false 0 0 0 (Some false) [] (now w))
                (Some (if isError error then Host.message error else "Unknown error")), w)
      else Some (Raised error, w)
  end.

End WithPlatform.

End ReplicateNode.

(* ===================================================================== *)
(** * src/adapters/aem65/healthCheck.ts *)
(* ===================================================================== *)

Module HealthCheck.
Import Host.

Record HealthCheckOutput : Type := mkOutput {
  ok : bool;
  statusCode : Z;
  latencyMs : Z;
  checkedUrl : string;
  timestamp : Z;
  notes : list string;
}.

Record HealthCheckOptions : Type := mkOptions {
  opt_healthEndpoint : JS.Optional string;
  opt_timeoutMs : JS.Optional Z;
}.

(** [AEM65_ENDPOINTS.health.system] and [AEM65_ENDPOINTS.health.ready] *)
Definition health_system : string := "/system/health".
Definition health_ready : string := "/libs/granite/core/content/login.html".

(** [statusCode >= 200 && statusCode < 400] *)
Definition respondsWell (statusCode : Z) : bool := (200 <=? statusCode) && (statusCode <? 400).

(** [options.healthEndpoint] is [None] when the property is left out or
    [undefined]. *)
Definition buildHealthCheckUrl (baseUrl : string) (healthEndpoint : option string) : string :=
  let endpoint := default health_system (JS.truthyString healthEndpoint) in
  if JS.startsWith endpoint "http://" || JS.startsWith endpoint "https://" then endpoint
  else
    let normalizedBase := Web.dropWhileEnd (Ascii.eqb "/") baseUrl in
    let normalizedEndpoint :=
      if JS.startsWith endpoint "/" then endpoint else "/" +:+ endpoint in
    normalizedBase +:+ normalizedEndpoint.

Section WithPlatform.

(** The text of an array or an object in a template literal. *)
Variable Object_toString : Json -> string.

(** The [TypeError]s raised by reading the named property of [null] or of
    [undefined], and by calling the named property that is not a
    function. *)
Variable nullPropertyError : string -> Thrown.
Variable undefinedPropertyError : string -> Thrown.
Variable notAFunctionError : string -> Thrown.

(** The text of a value in a template literal; [None] is [undefined]. *)
Definition templateText (v : option Json) : string :=
  match v with
  | None => "undefined"
  | Some JNull => "null"
  | Some (JBool b) => if b then "true" else "false"
  | Some (JNumber n) => JS.numberToString n
  | Some (JString s) => s
  | Some other => Object_toString other
  end.

(** Truthiness of a property that may be missing. *)
Definition truthyProperty (v : option Json) : bool :=
  match v with
  | Some value => HttpClient.truthy value
  | None => false
  end.

(** One iteration of the loop over [response.results]: the note, and
    whether the status of the result is ['OK']. *)
Definition resultNote (result : Json) : Thrown + (string * bool) :=
  match result with
  | JNull => inl (nullPropertyError "name")
  | _ =>
      let message := field "message" result in
      inr (templateText (field "name" result) +:+ ": " +:+
           templateText (field "status" result) +:+
           (if truthyProperty message then " - " +:+ templateText message else ""),
           match field "status" result with
           | Some (JString status) => String.eqb status "OK"
           | _ => false
           end)
  end.

Fixpoint checkResults (results : list Json) (notes : list string) (allOk : bool)
    : Thrown + (bool * list string) :=
  match results with
  | [] => inr (allOk, notes)
  | result :: rest =>
      match resultNote result with
      | inl e => inl e
      | inr (note, isOk) => checkResults rest (notes ++ [note]) (allOk && isOk)
      end
  end.

Definition parseHealthResponse (response : Json) (statusCode : Z)
    : Thrown + (bool * list string) :=
  match response with
  | JString markup =>
      if JS.includes markup "login" || JS.includes markup "Login" then
        inr (respondsWell statusCode, ["AEM is responding but may require authentication"])
      else if JS.includes markup "CRXDE" || JS.includes markup "crxde" then
        inr (true, ["CRXDE Lite is accessible"])
      else inr (respondsWell statusCode, ["Received HTML response"])
  | JNull => inl (nullPropertyError "status")
  | _ =>
      let status := field "status" response in
      if truthyProperty status then
        match status with
        | Some (JString s) =>
            let lower := Redaction.toLowerCase s in
            inr (String.eqb lower "ok" || String.eqb lower "green", ["System status: " +:+ s])
        | _ => inl (notAFunctionError "response.status.toLowerCase")
        end
      else
        match field "results" response with
        | Some (JArray results) => checkResults results [] true
        | _ => inr (respondsWell statusCode, [])
        end
  end.

Variable Client : Type.

(** [client.get(url, { timeout })] *)
Variable get :
  Client -> string -> option Z -> World ->
  (Thrown + HttpClient.HttpResponse) * Client * World.

Definition performHealthCheck (client : Client) (options : HealthCheckOptions) (w : World)
    : HealthCheckOutput * Client * World :=
  let healthEndpoint := JS.spread health_system (opt_healthEndpoint options) in
  let timeoutMs := JS.spread 10000 (opt_timeoutMs options) in
  let timestamp := now w in
  let endpoint := healthEndpoint in
  let '(attempt, client, w) :=
    match endpoint with
    | Some url => get client url timeoutMs w
    | None => (inl (undefinedPropertyError "startsWith"), client, w)
    end in
  let outcome :=
    match attempt with
    | inl e => inl e
    | inr response =>
        match
          parseHealthResponse (HttpClient.resp_body response)
            (HttpClient.resp_statusCode response)
        with
        | inl e => inl e
        | inr (ok, notes) =>
            inr (mkOutput ok (HttpClient.resp_statusCode response)
                   (HttpClient.resp_latencyMs response)
                   (buildHealthCheckUrl "" endpoint) timestamp notes)
        end
    end in
  match outcome with
  | inr output => (output, client, w)
  | inl error =>
      let errorMessage := if isError error then Host.message error else "Unknown error" in
      let statusCode :=
        match JS.truthyString (httpCode error) with
        | Some h => JS.parseInt h
        | None => JS.Int 0
        end in
      (mkOutput false
         match statusCode with JS.Int z => z | JS.NaN => 0 end
         0 (buildHealthCheckUrl "" endpoint) timestamp
         ["Health check failed: " +:+ errorMessage], client, w)
  end.

Definition performReadinessCheck (client : Client) (w : World) :=
  performHealthCheck client
    (mkOptions (JS.Present (Some health_ready)) (JS.Present (Some 5000))) w.

(** The loop of [performMultiEndpointHealthCheck] over the endpoints. *)
Fixpoint checkEndpoints (endpoints : list string) (client : Client)
    (results : list HealthCheckOutput) (totalLatency : Z) (w : World)
    : list HealthCheckOutput * Z * Client * World :=
  match endpoints with
  | [] => (results, totalLatency, client, w)
  | endpoint :: rest =>
      let '(result, client, w) :=
        performHealthCheck client (mkOptions (JS.Present (Some endpoint)) JS.Absent) w in
      checkEndpoints rest client (results ++ [result]) (totalLatency + latencyMs result) w
  end.

(** What the second loop pushes for one endpoint. *)
Definition endpointNotes (endpoint : string) (result : HealthCheckOutput) : list string :=
  ("[" +:+ endpoint +:+ "] " +:+ (if ok result then "OK" else "FAIL") +:+
   " (" +:+ JS.numberToString (latencyMs result) +:+ "ms)") ::
  map (fun n => "  - " +:+ n) (notes result).

Definition performMultiEndpointHealthCheck (client : Client) (endpoints : list string)
    (w : World) : HealthCheckOutput * Client * World :=
  let timestamp := now w in
  let '(results, totalLatency, client, w) := checkEndpoints endpoints client [] 0 w in
  let allOk := forallb ok results in
  let notes := concat (zip_with endpointNotes endpoints results) in
  (mkOutput allOk
     (if allOk then 200
      else
        match List.find (fun r => negb (ok r)) results with
        | Some r => if statusCode r =? 0 then 500 else statusCode r
        | None => 500
        end)
     totalLatency (JS.join ", " endpoints) timestamp notes, client, w).

End WithPlatform.

End HealthCheck.

(* ===================================================================== *)
(** * Further concrete runs *)
(* ===================================================================== *)

Module Cases.
Import Host.

(** A network that answers every call with 200 and a body that holds a
    token, after five milliseconds. *)
Definition tokenServer : Environment :=
  mkEnvironment
    (fun _ _ => (Responded (mkFullResponse 200 None (JObject [("token", JString "abc")])), 5))
    (fun _ => 0%Q).

(** A client with bearer credentials and the anti-forgery token enabled. *)
Definition csrfClient : HttpClient.AemHttpClient :=
  HttpClient.createHttpClientWithCredentials
    (HttpClient.mkCredentials "https://author.example.com/" HttpClient.bearer
       None None (Some "t") None (Some true)).

(** Three paths in dry run, in batches of two with a throttle. *)
Definition dryThrottled : Replication.ReplicationOptions :=
  Replication.mkReplicationOptions ["/content/a"; "/content/b"; "/content/c"]
    Replication.activate (JS.Present (Some 2)) (JS.Present (Some 250)) (JS.Present (Some true)).

(** An item of the replicate node with two paths and none of the options
    set. *)
Definition withoutOptions : ReplicateNode.Parameters :=
  ReplicateNode.mkParameters "aem65" Replication.activate ["/content/a"; "/content/b"]
    false None None None.

(** The replicate node and a health check on the platform fragment of
    [Scenario.postForm]. *)
Definition replicateItem (env : Environment) :=
  ReplicateNode.executeItem env (fun _ => "") (fun s => s) (fun _ => None)
    (fun _ s _ => s) (fun _ _ _ => None).

Definition healthCheck (env : Environment) :=
  HealthCheck.performHealthCheck (fun _ => "") Scenario.v8NullPropertyError
    Scenario.v8NullPropertyError Scenario.v8NullPropertyError HttpClient.AemHttpClient
    (HttpClient.get env (fun _ => "") (fun s => s) (fun _ => None)
       (fun _ s _ => s) (fun _ _ _ => None)).

End Cases.

(* ===================================================================== *)
(** * Properties of the retry engine *)
(* ===================================================================== *)

Module RetryProperties.
Import Retry.

Lemma shouldRetry_exhausted Date_parse now random error attempt config headers :
  maxRetries config <= attempt ->
  RetryDecision.shouldRetry
    (shouldRetry Date_parse now random error attempt config headers) = false.
Proof.
  intros Hle. unfold shouldRetry.
  destruct (Z.leb_spec (maxRetries config) attempt) as [_ | Hlt]; [reflexivity | lia].
Qed.

Lemma shouldRetry_before_exhaustion Date_parse now random error attempt config headers :
  attempt < maxRetries config ->
  RetryDecision.shouldRetry
    (shouldRetry Date_parse now random error attempt config headers) =
  bool_decide (is_Some (retryableStatus error config) \/ is_Some (retryableCode error config)).
Proof.
  intros Hlt. unfold shouldRetry.
  destruct (Z.leb_spec (maxRetries config) attempt) as [Hle | _]; [lia |].
  destruct (retryableStatus error config) as [sc |]; cbn [RetryDecision.shouldRetry].
  - symmetry. apply bool_decide_eq_true_2. left. eauto.
  - destruct (retryableCode error config) as [c |]; cbn [RetryDecision.shouldRetry].
    + symmetry. apply bool_decide_eq_true_2. right. eauto.
    + symmetry. apply bool_decide_eq_false_2. intros [[? ?] | [? ?]]; discriminate.
Qed.

(** C5 (as amended).  [shouldRetry] answers no-retry whenever
    [attempt >= maxRetries], whatever the error; while
    [attempt < maxRetries] it answers no-retry exactly when the error
    carries neither a retryable status code nor a retryable error code. *)
Theorem shouldRetry_no_retry Date_parse now random error attempt config headers :
  (maxRetries config <= attempt ->
     RetryDecision.shouldRetry
       (shouldRetry Date_parse now random error attempt config headers) = false) /\
  (attempt < maxRetries config ->
     (RetryDecision.shouldRetry
        (shouldRetry Date_parse now random error attempt config headers) = false <->
      retryableStatus error config = None /\ retryableCode error config = None)).
Proof.
  split.
  - apply shouldRetry_exhausted.
  - intros Hlt. rewrite (shouldRetry_before_exhaustion _ _ _ _ _ _ _ Hlt).
    rewrite bool_decide_eq_false. split.
    + intros Hno. split.
      * destruct (retryableStatus error config) eqn:E; [| reflexivity].
        exfalso. apply Hno. left. eauto.
      * destruct (retryableCode error config) eqn:E; [| reflexivity].
        exfalso. apply Hno. right. eauto.
    + intros [Hs Hc] [[x Hx] | [x Hx]]; congruence.
Qed.

(** C5, counterexample.  A 404 error at attempt 0 under the default
    configuration is not retried although [attempt < maxRetries]: the
    no-retry answer is not confined to exhaustion. *)
Lemma shouldRetry_no_retry_before_exhaustion :
  RetryDecision.shouldRetry
    (shouldRetry (fun _ => None) 0 0 Scenario.notFound 0 DEFAULT_RETRY_CONFIG None) = false /\
  ~ (maxRetries DEFAULT_RETRY_CONFIG <= 0).
Proof. split; [reflexivity | cbn; lia]. Qed.

Lemma Qmin_le_compat_l (x y z : Q) : (x <= y)%Q -> (Qmin x z <= Qmin y z)%Q.
Proof. intros H. apply Q.min_le_compat_r. exact H. Qed.

Lemma baseDelay_monotone (config : RetryConfig) (a b : Z) :
  (0 <= initialDelayMs config)%Q ->
  (1 <= backoffMultiplier config)%Q ->
  a <= b ->
  (initialDelayMs config * backoffMultiplier config ^ a <=
   initialDelayMs config * backoffMultiplier config ^ b)%Q.
Proof.
  intros Hinit Hmult Hab.
  rewrite !(Qmult_comm (initialDelayMs config)).
  apply Qmult_le_compat_r; [| exact Hinit].
  apply Qpower_le_compat_l; assumption.
Qed.




End RetryProperties.

(* ===================================================================== *)
(** * Properties of the validators *)
(* ===================================================================== *)

Module ValidationProperties.
Import Types Validation Notions.

Lemma isEmpty_true (s : string) : JS.isEmpty s = true <-> s = EmptyString.
Proof. destruct s; simpl; split; intros H; congruence. Qed.

Lemma isEmpty_false (s : string) : JS.isEmpty s = false <-> s <> EmptyString.
Proof. destruct s; simpl; split; intros H; congruence. Qed.

(** The guard on the pattern that opens the policy. *)
Lemma open_policy_guard (pattern : string) :
  JS.isEmpty pattern || JS.isEmpty (JS.trim pattern) = JS.isEmpty (JS.trim pattern).
Proof. destruct pattern; reflexivity. Qed.

Section WithPlatform.

Variable URL_parse : string -> option URL.
Variable RegExp : Type.
Variable RegExp_new : string -> option RegExp.
Variable RegExp_test : RegExp -> string -> bool.

Abbreviation validateUrl := (Validation.validateUrl URL_parse).
Abbreviation validateUrlAgainstAllowlist :=
  (Validation.validateUrlAgainstAllowlist URL_parse RegExp RegExp_new RegExp_test).

Lemma allowlist_blank_pattern (url pattern : string) :
  valid (validateUrl url None) = true ->
  JS.trim pattern = EmptyString ->
  validateUrlAgainstAllowlist url pattern = Valid.
Proof.
  intros Hurl Hblank. unfold Validation.validateUrlAgainstAllowlist.
  rewrite Hurl, open_policy_guard, Hblank. reflexivity.
Qed.

Lemma allowlist_bad_pattern (url pattern : string) :
  valid (validateUrl url None) = true ->
  JS.trim pattern <> EmptyString ->
  RegExp_new pattern = None ->
  valid (validateUrlAgainstAllowlist url pattern) = false /\
  errorCode (validateUrlAgainstAllowlist url pattern) = Some INVALID_URL.
Proof.
  intros Hurl Hpat Hnew. unfold Validation.validateUrlAgainstAllowlist.
  rewrite Hurl, open_policy_guard. apply isEmpty_false in Hpat. rewrite Hpat, Hnew.
  split; reflexivity.
Qed.

Lemma allowlist_compiled_pattern (url pattern : string) (regex : RegExp) :
  valid (validateUrl url None) = true ->
  JS.trim pattern <> EmptyString ->
  RegExp_new pattern = Some regex ->
  (RegExp_test regex url = true -> validateUrlAgainstAllowlist url pattern = Valid) /\
  (RegExp_test regex url = false ->
     valid (validateUrlAgainstAllowlist url pattern) = false /\
     errorCode (validateUrlAgainstAllowlist url pattern) = Some ALLOWLIST_VIOLATION).
Proof.
  intros Hurl Hpat Hnew. unfold Validation.validateUrlAgainstAllowlist.
  rewrite Hurl, open_policy_guard. apply isEmpty_false in Hpat. rewrite Hpat, Hnew.
  split; intros Htest; rewrite Htest; simpl; auto.
Qed.

End WithPlatform.

(** C3 (as amended).  For a URL the basic validator accepts:
    [validateUrlAgainstAllowlist] returns valid when the pattern is empty
    or only white space; when the pattern does not compile it returns
    invalid with [INVALID_URL]; otherwise it runs [RegExp.prototype.test],
    which looks for a match anywhere in the URL, and returns invalid with
    [ALLOWLIST_VIOLATION] exactly when there is none.  On the example of
    the specification the result is invalid with [ALLOWLIST_VIOLATION]. *)
Theorem validateUrlAgainstAllowlist_on_accepted_url
    (URL_parse : string -> option URL) (RegExp : Type)
    (RegExp_new : string -> option RegExp) (RegExp_test : RegExp -> string -> bool)
    (url pattern : string) :
  valid (Validation.validateUrl URL_parse url None) = true ->
  (JS.trim pattern = EmptyString ->
     Validation.validateUrlAgainstAllowlist URL_parse RegExp RegExp_new RegExp_test
       url pattern = Valid) /\
  (JS.trim pattern <> EmptyString -> RegExp_new pattern = None ->
     valid (Validation.validateUrlAgainstAllowlist URL_parse RegExp RegExp_new RegExp_test
              url pattern) = false /\
     errorCode (Validation.validateUrlAgainstAllowlist URL_parse RegExp RegExp_new RegExp_test
                  url pattern) = Some INVALID_URL) /\
  (JS.trim pattern <> EmptyString ->
   forall regex, RegExp_new pattern = Some regex ->
     (RegExp_test regex url = true ->
        Validation.validateUrlAgainstAllowlist URL_parse RegExp RegExp_new RegExp_test
          url pattern = Valid) /\
     (RegExp_test regex url = false ->
        valid (Validation.validateUrlAgainstAllowlist URL_parse RegExp RegExp_new RegExp_test
                 url pattern) = false /\
        errorCode (Validation.validateUrlAgainstAllowlist URL_parse RegExp RegExp_new
                     RegExp_test url pattern) = Some ALLOWLIST_VIOLATION)) /\
  (valid (Web.validateUrlAgainstAllowlist Scenario.evilUrl Scenario.goodPattern) = false /\
   errorCode (Web.validateUrlAgainstAllowlist Scenario.evilUrl Scenario.goodPattern) = Some ALLOWLIST_VIOLATION).
Proof.
  intros Hurl. repeat apply conj.
  - apply allowlist_blank_pattern. exact Hurl.
  - apply allowlist_bad_pattern. exact Hurl.
  - intros Hpat regex Hnew. apply allowlist_compiled_pattern; assumption.
  - vm_compute. reflexivity.
  - vm_compute. reflexivity.
Qed.

(** C3, witness: the example of the specification, through the theorem.
    The URL is accepted, the pattern compiles, the test finds no match. *)
Lemma validateUrlAgainstAllowlist_on_accepted_url_witness :
  valid (Web.validateUrl Scenario.evilUrl None) = true /\
  is_Some (Web.RegExp_new Scenario.goodPattern) /\
  valid (Web.validateUrlAgainstAllowlist Scenario.evilUrl Scenario.goodPattern) = false /\
  errorCode (Web.validateUrlAgainstAllowlist Scenario.evilUrl Scenario.goodPattern) = Some ALLOWLIST_VIOLATION.
Proof.
  assert (Hurl : valid (Web.validateUrl Scenario.evilUrl None) = true) by (vm_compute; reflexivity).
  split; [exact Hurl |].
  destruct (Web.RegExp_new Scenario.goodPattern) as [regex |] eqn:Hnew; [| vm_compute in Hnew; discriminate].
  split; [eauto |].
  destruct (validateUrlAgainstAllowlist_on_accepted_url
              Web.URL_parse Web.regex Web.RegExp_new Web.RegExp_test
              Scenario.evilUrl Scenario.goodPattern Hurl) as (_ & _ & Hcompiled & _).
  apply (Hcompiled ltac:(vm_compute; discriminate) regex Hnew).
  vm_compute in Hnew. injection Hnew as <-. vm_compute. reflexivity.
Defined.

(** C3, counterexample.  The unanchored pattern [good] compiles and does not
    match the whole of [https://evil.com/good], yet that URL, which the
    basic validator accepts, passes the allowlist: the test is a search,
    not a full-string match. *)
Lemma allowlist_is_not_a_full_match :
  valid (Web.validateUrl Scenario.lureUrl None) = true /\
  (exists regex, Web.parsePattern Scenario.loosePattern = Web.Ok regex /\
                 Web.fullMatch regex Scenario.lureUrl = false) /\
  Web.validateUrlAgainstAllowlist Scenario.lureUrl Scenario.loosePattern = Valid.
Proof.
  split; [vm_compute; reflexivity |]. split; [| vm_compute; reflexivity].
  eexists. split; [vm_compute; reflexivity | vm_compute; reflexivity].
Qed.

End ValidationProperties.

(* ===================================================================== *)
(** * Properties of the HTTP client *)
(* ===================================================================== *)

Module HttpClientProperties.
Import Host HttpClient.

Section WithPlatform.

Variable env : Environment.
Variable JSON_stringify : Json -> string.
Variable base64 : string -> string.
Variable Date_parse : string -> option Z.
Variable String_replace : Redaction.RegExpLiteral -> string -> string -> string.
Variable URL_redact : (string -> bool) -> string -> string -> option string.

Abbreviation getErrorDetails := (HttpClient.getErrorDetails String_replace URL_redact).
Abbreviation createError :=
  (HttpClient.createError JSON_stringify String_replace URL_redact).
Abbreviation executeRequest :=
  (HttpClient.executeRequest env JSON_stringify String_replace URL_redact).
Abbreviation send :=
  (HttpClient.send env JSON_stringify base64 Date_parse String_replace URL_redact).
Abbreviation request :=
  (HttpClient.request env JSON_stringify base64 Date_parse String_replace URL_redact).
Abbreviation classified := (Notions.classified JSON_stringify String_replace URL_redact).
Abbreviation thrownByNetwork := (Notions.thrownByNetwork env).

(** An attempt that receives a status of 400 or more throws the error
    built by [createError], tagged with the status. *)
Lemma executeRequest_error_status requestOptions startTime fullUrl w fullResponse elapsed :
  answer env (length (networkCalls w)) requestOptions = (Responded fullResponse, elapsed) ->
  400 <= res_statusCode fullResponse ->
  (executeRequest requestOptions startTime fullUrl w).1 =
  inl (setStatusCode
         (createError (res_statusCode fullResponse) fullUrl (res_body fullResponse))
         (res_statusCode fullResponse)).
Proof.
  intros Hanswer Hstatus. unfold HttpClient.executeRequest, httpRequest.
  rewrite Hanswer. cbn.
  destruct (Z.leb_spec 400 (res_statusCode fullResponse)) as [_ | Hlt]; [reflexivity | lia].
Qed.

(** An attempt returns a response only for a status below 400. *)
Lemma executeRequest_response_status requestOptions startTime fullUrl w response :
  (executeRequest requestOptions startTime fullUrl w).1 = inr response ->
  resp_statusCode response < 400.
Proof.
  unfold HttpClient.executeRequest, httpRequest.
  destruct (answer env (length (networkCalls w)) requestOptions) as [[fullResponse | e] elapsed];
    cbn; [| discriminate].
  destruct (Z.leb_spec 400 (res_statusCode fullResponse)) as [Hge | Hlt]; cbn; [discriminate |].
  intros [= <-]. exact Hlt.
Qed.

(** What the retry loop returns was returned by one of the attempts. *)
Lemma retryLoop_response {T : Type} (good : T -> Prop)
    (fn : World -> (Thrown + T) * World) (fullConfig : Retry.RetryConfig) :
  (forall w value, (fn w).1 = inr value -> good value) ->
  forall remaining attempt lastError w value,
    (retryLoop env Date_parse fn fullConfig remaining attempt lastError w).1 = inr value ->
    good value.
Proof.
  intros Hfn remaining.
  induction remaining as [| remaining IH]; intros attempt lastError w value; cbn.
  - discriminate.
  - destruct (fn w) as [[error | v] w1] eqn:Hrun; cbn.
    + destruct (negb _); cbn; [discriminate |]. apply IH.
    + intros [= <-]. apply (Hfn w). rewrite Hrun. reflexivity.
Qed.

Lemma dispatch_response_status (skipRetry : bool) requestOptions startTime fullUrl
    fullConfig w response :
  (if skipRetry then executeRequest requestOptions startTime fullUrl w
   else withRetry env Date_parse (executeRequest requestOptions startTime fullUrl)
          fullConfig w).1 = inr response ->
  resp_statusCode response < 400.
Proof.
  destruct skipRetry.
  - apply executeRequest_response_status.
  - unfold withRetry.
    apply (retryLoop_response (fun r => resp_statusCode r < 400)).
    intros w0 value. apply executeRequest_response_status.
Qed.

Lemma send_response_status client options startTime csrfToken w response :
  (send client options startTime csrfToken w).1 = inr response ->
  resp_statusCode response < 400.
Proof.
  unfold HttpClient.send.
  destruct (req_body options) as [b |]; [destruct (truthy b) |];
    destruct (req_formData options); cbv beta iota zeta;
    apply dispatch_response_status.
Qed.

Lemma request_response_status client options w response :
  (request client options w).1.1 = inr response -> resp_statusCode response < 400.
Proof.
  unfold HttpClient.request.
  destruct (if existsb _ _ then _ else _) as [[csrfToken client1] w1].
  destruct (HttpClient.send _ _ _ _ _ _ _ _ _ _ _) as [result w2] eqn:Hsend. cbn.
  intros ->. eapply send_response_status. rewrite Hsend. reflexivity.
Qed.

Lemma executeRequest_error requestOptions startTime fullUrl w e :
  (executeRequest requestOptions startTime fullUrl w).1 = inl e ->
  classified e \/ thrownByNetwork e.
Proof.
  unfold HttpClient.executeRequest, httpRequest.
  destruct (answer env (length (networkCalls w)) requestOptions)
    as [[fullResponse | thrown] elapsed] eqn:Hanswer; cbn.
  - destruct (Z.leb_spec 400 (res_statusCode fullResponse)) as [Hge | Hlt]; cbn;
      [| discriminate].
    intros [= <-]. left. do 3 eexists. split; [exact Hge | reflexivity].
  - intros [= <-]. right. do 3 eexists. exact Hanswer.
Qed.

(** What the retry loop throws was thrown by one of the attempts, unless
    no attempt was made at all. *)
Lemma retryLoop_error {T : Type} (bad : Thrown -> Prop)
    (fn : World -> (Thrown + T) * World) (fullConfig : Retry.RetryConfig) :
  (forall w e, (fn w).1 = inl e -> bad e) ->
  forall remaining attempt lastError w e,
    (forall e0, lastError = Some e0 -> bad e0) ->
    (retryLoop env Date_parse fn fullConfig remaining attempt lastError w).1 = inl e ->
    bad e \/ (remaining = O /\ lastError = None /\ e = thrownUndefined).
Proof.
  intros Hfn remaining.
  induction remaining as [| remaining IH]; intros attempt lastError w e Hlast; cbn.
  - intros [= <-]. destruct lastError as [e0 |]; cbn; [left; auto | right; auto].
  - destruct (fn w) as [[error | v] w1] eqn:Hrun; cbn; [| discriminate].
    assert (Hbad : bad error) by (apply (Hfn w); rewrite Hrun; reflexivity).
    destruct (negb _); cbn.
    + intros [= <-]. left. exact Hbad.
    + intros Hloop. apply IH in Hloop as [Hb | (_ & Hnone & _)];
        [left; exact Hb | discriminate | intros e0 [= <-]; exact Hbad].
Qed.

Lemma dispatch_error (skipRetry : bool) requestOptions startTime fullUrl fullConfig w e :
  (if skipRetry then executeRequest requestOptions startTime fullUrl w
   else withRetry env Date_parse (executeRequest requestOptions startTime fullUrl)
          fullConfig w).1 = inl e ->
  classified e \/ thrownByNetwork e \/
  (Retry.maxRetries fullConfig < 0 /\ e = thrownUndefined).
Proof.
  destruct skipRetry.
  - intros H. apply executeRequest_error in H. tauto.
  - unfold withRetry. intros H.
    apply (retryLoop_error (fun e => classified e \/ thrownByNetwork e)) in H
      as [Hbad | (Hzero & _ & ->)].
    + tauto.
    + right. right. split; [lia | reflexivity].
    + intros w0 e0. apply executeRequest_error.
    + discriminate.
Qed.

Lemma send_error client options startTime csrfToken w e :
  (send client options startTime csrfToken w).1 = inl e ->
  classified e \/ thrownByNetwork e \/
  (Retry.maxRetries (retryConfig client) < 0 /\ e = thrownUndefined).
Proof.
  unfold HttpClient.send.
  destruct (req_body options) as [b |]; [destruct (truthy b) |];
    destruct (req_formData options); cbv beta iota zeta;
    apply dispatch_error.
Qed.

Lemma retryConfig_getCsrfToken client w :
  retryConfig (HttpClient.getCsrfToken env JSON_stringify base64 Date_parse String_replace
                 URL_redact client w).1.2 = retryConfig client.
Proof.
  unfold HttpClient.getCsrfToken.
  destruct (negb _); [reflexivity |].
  destruct (cachedToken client w); [reflexivity |].
  destruct (HttpClient.send _ _ _ _ _ _ _ _ _ _ _) as [[thrown | response] w1];
    [reflexivity |].
  destruct (stringField "token" (resp_body response)); reflexivity.
Qed.

Lemma request_error client options w e :
  (request client options w).1.1 = inl e ->
  classified e \/ thrownByNetwork e \/
  (Retry.maxRetries (retryConfig client) < 0 /\ e = thrownUndefined).
Proof.
  unfold HttpClient.request.
  destruct (existsb _ _).
  - pose proof (retryConfig_getCsrfToken client w) as Hcfg.
    destruct (HttpClient.getCsrfToken _ _ _ _ _ _ _ _) as [[csrfToken client1] w1].
    cbn in Hcfg. rewrite <- Hcfg.
    destruct (HttpClient.send _ _ _ _ _ _ _ _ _ _ _) as [result w2] eqn:Hsend. cbn.
    intros ->. eapply send_error. rewrite Hsend. reflexivity.
  - destruct (HttpClient.send _ _ _ _ _ _ _ _ _ _ _) as [result w2] eqn:Hsend. cbn.
    intros ->. eapply send_error. rewrite Hsend. reflexivity.
Qed.

Lemma getErrorDetails_code (statusCode : Z) (url : string) (body : Json) :
  Types.code (getErrorDetails statusCode url body) =
  if statusCode =? 401 then Types.AUTHENTICATION_FAILED
  else if statusCode =? 403 then Types.FORBIDDEN
  else if statusCode =? 404 then Types.HEALTH_CHECK_FAILED
  else Types.CONNECTION_FAILED.
Proof.
  unfold HttpClient.getErrorDetails.
  repeat (match goal with |- context [if ?c then _ else _] => destruct c end;
          try reflexivity).
Qed.

End WithPlatform.


End HttpClientProperties.

(* ===================================================================== *)
(** * Lists, sets and the trace *)
(* ===================================================================== *)

Module Common.
Import Host.

(** The successes and the failures of a list of results partition it. *)
Lemma filter_partition_length {A : Type} (f : A -> bool) (l : list A) :
  (length (filter (fun x => f x = true) l) + length (filter (fun x => f x = false) l)
   = length l)%nat.
Proof.
  induction l as [| x l IH]; [reflexivity |].
  rewrite !filter_cons. destruct (f x) eqn:Hx.
  - rewrite decide_True by reflexivity. rewrite decide_False by discriminate.
    simpl. lia.
  - rewrite decide_False by discriminate. rewrite decide_True by reflexivity.
    simpl. lia.
Qed.

Lemma no_failure_iff {A : Type} (f : A -> bool) (l : list A) :
  length (filter (fun x => f x = false) l) = 0%nat <-> Forall (fun x => f x = true) l.
Proof.
  induction l as [| x l IH].
  - split; [constructor | reflexivity].
  - rewrite filter_cons. destruct (f x) eqn:Hx.
    + rewrite decide_False by discriminate. rewrite IH. split.
      * intros H. constructor; assumption.
      * intros H. inversion H; assumption.
    + rewrite decide_True by reflexivity. simpl. split; [discriminate |].
      intros H. inversion H; congruence.
Qed.

Lemma networkCalls_sleep (ms : Z) (w : World) : networkCalls (sleep ms w) = networkCalls w.
Proof.
  unfold networkCalls, sleep. cbn. rewrite omap_app. cbn. apply app_nil_r.
Qed.

Lemma networkCalls_httpRequest env options w :
  networkCalls (httpRequest env options w).2 = networkCalls w ++ [options].
Proof.
  unfold httpRequest.
  destruct (answer env (length (networkCalls w)) options) as [outcome elapsed]. cbn.
  unfold networkCalls at 1. cbn. rewrite omap_app. reflexivity.
Qed.

End Common.

(* ===================================================================== *)
(** * Properties of replication *)
(* ===================================================================== *)

Module ReplicationProperties.
Import Host Replication Notions.

Lemma dedupe_elem_of (paths : list string) :
  forall seen x, x ∈ dedupe seen paths <-> x ∈ paths /\ x ∉ seen.
Proof.
  induction paths as [| p rest IH]; intros seen x; simpl.
  - set_solver.
  - destruct (decide (p ∈ seen)) as [Hin | Hout].
    + rewrite IH, elem_of_cons. clear IH. split; [tauto |].
      intros [[-> | Hx] Hseen]; tauto.
    + rewrite !elem_of_cons, IH, not_elem_of_union, not_elem_of_singleton. clear IH.
      destruct (decide (x = p)) as [-> | Hne]; tauto.
Qed.

Lemma dedupe_NoDup (paths : list string) : forall seen, NoDup (dedupe seen paths).
Proof.
  induction paths as [| p rest IH]; intros seen; simpl.
  - constructor.
  - destruct (decide (p ∈ seen)); [apply IH |].
    constructor; [| apply IH]. rewrite dedupe_elem_of. set_solver.
Qed.

(** A list without repetition is its own deduplication. *)
Lemma dedupe_id (paths : list string) :
  forall seen, NoDup paths -> (forall x, x ∈ paths -> x ∉ seen) -> dedupe seen paths = paths.
Proof.
  induction paths as [| p rest IH]; intros seen Hnd Hfresh; simpl; [reflexivity |].
  inversion Hnd as [| ? ? Hp Hrest]; subst.
  rewrite decide_False by (apply Hfresh; set_solver).
  f_equal. apply IH; [assumption |]. intros x Hx. specialize (Hfresh x). set_solver.
Qed.

Lemma slice_within {A : Type} (l : list A) (i b : Z) :
  0 <= i -> 1 <= b -> i < Z.of_nat (length l) ->
  JS.slice l i (i + b) ++ drop (Z.to_nat (i + b)) l = drop (Z.to_nat i) l.
Proof.
  intros Hi Hb Hlt. unfold JS.slice.
  destruct (Z.ltb_spec i 0) as [? | _]; [lia |].
  destruct (Z.ltb_spec (i + b) 0) as [? | _]; [lia |].
  rewrite (Z.min_l i) by lia.
  destruct (Z.le_gt_cases (i + b) (Z.of_nat (length l))) as [Hle | Hgt].
  - rewrite Z.min_l by lia.
    replace (Z.to_nat (i + b)) with (Z.to_nat i + Z.to_nat (i + b - i))%nat by lia.
    rewrite <- drop_drop. apply take_drop.
  - rewrite Z.min_r by lia.
    rewrite (drop_ge l (Z.to_nat (i + b))) by lia.
    rewrite app_nil_r. apply take_ge. rewrite length_drop. lia.
Qed.

(** For a batch size of one or more the splitting loop ends within
    [length paths] iterations, and the batches together are the paths. *)
Lemma splitBatches_concat (paths : list string) (b : Z) :
  1 <= b ->
  forall fuel i,
    0 <= i ->
    (length paths - Z.to_nat i <= fuel)%nat ->
    exists batches,
      splitBatches fuel paths b i = Some batches /\
      concat batches = drop (Z.to_nat i) paths.
Proof.
  intros Hb fuel. induction fuel as [| fuel IH]; intros i Hi Hfuel.
  - exists []. simpl.
    destruct (Z.ltb_spec i (Z.of_nat (length paths))) as [Hlt | Hge]; [lia |].
    split; [reflexivity |]. simpl. symmetry. apply drop_ge. lia.
  - simpl. destruct (Z.ltb_spec i (Z.of_nat (length paths))) as [Hlt | Hge].
    + destruct (IH (i + b)) as (batches & Hsplit & Hconcat); [lia | lia |].
      rewrite Hsplit. eexists. split; [reflexivity |].
      simpl. rewrite Hconcat. apply slice_within; assumption.
    + exists []. split; [reflexivity |]. simpl. symmetry. apply drop_ge. lia.
Qed.

(** For a batch size below one the loop never ends on a non-empty list:
    no amount of fuel suffices. *)
Lemma splitBatches_diverges (paths : list string) (b : Z) :
  b <= 0 -> paths <> [] ->
  forall fuel i, i <= 0 -> splitBatches fuel paths b i = None.
Proof.
  intros Hb Hne fuel. induction fuel as [| fuel IH]; intros i Hi; simpl.
  - destruct (Z.ltb_spec i (Z.of_nat (length paths))) as [_ | Hge]; [reflexivity |].
    destruct paths; [congruence | simpl in Hge; lia].
  - destruct (Z.ltb_spec i (Z.of_nat (length paths))) as [_ | Hge].
    + rewrite IH by lia. reflexivity.
    + destruct paths; [congruence | simpl in Hge; lia].
Qed.

Section WithClient.

Variable Client : Type.
Variable postForm :
  Client -> string -> list (string * string) -> World ->
  (Thrown + HttpClient.HttpResponse) * Client * World.

Abbreviation replicateSinglePath := (Replication.replicateSinglePath Client postForm).
Abbreviation processBatch := (Replication.processBatch Client postForm).
Abbreviation processEachBatch := (Replication.processEachBatch Client postForm).
Abbreviation processBatches := (Replication.processBatches Client postForm).
Abbreviation performReplication := (Replication.performReplication Client postForm).

Lemma replicateSinglePath_path client p a d w :
  path (replicateSinglePath client p a d w).1.1 = p.
Proof.
  unfold Replication.replicateSinglePath.
  destruct (negb _); [reflexivity |].
  destruct (default false d); [reflexivity |].
  destruct (postForm _ _ _ _) as [[[e | response] c] w']; reflexivity.
Qed.

Lemma replicateSinglePath_not_skip client p a d w :
  ~ isSkip (replicateSinglePath client p a d w).1.1.
Proof.
  unfold Replication.replicateSinglePath, isSkip.
  destruct (Validation.validateAemPath p) as [v err] eqn:Hval. cbn.
  destruct v; cbn.
  - destruct (default false d); cbn.
    + destruct a; intros [_ H]; discriminate.
    + destruct (postForm _ _ _ _) as [[[e | response] c] w']; cbn; intros [H _]; discriminate.
  - unfold Validation.validateAemPath in Hval.
    repeat match type of Hval with
           | (if ?c then _ else _) = _ => destruct c
           end; try discriminate; injection Hval as <-; cbn; intros [_ H]; discriminate.
Qed.

(** Under dry run a path is settled without the client. *)
Lemma replicateSinglePath_dryRun client p a d w :
  default false d = true ->
  exists r, replicateSinglePath client p a d w = (r, client, w) /\ requested r = false.
Proof.
  intros Hd. unfold Replication.replicateSinglePath.
  destruct (negb _); [eexists; split; reflexivity |].
  rewrite Hd. eexists; split; reflexivity.
Qed.

(** A throwing client call becomes a failed result that carries the
    message of the error. *)
Lemma replicateSinglePath_catches client p a d w e client' w' :
  Validation.valid (Validation.validateAemPath p) = true ->
  default false d = false ->
  postForm client replication_action_endpoint
    [("cmd", mapActionToCmd a); ("path", p); ("_charset_", "utf-8")] w = (inl e, client', w') ->
  exists r,
    replicateSinglePath client p a d w = (r, client', w') /\
    path r = p /\ requested r = true /\ ok r = false /\
    message r = "Replication failed: " +:+ (if isError e then Host.message e else "Unknown error").
Proof.
  intros Hvalid Hd Hpost. unfold Replication.replicateSinglePath.
  rewrite Hvalid, Hd, Hpost. cbn. eexists. split; [reflexivity |]. repeat split.
Qed.

(** The inner loop appends one result per path of the batch, in order. *)
Lemma processBatch_results a d (batch : list string) :
  forall client processed results w results' processed' client' w',
    processBatch a d batch client processed results w = (results', processed', client', w') ->
    exists rs,
      results' = results ++ rs /\
      map path rs = batch /\
      processed' = list_to_set batch ∪ processed /\
      (NoDup batch -> (forall x, x ∈ batch -> x ∉ processed) ->
       Forall (fun r => ~ isSkip r) rs).
Proof.
  induction batch as [| p rest IH];
    intros client processed results w results' processed' client' w' Hrun; simpl in Hrun.
  - injection Hrun as <- <- <- <-. exists []. rewrite app_nil_r.
    repeat split; [set_solver | constructor].
  - destruct (decide (p ∈ processed)) as [Hin | Hout].
    + apply IH in Hrun as (rs & -> & Hpaths & -> & Hskip).
      exists (skipped p a w :: rs). rewrite <- app_assoc. repeat split.
      * simpl. rewrite Hpaths. reflexivity.
      * set_solver.
      * intros _ Hfresh. exfalso. apply (Hfresh p); [set_solver | assumption].
    + destruct (Replication.replicateSinglePath Client postForm client p a d w)
        as [[r c1] w1] eqn:Hone.
      apply IH in Hrun as (rs & -> & Hpaths & -> & Hskip).
      exists (r :: rs). rewrite <- app_assoc. repeat split.
      * simpl. rewrite Hpaths. f_equal.
        pose proof (replicateSinglePath_path client p a d w) as Hp.
        rewrite Hone in Hp. exact Hp.
      * set_solver.
      * intros Hnd Hfresh. inversion Hnd as [| ? ? Hp Hrest]; subst. constructor.
        -- pose proof (replicateSinglePath_not_skip client p a d w) as Hns.
           rewrite Hone in Hns. exact Hns.
        -- apply Hskip; [assumption |].
           intros x Hx. specialize (Hfresh x). set_solver.
Qed.

Lemma processEachBatch_results a t d (batches : list (list string)) :
  forall client processed results w results' processed' client' w',
    processEachBatch a t d batches client processed results w
      = (results', processed', client', w') ->
    exists rs,
      results' = results ++ rs /\
      map path rs = concat batches /\
      (NoDup (concat batches) -> (forall x, x ∈ concat batches -> x ∉ processed) ->
       Forall (fun r => ~ isSkip r) rs).
Proof.
  induction batches as [| batch rest IH];
    intros client processed results w results' processed' client' w' Hrun; simpl in Hrun.
  - injection Hrun as <- <- <- <-. exists []. rewrite app_nil_r.
    repeat split. constructor.
  - destruct (Replication.processBatch Client postForm a d batch client processed results w)
      as [[[results1 processed1] client1] w1] eqn:Hbatch.
    apply processBatch_results in Hbatch as (rs1 & -> & Hpaths1 & -> & Hskip1).
    apply IH in Hrun as (rs2 & -> & Hpaths2 & Hskip2).
    exists (rs1 ++ rs2). rewrite <- app_assoc. repeat split.
    + simpl. rewrite map_app, Hpaths1, Hpaths2. reflexivity.
    + simpl. intros Hnd Hfresh. apply NoDup_app in Hnd as (Hnd1 & Hdisj & Hnd2).
      apply Forall_app. split.
      * apply Hskip1; [assumption |]. intros x Hx. apply Hfresh. set_solver.
      * apply Hskip2; [assumption |]. intros x Hx.
        rewrite elem_of_union, elem_of_list_to_set. intros [Hin | Hin].
        -- exact (Hdisj x Hin Hx).
        -- apply (Hfresh x); [set_solver | assumption].
Qed.

Lemma dedupe_length (paths : list string) :
  forall seen, (length (dedupe seen paths) <= length paths)%nat.
Proof.
  induction paths as [| p rest IH]; intros seen; simpl; [lia |].
  destruct (decide (p ∈ seen)); simpl.
  - specialize (IH seen). lia.
  - specialize (IH ({[p]} ∪ seen)). lia.
Qed.

(** The summary of [performReplication]: the counts add up and [ok]
    means no failure. *)
Lemma performReplication_summary fuel client options w out client' w' :
  performReplication fuel client options w = Some (out, client', w') ->
  totalPaths out = (successCount out + failureCount out)%nat /\
  totalPaths out = length (results out) /\
  (out_ok out = true <-> failureCount out = 0%nat).
Proof.
  unfold Replication.performReplication.
  destruct (Replication.processBatches _ _ _ _ _ _ _ _ _ _ _) as [[[results c] w1] |];
    [| discriminate].
  intros [= <- <- <-]. cbn. repeat split.
  - symmetry. apply (Common.filter_partition_length ok).
  - intros H. apply Nat.eqb_eq. exact H.
  - intros H. apply Nat.eqb_eq. exact H.
Qed.

(** With a batch size of one or more, [length paths] iterations of the
    splitting loop are enough: the call returns, with one result per
    distinct path, in the order of first occurrence, none of them a skip. *)
Lemma performReplication_returns fuel client options w (b : Z) :
  JS.spread 10 (opt_batchSize options) = Some b ->
  1 <= b ->
  (length (opt_paths options) <= fuel)%nat ->
  exists out client' w',
    performReplication fuel client options w = Some (out, client', w') /\
    map path (results out) = dedupe ∅ (opt_paths options) /\
    Forall (fun r => ~ isSkip r) (results out).
Proof.
  intros Hb Hpos Hfuel.
  unfold Replication.performReplication, Replication.processBatches. rewrite Hb.
  destruct (splitBatches_concat (dedupe ∅ (opt_paths options)) b Hpos fuel 0)
    as (batches & -> & Hconcat); [lia | |].
  { pose proof (dedupe_length (opt_paths options) ∅). lia. }
  simpl in Hconcat.
  destruct (Replication.processEachBatch _ _ _ _ _ _ _ _ _ _)
    as [[[results processed] c] w1] eqn:Hrun.
  apply processEachBatch_results in Hrun as (rs & -> & Hpaths & Hskip).
  do 3 eexists. split; [reflexivity |]. cbn. rewrite Hconcat in *. split; [exact Hpaths |].
  apply Hskip; [apply dedupe_NoDup | set_solver].
Qed.

(** With an [undefined] batch size the only batch is empty: the call
    returns without having processed any path. *)
Lemma performReplication_undefined_batchSize fuel client options w :
  JS.spread 10 (opt_batchSize options) = None ->
  exists out,
    performReplication fuel client options w = Some (out, client, w) /\
    results out = [] /\ out_ok out = true /\ totalPaths out = 0%nat.
Proof.
  intros Hb. unfold Replication.performReplication, Replication.processBatches. rewrite Hb.
  destruct (dedupe ∅ (opt_paths options)); cbn; eexists; repeat split.
Qed.

(** With a batch size below one the call does not return. *)
Lemma performReplication_diverges fuel client options w (b : Z) :
  JS.spread 10 (opt_batchSize options) = Some b ->
  b <= 0 ->
  opt_paths options <> [] ->
  performReplication fuel client options w = None.
Proof.
  intros Hb Hneg Hne.
  unfold Replication.performReplication, Replication.processBatches. rewrite Hb.
  rewrite splitBatches_diverges; [reflexivity | assumption | | lia].
  destruct (opt_paths options) as [| p rest]; [congruence |]. simpl.
  rewrite decide_False by set_solver. discriminate.
Qed.

Lemma processBatch_dryRun a d (batch : list string) :
  default false d = true ->
  forall client processed results w,
    exists rs processed',
      processBatch a d batch client processed results w
        = (results ++ rs, processed', client, w) /\
      Forall (fun r => requested r = false) rs.
Proof.
  intros Hd. induction batch as [| p rest IH]; intros client processed results w; simpl.
  - exists [], processed. rewrite app_nil_r. split; [reflexivity | constructor].
  - destruct (decide (p ∈ processed)).
    + destruct (IH client processed (results ++ [skipped p a w]) w) as (rs & pr & -> & Hall).
      exists (skipped p a w :: rs), pr. rewrite <- app_assoc. split; [reflexivity |].
      constructor; [reflexivity | assumption].
    + destruct (replicateSinglePath_dryRun client p a d w Hd) as (r & -> & Hr).
      destruct (IH client ({[p]} ∪ processed) (results ++ [r]) w) as (rs & pr & -> & Hall).
      exists (r :: rs), pr. rewrite <- app_assoc. split; [reflexivity |].
      constructor; assumption.
Qed.

Lemma processEachBatch_dryRun a t d (batches : list (list string)) :
  default false d = true ->
  forall client processed results w,
    exists rs processed' w',
      processEachBatch a t d batches client processed results w
        = (results ++ rs, processed', client, w') /\
      Forall (fun r => requested r = false) rs /\
      networkCalls w' = networkCalls w.
Proof.
  intros Hd. induction batches as [| batch rest IH]; intros client processed results w; simpl.
  - exists [], processed, w. rewrite app_nil_r. repeat split. constructor.
  - destruct (processBatch_dryRun a d batch Hd client processed results w)
      as (rs1 & pr1 & -> & Hall1).
    match goal with
    | |- context [Replication.processEachBatch _ _ _ _ _ _ _ _ _ ?world] =>
        destruct (IH client pr1 (results ++ rs1) world) as (rs2 & pr2 & w2 & -> & Hall2 & Hcalls)
    end.
    exists (rs1 ++ rs2), pr2, w2. rewrite <- app_assoc. repeat split.
    + apply Forall_app; split; assumption.
    + rewrite Hcalls. destruct rest, t as [ms |]; try reflexivity.
      destruct (0 <? ms); [apply Common.networkCalls_sleep | reflexivity].
Qed.

(** Under dry run the client is returned as it was, no network call is
    added to the trace, and no result was requested. *)
Lemma performReplication_dryRun fuel client options w out client' w' :
  JS.spread false (opt_dryRun options) = Some true ->
  performReplication fuel client options w = Some (out, client', w') ->
  client' = client /\
  networkCalls w' = networkCalls w /\
  Forall (fun r => requested r = false) (results out).
Proof.
  intros Hd. unfold Replication.performReplication, Replication.processBatches.
  rewrite Hd.
  destruct (match JS.spread 10 (opt_batchSize options) with
            | Some b => _ | None => _ end) as [batches |]; [| discriminate].
  destruct (processEachBatch_dryRun (opt_action options)
              (JS.spread 100 (opt_throttleMs options)) (Some true) batches eq_refl
              client ∅ [] w) as (rs & pr & w2 & -> & Hall & Hcalls).
  intros [= <- <- <-]. cbn. repeat split; assumption.
Qed.

End WithClient.

Section TwoClients.

Variable Client : Type.
Variables postForm postForm' :
  Client -> string -> list (string * string) -> World ->
  (Thrown + HttpClient.HttpResponse) * Client * World.

Lemma replicateSinglePath_dryRun_any_client client p a d w :
  default false d = true ->
  Replication.replicateSinglePath Client postForm client p a d w =
  Replication.replicateSinglePath Client postForm' client p a d w.
Proof.
  intros Hd. unfold Replication.replicateSinglePath.
  destruct (negb _); [reflexivity |]. rewrite Hd. reflexivity.
Qed.

Lemma processBatch_dryRun_any_client a d (batch : list string) :
  default false d = true ->
  forall client processed results w,
    Replication.processBatch Client postForm a d batch client processed results w =
    Replication.processBatch Client postForm' a d batch client processed results w.
Proof.
  intros Hd. induction batch as [| p rest IH]; intros client processed results w; simpl.
  - reflexivity.
  - destruct (decide (p ∈ processed)); [apply IH |].
    rewrite (replicateSinglePath_dryRun_any_client client p a d w Hd).
    destruct (Replication.replicateSinglePath Client postForm' client p a d w) as [[r c] w1].
    apply IH.
Qed.

Lemma processEachBatch_dryRun_any_client a t d (batches : list (list string)) :
  default false d = true ->
  forall client processed results w,
    Replication.processEachBatch Client postForm a t d batches client processed results w =
    Replication.processEachBatch Client postForm' a t d batches client processed results w.
Proof.
  intros Hd. induction batches as [| batch rest IH]; intros client processed results w; simpl.
  - reflexivity.
  - rewrite (processBatch_dryRun_any_client a d batch Hd).
    destruct (Replication.processBatch Client postForm' a d batch client processed results w)
      as [[[results1 processed1] client1] w1].
    apply IH.
Qed.

(** Under dry run the outcome does not depend on what [postForm] does:
    it is never called. *)
Lemma performReplication_dryRun_any_client fuel client options w :
  JS.spread false (opt_dryRun options) = Some true ->
  Replication.performReplication Client postForm fuel client options w =
  Replication.performReplication Client postForm' fuel client options w.
Proof.
  intros Hd. unfold Replication.performReplication, Replication.processBatches.
  rewrite Hd.
  destruct (match JS.spread 10 (opt_batchSize options) with
            | Some b => _ | None => _ end) as [batches |]; [| reflexivity].
  rewrite (processEachBatch_dryRun_any_client (opt_action options)
             (JS.spread 100 (opt_throttleMs options)) (Some true) batches eq_refl).
  reflexivity.
Qed.

End TwoClients.

End ReplicationProperties.

(* ===================================================================== *)
(** * Properties of the cache purge *)
(* ===================================================================== *)

Module CachePurgeProperties.
Import Host CachePurge Notions.

Section WithPlatform.

Variable env : Environment.
Variable URL_parse : string -> option Validation.URL.
Variable RegExp : Type.
Variable RegExp_new : string -> option RegExp.
Variable RegExp_test : RegExp -> string -> bool.

Abbreviation validateUrl := (Validation.validateUrl URL_parse).
Abbreviation validateUrlAgainstAllowlist :=
  (Validation.validateUrlAgainstAllowlist URL_parse RegExp RegExp_new RegExp_test).
Abbreviation purgeUrl := (CachePurge.purgeUrl env URL_parse RegExp RegExp_new RegExp_test).
Abbreviation purgeUrls := (CachePurge.purgeUrls env URL_parse RegExp RegExp_new RegExp_test).
Abbreviation tryItem := (CachePurge.tryItem env URL_parse RegExp RegExp_new RegExp_test).
Abbreviation executeItem :=
  (CachePurge.executeItem env URL_parse RegExp RegExp_new RegExp_test).

Variable p : Parameters.
Variable headers : gmap string string.
Variable timeout : Z.
Variable timestamp : Z.

Abbreviation settled :=
  (Notions.settled env URL_parse RegExp RegExp_new RegExp_test p headers timeout timestamp).

Lemma purgeUrl_seen (u : string) (processed : gset string) (w : World) :
  u ∈ processed ->
  purgeUrl p headers timeout timestamp u processed w = (skipResult p timestamp u, processed, w).
Proof.
  intros Hin. unfold CachePurge.purgeUrl. rewrite decide_True by assumption. reflexivity.
Qed.

Lemma purgeUrl_fresh (u : string) (processed : gset string) (w : World) :
  u ∉ processed ->
  exists r w',
    purgeUrl p headers timeout timestamp u processed w = (r, {[u]} ∪ processed, w') /\
    settled u w r w'.
Proof.
  intros Hout.
  unfold CachePurge.purgeUrl, CachePurge.validateUrl, CachePurge.validateUrlAgainstAllowlist.
  rewrite decide_False by assumption.
  destruct (Validation.valid (validateUrl u None)) eqn:Hurl; cbn [negb].
  - destruct (Validation.valid (validateUrlAgainstAllowlist u (allowlistRegex p))) eqn:Hallow;
      cbn [negb].
    + destruct (par_dryRun p) eqn:Hdry.
      * do 2 eexists. split; [reflexivity |]. apply settled_simulated; assumption.
      * fold (purgeRequest p headers timeout u).
        destruct (httpRequest env (purgeRequest p headers timeout u) w) as [outcome w1] eqn:Hreq.
        destruct outcome as [response | error]; do 2 eexists; (split; [reflexivity |]).
        -- replace w1 with (httpRequest env (purgeRequest p headers timeout u) w).2
             by (rewrite Hreq; reflexivity).
           apply settled_attempted; try assumption; try reflexivity.
           rewrite Hreq. cbn. split; reflexivity.
        -- replace w1 with (httpRequest env (purgeRequest p headers timeout u) w).2
             by (rewrite Hreq; reflexivity).
           apply settled_attempted; try assumption; try reflexivity.
           rewrite Hreq. cbn. repeat split.
    + do 2 eexists. split; [reflexivity |]. apply settled_rejected; assumption.
  - do 2 eexists. split; [reflexivity |]. apply settled_invalid; assumption.
Qed.

Lemma settled_url u w r w' : settled u w r w' -> url r = u.
Proof. intros H; destruct H; auto. Qed.

(** A settled result is never the skip result. *)
Lemma settled_not_skip u w r w' : settled u w r w' -> r <> skipResult p timestamp u.
Proof.
  intros H; destruct H; unfold skipResult; try congruence.
  - destruct (par_method p); discriminate.
  - intros ->. discriminate.
Qed.

(** A network call is issued exactly for the results that were requested. *)
Lemma settled_calls u w r w' :
  settled u w r w' ->
  networkCalls w' =
  networkCalls w ++ (if requested r then [purgeRequest p headers timeout u] else []).
Proof.
  intros H; destruct H; cbn [requested]; try (symmetry; apply app_nil_r).
  rewrite Common.networkCalls_httpRequest.
  match goal with Hreq : requested _ = true |- _ => rewrite Hreq end. reflexivity.
Qed.

Lemma purgeUrl_url u processed w : url (purgeUrl p headers timeout timestamp u processed w).1.1 = u.
Proof.
  destruct (decide (u ∈ processed)) as [Hin | Hout].
  - rewrite purgeUrl_seen by assumption. reflexivity.
  - destruct (purgeUrl_fresh u processed w Hout) as (r & w' & -> & Hs).
    apply (settled_url _ _ _ _ Hs).
Qed.

Lemma purgeUrl_processed u processed w :
  (purgeUrl p headers timeout timestamp u processed w).1.2 = {[u]} ∪ processed.
Proof.
  destruct (decide (u ∈ processed)) as [Hin | Hout].
  - rewrite purgeUrl_seen by assumption. cbn. set_solver.
  - destruct (purgeUrl_fresh u processed w Hout) as (r & w' & -> & Hs). reflexivity.
Qed.

Lemma purgeUrl_calls u processed w :
  networkCalls (purgeUrl p headers timeout timestamp u processed w).2 =
  networkCalls w ++
  (if requested (purgeUrl p headers timeout timestamp u processed w).1.1
   then [purgeRequest p headers timeout u] else []).
Proof.
  destruct (decide (u ∈ processed)) as [Hin | Hout].
  - rewrite purgeUrl_seen by assumption. cbn. symmetry. apply app_nil_r.
  - destruct (purgeUrl_fresh u processed w Hout) as (r & w' & -> & Hs).
    apply (settled_calls _ _ _ _ Hs).
Qed.

Lemma purgeUrls_app (l1 l2 : list string) :
  forall results processed w,
    purgeUrls p headers timeout timestamp (l1 ++ l2) results processed w =
    let '(results1, processed1, w1) :=
      purgeUrls p headers timeout timestamp l1 results processed w in
    purgeUrls p headers timeout timestamp l2 results1 processed1 w1.
Proof.
  induction l1 as [| u rest IH]; intros results processed w; simpl; [reflexivity |].
  destruct (CachePurge.purgeUrl _ _ _ _ _ _ _ _ _ _ _ _) as [[r processed1] w1]. apply IH.
Qed.

(** The loop appends one result per URL, in order; it issues one network
    call per requested result, in order; and a URL seen before the loop
    gets the skip result. *)
Lemma purgeUrls_spec (urls : list string) :
  forall results processed w,
    exists out w',
      purgeUrls p headers timeout timestamp urls results processed w
        = (results ++ out, list_to_set urls ∪ processed, w') /\
      map url out = urls /\
      networkCalls w' =
        networkCalls w ++
        map (fun r => purgeRequest p headers timeout (url r))
            (filter (fun r => requested r = true) out) /\
      (forall r, r ∈ out -> url r ∈ processed -> r = skipResult p timestamp (url r)).
Proof.
  induction urls as [| u rest IH]; intros results processed w; simpl.
  - exists [], w. split; [| split; [| split]].
    + rewrite app_nil_r. f_equal. f_equal. set_solver.
    + reflexivity.
    + cbn. symmetry. apply app_nil_r.
    + intros r Hin. set_solver.
  - destruct (CachePurge.purgeUrl env URL_parse RegExp RegExp_new RegExp_test
                p headers timeout timestamp u processed w) as [[r processed1] w1] eqn:Hstep.
    pose proof (purgeUrl_url u processed w) as Hurl.
    pose proof (purgeUrl_processed u processed w) as Hproc.
    pose proof (purgeUrl_calls u processed w) as Hcalls.
    rewrite Hstep in Hurl, Hproc, Hcalls. cbn in Hurl, Hproc, Hcalls. subst processed1.
    destruct (IH (results ++ [r]) ({[u]} ∪ processed) w1)
      as (out & w' & -> & Hmap & Hnet & Hskip).
    exists (r :: out), w'. rewrite <- app_assoc. repeat split.
    + f_equal. f_equal. set_solver.
    + simpl. rewrite Hmap, Hurl. reflexivity.
    + rewrite Hnet, Hcalls, filter_cons, <- app_assoc. f_equal.
      destruct (requested r) eqn:Hreq.
      * rewrite decide_True by reflexivity. simpl. rewrite Hurl. reflexivity.
      * rewrite decide_False by discriminate. reflexivity.
    + intros r' Hin Hseen. apply elem_of_cons in Hin as [-> | Hin].
      * rewrite Hurl in Hseen |- *.
        rewrite (purgeUrl_seen u processed w Hseen) in Hstep. congruence.
      * apply Hskip; [assumption | set_solver].
Qed.

Lemma purgeUrls_length urls results processed w :
  length (purgeUrls p headers timeout timestamp urls results processed w).1.1 =
  (length results + length urls)%nat.
Proof.
  destruct (purgeUrls_spec urls results processed w) as (out & w' & -> & Hmap & _).
  cbn. rewrite length_app, <- Hmap, length_map. reflexivity.
Qed.

(** Under dry run the loop leaves the world as it was and requests
    nothing. *)
Lemma purgeUrls_dryRun (urls : list string) :
  par_dryRun p = true ->
  forall results processed w,
    exists out processed',
      purgeUrls p headers timeout timestamp urls results processed w
        = (results ++ out, processed', w) /\
      Forall (fun r => requested r = false) out.
Proof.
  intros Hdry. induction urls as [| u rest IH]; intros results processed w; simpl.
  - exists [], processed. rewrite app_nil_r. split; [reflexivity | constructor].
  - destruct (decide (u ∈ processed)) as [Hin | Hout].
    + rewrite purgeUrl_seen by assumption.
      destruct (IH (results ++ [skipResult p timestamp u]) processed w)
        as (out & processed' & -> & Hall).
      exists (skipResult p timestamp u :: out), processed'. rewrite <- app_assoc.
      split; [reflexivity |]. constructor; [reflexivity | assumption].
    + destruct (purgeUrl_fresh u processed w Hout) as (r & w1 & -> & Hs).
      assert (w1 = w /\ requested r = false) as [-> Hreq].
      { destruct Hs; try (split; reflexivity). congruence. }
      destruct (IH (results ++ [r]) ({[u]} ∪ processed) w) as (out & processed' & -> & Hall).
      exists (r :: out), processed'. rewrite <- app_assoc.
      split; [reflexivity |]. constructor; assumption.
Qed.

(** A URL that occurs twice: its first occurrence is settled, its second
    gets the skip result, at the positions of the two occurrences. *)
Lemma purgeUrls_twice (l1 l2 l3 : list string) (u : string) (w : World) :
  u ∉ l1 ->
  exists r1 first r2 r3 w1 w2 w',
    purgeUrls p headers timeout timestamp (l1 ++ u :: l2 ++ u :: l3) [] ∅ w
      = (r1 ++ first :: r2 ++ skipResult p timestamp u :: r3,
         list_to_set (l1 ++ u :: l2 ++ u :: l3), w') /\
    map url r1 = l1 /\ map url r2 = l2 /\ map url r3 = l3 /\
    settled u w1 first w2 /\
    (forall r, r ∈ r2 ++ r3 -> url r = u -> r = skipResult p timestamp u).
Proof.
  intros Hfresh.
  rewrite purgeUrls_app.
  destruct (purgeUrls_spec l1 [] ∅ w) as (r1 & w1 & -> & Hmap1 & _ & _). cbn [app].
  simpl CachePurge.purgeUrls at 1.
  destruct (purgeUrl_fresh u (list_to_set l1 ∪ ∅) w1) as (first & w2 & -> & Hs).
  { set_solver. }
  rewrite purgeUrls_app.
  destruct (purgeUrls_spec l2 (r1 ++ [first]) ({[u]} ∪ (list_to_set l1 ∪ ∅)) w2)
    as (r2 & w3 & -> & Hmap2 & _ & Hskip2).
  simpl CachePurge.purgeUrls at 1.
  rewrite purgeUrl_seen by set_solver.
  destruct (purgeUrls_spec l3 (((r1 ++ [first]) ++ r2) ++ [skipResult p timestamp u])
              (list_to_set l2 ∪ ({[u]} ∪ (list_to_set l1 ∪ ∅))) w3)
    as (r3 & w' & -> & Hmap3 & _ & Hskip3).
  exists r1, first, r2, r3, w1, w2, w'. repeat split; try assumption.
  - f_equal. f_equal.
    + rewrite <- !app_assoc. reflexivity.
    + rewrite !list_to_set_app_L. simpl. rewrite list_to_set_app_L. simpl. set_solver.
  - intros r Hin Hu. apply elem_of_app in Hin as [Hin | Hin].
    + rewrite <- Hu. apply Hskip2; [assumption | set_solver].
    + rewrite <- Hu. apply Hskip3; [assumption | set_solver].
Qed.

End WithPlatform.

Lemma summarize_consistent (dryRun : bool) (timestamp : Z) (results : list PurgeUrlResult) :
  consistent (summarize dryRun timestamp results).
Proof.
  unfold consistent, summarize. cbn. repeat split.
  - symmetry. apply (Common.filter_partition_length ok).
  - intros H. apply Nat.eqb_eq. exact H.
  - intros H. apply Nat.eqb_eq. exact H.
Qed.

Section Items.

Variable env : Environment.
Variable URL_parse : string -> option Validation.URL.
Variable RegExp : Type.
Variable RegExp_new : string -> option RegExp.
Variable RegExp_test : RegExp -> string -> bool.

Abbreviation purgeUrls := (CachePurge.purgeUrls env URL_parse RegExp RegExp_new RegExp_test).
Abbreviation tryItem := (CachePurge.tryItem env URL_parse RegExp RegExp_new RegExp_test).
Abbreviation executeItem :=
  (CachePurge.executeItem env URL_parse RegExp RegExp_new RegExp_test).
Abbreviation run := (Notions.run env URL_parse RegExp RegExp_new RegExp_test).

(** An output returned by the [try] block is the summary of the loop. *)
Lemma tryItem_output (p : Parameters) (w : World) output w' :
  tryItem p w = (inr output, w') ->
  urls p <> [] /\
  output = summarize (par_dryRun p) (now w) (run p w).1.1 /\
  w' = (run p w).2.
Proof.
  unfold CachePurge.tryItem, Notions.run, runHeaders, runTimeout.
  destruct (urls p) as [| u rest] eqn:Hurls; [discriminate |].
  destruct (CachePurge.purgeUrls _ _ _ _ _ _ _ _ _ _ _ _ _) as [[results processed] w1].
  destruct (_ && _); [discriminate |].
  intros [= <- <-]. repeat split. discriminate.
Qed.

(** Without [failOnError] the [try] block returns the summary. *)
Lemma tryItem_returns (p : Parameters) (w : World) :
  urls p <> [] ->
  default false (failOnError p) = false ->
  tryItem p w = (inr (summarize (par_dryRun p) (now w) (run p w).1.1), (run p w).2).
Proof.
  intros Hne Hfail. unfold CachePurge.tryItem, Notions.run, runHeaders, runTimeout.
  destruct (urls p) as [| u rest] eqn:Hurls; [congruence |].
  destruct (CachePurge.purgeUrls _ _ _ _ _ _ _ _ _ _ _ _ _) as [[results processed] w1].
  rewrite Hfail. reflexivity.
Qed.

Lemma tryItem_consistent (p : Parameters) (w : World) output w' :
  tryItem p w = (inr output, w') -> consistent output.
Proof.
  intros H. apply tryItem_output in H as (_ & -> & _). apply summarize_consistent.
Qed.

(** What [execute] pushes for an item: the summary of the loop, or, when
    an error was thrown and the host continues on failure, the substitute
    output of the handler. *)
Lemma executeItem_pushed (continueOnFail : bool) (p : Parameters) (w : World)
    output error w' :
  executeItem continueOnFail p w = (Pushed output error, w') ->
  (error = None /\ tryItem p w = (inr output, w')) \/
  (exists thrown,
     continueOnFail = true /\
     tryItem p w = (inl thrown, w') /\
     error = Some (if isError thrown then Host.message thrown else "Unknown error") /\
     output = CachePurge.mkOutput false 0 0 0 false [] (now w')).
Proof.
  unfold CachePurge.executeItem.
  destruct (CachePurge.tryItem _ _ _ _ _ _ _) as [[thrown | out] w1].
  - destruct continueOnFail; [| discriminate].
    intros [= <- <- <-]. right. exists thrown. repeat split.
  - intros [= <- <- <-]. left. split; reflexivity.
Qed.

End Items.

End CachePurgeProperties.

(* ===================================================================== *)
(** * Properties of the package adapter *)
(* ===================================================================== *)

Module PackageManagerProperties.
Import Host PackageManager Notions.

Lemma markupIndicatesSuccess_spec (markup : string) :
  markupIndicatesSuccess markup =
  hasSuccessKeyword markup ||
  negb (JS.includes markup "error" && JS.includes markup "Error").
Proof.
  unfold markupIndicatesSuccess, hasSuccessKeyword.
  rewrite negb_andb, !orb_assoc. reflexivity.
Qed.

Lemma isSuccessResponse_outside_2xx nullPropertyError (response : Json) (status : Z) :
  status < 200 \/ 300 <= status ->
  isSuccessResponse nullPropertyError response status = inr false.
Proof.
  intros Hout. unfold isSuccessResponse.
  destruct (Z.ltb_spec status 200), (Z.leb_spec 300 status); try reflexivity; lia.
Qed.

Lemma isSuccessResponse_markup nullPropertyError (markup : string) (status : Z) :
  200 <= status < 300 ->
  isSuccessResponse nullPropertyError (JString markup) status =
  inr (markupIndicatesSuccess markup).
Proof.
  intros Hin. unfold isSuccessResponse.
  destruct (Z.ltb_spec status 200), (Z.leb_spec 300 status); try reflexivity; lia.
Qed.

Section WithPlatform.

Variable JSON_parse : string -> option Json.
Variable String_match : Redaction.RegExpLiteral -> string -> option string.
Variable String_replace : Redaction.RegExpLiteral -> string -> string -> string.
Variable nullPropertyError : string -> Thrown.
Variable Client : Type.

(** Under dry run the package is not uploaded: the client and the world
    are returned as they were, whatever the client's methods do. *)
Lemma uploadPackage_dryRun uploadFile postForm client packageData options w :
  JS.spread false (opt_dryRun options) = Some true ->
  exists out,
    uploadPackage JSON_parse String_match String_replace nullPropertyError
      Client uploadFile postForm client packageData options w = (out, client, w) /\
    ok out = true /\ uploaded out = false /\ installed out = false /\
    packageId out = None /\ dryRun out = true /\ statusCode out = JS.Int 200.
Proof.
  intros Hd. unfold uploadPackage. rewrite Hd. cbn.
  eexists. split; [reflexivity |]. repeat split.
Qed.

Lemma uploadPackage_dryRun_any_client uploadFile postForm uploadFile' postForm'
    client packageData options w :
  JS.spread false (opt_dryRun options) = Some true ->
  uploadPackage JSON_parse String_match String_replace nullPropertyError
    Client uploadFile postForm client packageData options w =
  uploadPackage JSON_parse String_match String_replace nullPropertyError
    Client uploadFile' postForm' client packageData options w.
Proof.
  intros Hd. unfold uploadPackage. rewrite Hd. reflexivity.
Qed.

End WithPlatform.

End PackageManagerProperties.


(* ===================================================================== *)
(** * The batched operations and the package adapter: main results *)
(* ===================================================================== *)

Module Operations.
Import Host.




(** C10.  In the cache purge the duplicate check comes before validation.
    When a URL that fails the format check or the allowlist occurs twice,
    the result at its first occurrence is a failure ([ok] false, nothing
    requested, status 400 or 403) and the result at the later occurrence
    is the skip result ([ok] true, nothing requested, status 200), which is
    among the results counted by [successCount]. *)
Theorem duplicate_of_rejected_url_is_skipped
    (env : Environment) (URL_parse : string -> option Validation.URL) (RegExp : Type)
    (RegExp_new : string -> option RegExp) (RegExp_test : RegExp -> string -> bool)
    (p : CachePurge.Parameters) (w : World) (l1 l2 l3 : list string) (u : string)
    (output : CachePurge.CachePurgeOutput) (w' : World) :
  CachePurge.urls p = l1 ++ u :: l2 ++ u :: l3 ->
  u ∉ l1 ->
  Validation.valid (Validation.validateUrl URL_parse u None) = false \/
  Validation.valid
    (Validation.validateUrlAgainstAllowlist URL_parse RegExp RegExp_new RegExp_test
       u (CachePurge.allowlistRegex p)) = false ->
  CachePurge.tryItem env URL_parse RegExp RegExp_new RegExp_test p w = (inr output, w') ->
  exists r1 first r2 r3 skip,
    CachePurge.results output = r1 ++ first :: r2 ++ skip :: r3 /\
    length r1 = length l1 /\ length r2 = length l2 /\ length r3 = length l3 /\
    CachePurge.url first = u /\
    CachePurge.ok first = false /\ CachePurge.requested first = false /\
    (CachePurge.statusCode first = 400 \/ CachePurge.statusCode first = 403) /\
    CachePurge.url skip = u /\
    CachePurge.ok skip = true /\ CachePurge.requested skip = false /\
    CachePurge.statusCode skip = 200 /\
    CachePurge.message skip = "Skipped (duplicate URL in this batch)" /\
    skip ∈ filter (fun r => CachePurge.ok r = true) (CachePurge.results output) /\
    CachePurge.successCount output =
      length (filter (fun r => CachePurge.ok r = true) (CachePurge.results output)).
Proof.
  intros Hurls Hfresh Hbad Htry.
  apply CachePurgeProperties.tryItem_output in Htry as (_ & -> & _).
  unfold Notions.run. rewrite Hurls.
  destruct (CachePurgeProperties.purgeUrls_twice env URL_parse RegExp RegExp_new RegExp_test
              p (Notions.runHeaders p) (Notions.runTimeout p)
              (now w) l1 l2 l3 u w Hfresh)
    as (r1 & first & r2 & r3 & w1 & w2 & w3 & -> & Hm1 & Hm2 & Hm3 & Hsettled & _).
  exists r1, first, r2, r3,
    (Notions.skipResult p (now w) u).
  cbn [fst CachePurge.summarize CachePurge.results CachePurge.successCount].
  assert (Hfirst : CachePurge.ok first = false /\ CachePurge.requested first = false /\
                   (CachePurge.statusCode first = 400 \/ CachePurge.statusCode first = 403)).
  { destruct Hsettled as [Hu | Hu Ha | Hu Ha Hd | r Hu Ha Hd Hr1 Hr2 Hk];
      cbn; try (repeat split; auto; fail).
    - destruct Hbad as [Hbad | Hbad]; congruence.
    - destruct Hbad as [Hbad | Hbad]; congruence. }
  destruct Hfirst as (Hok & Hreq & Hstatus).
  rewrite <- Hm1, <- Hm2, <- Hm3, !length_map.
  repeat split; try assumption; try reflexivity.
  - apply (CachePurgeProperties.settled_url _ _ _ _ _ _ _ _ _ _ _ _ _ Hsettled).
  - apply list_elem_of_filter. split; [reflexivity |]. set_solver.
Qed.

(** C10, witness: a URL outside the allowlist, twice.  The first result is
    the 403 failure, the second the skip result; one success, one failure. *)
Lemma duplicate_of_rejected_url_is_skipped_witness :
  exists output w',
    Scenario.tryItem (Scenario.respond 200) Scenario.rejectedTwice Scenario.world
      = (inr output, w') /\
    map (fun r => (CachePurge.ok r, CachePurge.requested r, CachePurge.statusCode r))
        (CachePurge.results output) = [(false, false, 403); (true, false, 200)] /\
    CachePurge.successCount output = 1%nat /\ CachePurge.failureCount output = 1%nat.
Proof.
  destruct (Scenario.tryItem (Scenario.respond 200) Scenario.rejectedTwice Scenario.world)
    as [[thrown | output] w'] eqn:Hrun; [vm_compute in Hrun; discriminate |].
  exists output, w'. split; [reflexivity |].
  destruct (duplicate_of_rejected_url_is_skipped
              (Scenario.respond 200) Web.URL_parse Web.regex Web.RegExp_new Web.RegExp_test
              Scenario.rejectedTwice Scenario.world [] [] [] "https://evil.com/x" output w'
              eq_refl ltac:(set_solver) ltac:(right; vm_compute; reflexivity) Hrun)
    as (r1 & first & r2 & r3 & skip & Hresults & _).
  vm_compute in Hrun. injection Hrun as <- <-. repeat split.
Defined.

(** C1 (as amended).  The output of [performReplication], whenever it
    returns one (it does for every batch size of one or more), and the
    output of a cache-purge item that completes without an error satisfy
    [total = successCount + failureCount = results.length] and
    [ok <-> failureCount = 0].  The substitute output pushed when an error is
    tolerated (continue on fail) keeps the count equalities, with every
    count zero and no result, but its [ok] is false. *)
Theorem aggregate_output_is_consistent :
  (forall (Client : Type) postForm fuel (client : Client) options w out client' w',
     Replication.performReplication Client postForm fuel client options w
       = Some (out, client', w') ->
     Replication.totalPaths out
       = (Replication.successCount out + Replication.failureCount out)%nat /\
     Replication.totalPaths out = length (Replication.results out) /\
     (Replication.out_ok out = true <-> Replication.failureCount out = 0%nat)) /\
  (forall (Client : Type) postForm (client : Client) options w b,
     JS.spread 10 (Replication.opt_batchSize options) = Some b -> 1 <= b ->
     is_Some (Replication.performReplication Client postForm
                (length (Replication.opt_paths options)) client options w)) /\
  (forall env URL_parse RegExp RegExp_new RegExp_test continueOnFail p w output w',
     CachePurge.executeItem env URL_parse RegExp RegExp_new RegExp_test continueOnFail p w
       = (CachePurge.Pushed output None, w') ->
     Notions.consistent output) /\
  (forall env URL_parse RegExp RegExp_new RegExp_test continueOnFail p w output error w',
     CachePurge.executeItem env URL_parse RegExp RegExp_new RegExp_test continueOnFail p w
       = (CachePurge.Pushed output (Some error), w') ->
     CachePurge.out_ok output = false /\
     CachePurge.totalUrls output = 0%nat /\
     CachePurge.successCount output = 0%nat /\
     CachePurge.failureCount output = 0%nat /\
     CachePurge.results output = []).
Proof.
  repeat apply conj.
  - intros Client postForm fuel client options w out client' w'.
    apply ReplicationProperties.performReplication_summary.
  - intros Client postForm client options w b Hb Hpos.
    destruct (ReplicationProperties.performReplication_returns Client postForm
                (length (Replication.opt_paths options)) client options w b Hb Hpos)
      as (out & client' & w' & -> & _); [lia | eauto].
  - intros env URL_parse RegExp RegExp_new RegExp_test continueOnFail p w output w' Hrun.
    apply CachePurgeProperties.executeItem_pushed in Hrun
      as [[_ Htry] | (thrown & _ & _ & Herr & _)]; [| discriminate].
    apply (CachePurgeProperties.tryItem_consistent _ _ _ _ _ _ _ _ _ Htry).
  - intros env URL_parse RegExp RegExp_new RegExp_test continueOnFail p w output error w' Hrun.
    apply CachePurgeProperties.executeItem_pushed in Hrun
      as [[Herr _] | (thrown & _ & _ & _ & ->)]; [discriminate |].
    repeat split.
Qed.

(** C1, witness: the purge of the same URL twice, all calls answered 200. *)
Lemma aggregate_output_is_consistent_witness :
  exists output w',
    Scenario.executeItem (Scenario.respond 200) false Scenario.repeatedUrl Scenario.world
      = (CachePurge.Pushed output None, w') /\
    Notions.consistent output /\
    CachePurge.totalUrls output = 2%nat.
Proof.
  destruct (Scenario.executeItem (Scenario.respond 200) false Scenario.repeatedUrl
              Scenario.world) as [result w'] eqn:Hrun.
  destruct result as [output [error |] | thrown];
    try (vm_compute in Hrun; discriminate).
  exists output, w'. split; [reflexivity |]. split.
  - destruct aggregate_output_is_consistent as (_ & _ & Hpurge & _).
    apply (Hpurge _ _ _ _ _ _ _ _ _ _ Hrun).
  - vm_compute in Hrun. injection Hrun as <- <-. reflexivity.
Defined.

(** C1, counterexample.  A valid URL whose purge is answered 500, with
    "fail on error" set and the host continuing on failure: the output
    pushed for the item has [ok] false and a [failureCount] of zero. *)
Lemma tolerated_failure_output_is_not_consistent :
  (Scenario.executeItem (Scenario.respond 500) true Scenario.strictPurge Scenario.world).1 =
    CachePurge.Pushed (CachePurge.mkOutput false 0 0 0 false [] 1005)
      (Some ("Cache purge failed for 1 URL(s): " +:+
             "https://a.example.com/x: Purge failed with status 500")) /\
  ~ (CachePurge.out_ok (CachePurge.mkOutput false 0 0 0 false [] 1005) = true <->
     CachePurge.failureCount (CachePurge.mkOutput false 0 0 0 false [] 1005) = 0%nat).
Proof.
  split; [vm_compute; reflexivity |].
  cbn. intros [_ H]. specialize (H eq_refl). discriminate.
Qed.

Section DryPurge.

Variable env : Environment.
Variable URL_parse : string -> option Validation.URL.
Variable RegExp : Type.
Variable RegExp_new : string -> option RegExp.
Variable RegExp_test : RegExp -> string -> bool.

Lemma tryItem_dryRun (p : CachePurge.Parameters) (w : World) :
  CachePurge.par_dryRun p = true ->
  (CachePurge.tryItem env URL_parse RegExp RegExp_new RegExp_test p w).2 = w /\
  (forall output,
     (CachePurge.tryItem env URL_parse RegExp RegExp_new RegExp_test p w).1 = inr output ->
     Forall (fun r => CachePurge.requested r = false) (CachePurge.results output)).
Proof.
  intros Hdry. unfold CachePurge.tryItem.
  destruct (CachePurge.urls p) as [| u rest]; [split; [reflexivity | discriminate] |].
  destruct (CachePurgeProperties.purgeUrls_dryRun env URL_parse RegExp RegExp_new RegExp_test
              p (CachePurge.buildCustomHeaders (default [] (CachePurge.customHeaders p)) ∅)
              (default 5000 (JS.truthyNumber (CachePurge.timeoutMs p))) (now w)
              (u :: rest) Hdry [] ∅ w) as (out & processed' & -> & Hall).
  cbn [app]. destruct (_ && _); cbn; (split; [reflexivity |]); [discriminate |].
  intros output [= <-]. exact Hall.
Qed.

Lemma executeItem_dryRun (continueOnFail : bool) (p : CachePurge.Parameters) (w : World) :
  CachePurge.par_dryRun p = true ->
  (CachePurge.executeItem env URL_parse RegExp RegExp_new RegExp_test continueOnFail p w).2
    = w /\
  (forall output error,
     (CachePurge.executeItem env URL_parse RegExp RegExp_new RegExp_test continueOnFail p w).1
       = CachePurge.Pushed output error ->
     Forall (fun r => CachePurge.requested r = false) (CachePurge.results output)).
Proof.
  intros Hdry. unfold CachePurge.executeItem.
  destruct (tryItem_dryRun p w Hdry) as [Hworld Hall].
  destruct (CachePurge.tryItem env URL_parse RegExp RegExp_new RegExp_test p w)
    as [[thrown | output] w1]. all: cbn in Hworld; subst w1.
  - destruct continueOnFail; cbn; (split; [reflexivity |]); [| discriminate].
    intros output error [= <- _]. constructor.
  - cbn. split; [reflexivity |]. intros out error [= <- _]. apply Hall. reflexivity.
Qed.

End DryPurge.

(** C4.  With [dryRun] true: [performReplication] returns the client as
    it was, adds no network call to the trace, requests no result, and does
    not depend on what the client's [postForm] does; the cache purge leaves
    the world as it was and requests no result; [uploadPackage] returns the
    client and the world as they were, reports nothing uploaded or
    installed, and does not depend on what [uploadFile] and [postForm] do. *)
Theorem dry_run_issues_no_network_call :
  (forall (Client : Type) postForm fuel (client : Client) options w out client' w',
     JS.spread false (Replication.opt_dryRun options) = Some true ->
     Replication.performReplication Client postForm fuel client options w
       = Some (out, client', w') ->
     client' = client /\
     networkCalls w' = networkCalls w /\
     Forall (fun r => Replication.requested r = false) (Replication.results out)) /\
  (forall (Client : Type) postForm postForm' fuel (client : Client) options w,
     JS.spread false (Replication.opt_dryRun options) = Some true ->
     Replication.performReplication Client postForm fuel client options w =
     Replication.performReplication Client postForm' fuel client options w) /\
  (forall env URL_parse RegExp RegExp_new RegExp_test continueOnFail p w,
     CachePurge.par_dryRun p = true ->
     (CachePurge.executeItem env URL_parse RegExp RegExp_new RegExp_test continueOnFail p w).2
       = w /\
     (forall output error,
        (CachePurge.executeItem env URL_parse RegExp RegExp_new RegExp_test
           continueOnFail p w).1 = CachePurge.Pushed output error ->
        Forall (fun r => CachePurge.requested r = false) (CachePurge.results output))) /\
  (forall JSON_parse String_match String_replace nullPropertyError (Client : Type)
          uploadFile postForm uploadFile' postForm' (client : Client) packageData options w,
     JS.spread false (PackageManager.opt_dryRun options) = Some true ->
     (exists out,
        PackageManager.uploadPackage JSON_parse String_match String_replace nullPropertyError
          Client uploadFile postForm client packageData options w = (out, client, w) /\
        PackageManager.uploaded out = false /\ PackageManager.installed out = false /\
        PackageManager.dryRun out = true) /\
     PackageManager.uploadPackage JSON_parse String_match String_replace nullPropertyError
       Client uploadFile postForm client packageData options w =
     PackageManager.uploadPackage JSON_parse String_match String_replace nullPropertyError
       Client uploadFile' postForm' client packageData options w).
Proof.
  repeat apply conj.
  - intros Client postForm fuel client options w out client' w' Hdry Hrun.
    apply (ReplicationProperties.performReplication_dryRun _ _ _ _ _ _ _ _ _ Hdry Hrun).
  - intros Client postForm postForm' fuel client options w Hdry.
    apply ReplicationProperties.performReplication_dryRun_any_client. exact Hdry.
  - intros env URL_parse RegExp RegExp_new RegExp_test continueOnFail p w Hdry.
    apply executeItem_dryRun. exact Hdry.
  - intros JSON_parse String_match String_replace nullPropertyError Client
      uploadFile postForm uploadFile' postForm' client packageData options w Hdry.
    split.
    + destruct (PackageManagerProperties.uploadPackage_dryRun JSON_parse String_match
                  String_replace nullPropertyError Client uploadFile postForm client
                  packageData options w Hdry) as (out & Hrun & _ & Hup & Hinst & _ & Hd & _).
      exists out. repeat split; assumption.
    + apply PackageManagerProperties.uploadPackage_dryRun_any_client. exact Hdry.
Qed.

(** C4, witness: three paths replicated in dry run, in batches of two. *)
Lemma dry_run_issues_no_network_call_witness :
  exists out client' w',
    Replication.performReplication _ (Scenario.postForm (Scenario.respond 200)) 3
      Scenario.client Scenario.dryReplication Scenario.world = Some (out, client', w') /\
    networkCalls w' = [] /\
    map Replication.requested (Replication.results out) = [false; false; false].
Proof.
  destruct (Replication.performReplication _ (Scenario.postForm (Scenario.respond 200)) 3
              Scenario.client Scenario.dryReplication Scenario.world)
    as [[[out client'] w'] |] eqn:Hrun; [| vm_compute in Hrun; discriminate].
  exists out, client', w'. split; [reflexivity |].
  destruct dry_run_issues_no_network_call as (Hrepl & _).
  destruct (Hrepl _ _ _ _ Scenario.dryReplication _ _ _ _ eq_refl Hrun) as (_ & Hcalls & _).
  split; [exact Hcalls |].
  vm_compute in Hrun. injection Hrun as <- <- <-. reflexivity.
Defined.



Section RequestsOfResults.

Variable p : CachePurge.Parameters.
Variable headers : gmap string string.
Variable timeout : Z.

Abbreviation requestsOf := (Notions.requestsOf p headers timeout).

Lemma requestsOf_app (a b : list CachePurge.PurgeUrlResult) :
  requestsOf (a ++ b) = requestsOf a ++ requestsOf b.
Proof. unfold Notions.requestsOf. rewrite filter_app, map_app. reflexivity. Qed.

Lemma requestsOf_cons (r : CachePurge.PurgeUrlResult) (rs : list CachePurge.PurgeUrlResult) :
  requestsOf (r :: rs) =
  (if CachePurge.requested r
   then [Notions.purgeRequest p headers timeout (CachePurge.url r)] else [])
  ++ requestsOf rs.
Proof.
  unfold Notions.requestsOf. rewrite filter_cons. destruct (CachePurge.requested r).
  - rewrite decide_True by reflexivity. reflexivity.
  - rewrite decide_False by discriminate. reflexivity.
Qed.

(** No request goes to [u] from results that are for another URL or were
    not requested. *)
Lemma requestsOf_elsewhere (u : string) (rs : list CachePurge.PurgeUrlResult) :
  (forall r, r ∈ rs -> CachePurge.url r = u -> CachePurge.requested r = false) ->
  filter (fun c => url c = u) (requestsOf rs) = [].
Proof.
  induction rs as [| r rs IH]; intros Hrs; [reflexivity |].
  rewrite requestsOf_cons, filter_app, IH, app_nil_r by (intros r' Hin; apply Hrs; set_solver).
  destruct (CachePurge.requested r) eqn:Hreq; [| reflexivity].
  rewrite filter_cons. cbn [url Notions.purgeRequest].
  rewrite decide_False; [reflexivity |].
  intros Hu. specialize (Hrs r ltac:(set_solver) Hu). congruence.
Qed.

End RequestsOfResults.




End Operations.

(* ===================================================================== *)
(** * Further properties: path validation, attempts, batch sizes *)
(* ===================================================================== *)

Module Further.
Import Host.

(** A list of paths is accepted exactly when it is not empty and each of
    its paths is. *)
Lemma firstInvalidPath_valid (paths : list string) :
  Validation.valid (Validation.firstInvalidPath paths) = true <->
  Forall (fun p => Validation.valid (Validation.validateAemPath p) = true) paths.
Proof.
  induction paths as [| p rest IH]; simpl.
  - split; [constructor | reflexivity].
  - destruct (Validation.valid (Validation.validateAemPath p)) eqn:Hp.
    + rewrite IH. split.
      * intros H. constructor; assumption.
      * intros H. inversion H; assumption.
    + rewrite Hp. split; [discriminate |]. intros H. inversion H; congruence.
Qed.

(** X1.  The path validator rejects a path exactly when it is empty, does
    not start with a slash, contains two consecutive dots or contains a
    control character (code 0 to 31, or 127); every rejection carries the
    code INVALID_PATH.  A list of paths is accepted exactly when it is not
    empty and every path of it is accepted.  The examples of the
    specification: [/content/../etc/passwd] and the empty string are
    rejected, [/content/site/page] is accepted. *)
Theorem validateAemPath_rejections :
  (forall path,
     Validation.valid (Validation.validateAemPath path) = false <->
     path = "" \/ JS.startsWith path "/" = false \/ JS.includes path ".." = true \/
     Validation.existsChar Validation.isControlChar path = true) /\
  (forall path d,
     Validation.error (Validation.validateAemPath path) = Some d ->
     Types.code d = Types.INVALID_PATH /\ Types.path d = Some path) /\
  (forall paths,
     Validation.valid (Validation.validateAemPaths paths) = true <->
     paths <> [] /\
     Forall (fun p => Validation.valid (Validation.validateAemPath p) = true) paths) /\
  Validation.valid (Validation.validateAemPath "/content/../etc/passwd") = false /\
  Validation.valid (Validation.validateAemPath "") = false /\
  Validation.valid (Validation.validateAemPath "/content/site/page") = true.
Proof.
  split; [| split; [| split; [| repeat split]]].
  - intros path. unfold Validation.validateAemPath.
    destruct path as [| c rest]; [cbn; tauto |].
    change (JS.isEmpty (String c rest)) with false. cbv iota.
    destruct (JS.startsWith (String c rest) "/"); cbn [negb];
      [| cbn; split; [auto | reflexivity]].
    destruct (JS.includes (String c rest) ".."); [cbn; split; [auto | reflexivity] |].
    destruct (Validation.existsChar Validation.isControlChar (String c rest));
      [cbn; split; [auto | reflexivity] |].
    cbn. split; [discriminate |]. intros [H | [H | [H | H]]]; discriminate.
  - intros path d. unfold Validation.validateAemPath, Validation.invalidPath.
    repeat match goal with |- context [if ?b then _ else _] => destruct b end;
      cbn; intros [= <-]; split; reflexivity.
  - intros paths. destruct paths as [| p rest].
    + cbn. split; [discriminate | intros [H _]; congruence].
    + change (Validation.validateAemPaths (p :: rest))
        with (Validation.firstInvalidPath (p :: rest)).
      rewrite firstInvalidPath_valid. split; [intros H; split; [discriminate | exact H] |].
      intros [_ H]. exact H.
Qed.

Section Attempts.

Variable env : Environment.
Variable JSON_stringify : Json -> string.
Variable Date_parse : string -> option Z.
Variable String_replace : Redaction.RegExpLiteral -> string -> string -> string.
Variable URL_redact : (string -> bool) -> string -> string -> option string.
Variable requestOptions : IHttpRequestOptions.
Variable startTime : Z.
Variable fullUrl : string.

Abbreviation executeRequest :=
  (HttpClient.executeRequest env JSON_stringify String_replace URL_redact
     requestOptions startTime fullUrl).

Lemma executeRequest_calls w :
  networkCalls (executeRequest w).2 = networkCalls w ++ [requestOptions].
Proof.
  rewrite <- (Common.networkCalls_httpRequest env).
  unfold HttpClient.executeRequest.
  destruct (httpRequest env requestOptions w) as [[fullResponse | e] w1]; cbn; [| reflexivity].
  destruct (400 <=? res_statusCode fullResponse); reflexivity.
Qed.

Lemma networkCalls_random w : networkCalls (random env w).2 = networkCalls w.
Proof. reflexivity. Qed.

(** The loop issues the same request at most [remaining] times, and at
    least once when an iteration is left. *)
Lemma retryLoop_calls fullConfig remaining :
  forall attempt lastError w,
    exists calls,
      networkCalls
        (HttpClient.retryLoop env Date_parse executeRequest fullConfig remaining attempt
           lastError w).2 = networkCalls w ++ calls /\
      Forall (eq requestOptions) calls /\
      (length calls <= remaining)%nat /\
      (remaining <> O -> calls <> []).
Proof.
  induction remaining as [| remaining IH]; intros attempt lastError w.
  - exists []. cbn. rewrite app_nil_r.
    split; [reflexivity | split; [constructor | split; [lia | congruence]]].
  - cbn [HttpClient.retryLoop].
    pose proof (executeRequest_calls w) as Hcall.
    destruct (executeRequest w) as [[error | value] w1]; cbn in Hcall.
    + cbv beta iota zeta.
      destruct (random env w1) as [r drawn] eqn:Hr.
      assert (Hdrawn : networkCalls drawn = networkCalls w1)
        by (rewrite <- (networkCalls_random w1), Hr; reflexivity).
      destruct (negb _).
      * exists [requestOptions]. cbn.
        split; [exact Hcall | split; [repeat constructor | split; [lia | discriminate]]].
      * match goal with
        | |- context [HttpClient.retryLoop _ _ _ _ _ ?a ?e ?w2] =>
            destruct (IH a e w2) as (calls & Hcalls & Hall & Hlen & _);
            assert (Hw2 : networkCalls w2 = networkCalls w1)
        end.
        { rewrite Common.networkCalls_sleep. destruct (Retry.jitter fullConfig);
            [exact Hdrawn | reflexivity]. }
        exists (requestOptions :: calls). rewrite Hcalls, Hw2, Hcall, <- app_assoc.
        split; [reflexivity | split; [constructor; [reflexivity | exact Hall] |]].
        split; [cbn; lia | discriminate].
    + exists [requestOptions]. cbn.
      split; [exact Hcall | split; [repeat constructor | split; [lia | discriminate]]].
Qed.

(** X2.  [withRetry] around the request closure issues the request at
    most [maxRetries + 1] times, each time with the same options, and at
    least once when [maxRetries] is not negative; it issues no other
    network call. *)
Theorem withRetry_attempts_bound (fullConfig : Retry.RetryConfig) (w : World) :
  exists calls,
    networkCalls (HttpClient.withRetry env Date_parse executeRequest fullConfig w).2
      = networkCalls w ++ calls /\
    Forall (eq requestOptions) calls /\
    Z.of_nat (length calls) <= Z.max 0 (Retry.maxRetries fullConfig + 1) /\
    (0 <= Retry.maxRetries fullConfig -> calls <> []).
Proof.
  unfold HttpClient.withRetry.
  destruct (retryLoop_calls fullConfig (Z.to_nat (Retry.maxRetries fullConfig + 1)) 0 None w)
    as (calls & Hcalls & Hall & Hlen & Hne).
  exists calls. split; [exact Hcalls | split; [exact Hall | split; [lia |]]].
  intros Hpos. apply Hne. lia.
Qed.

End Attempts.

Section BatchSizes.

Variable Client : Type.
Variable postForm :
  Client -> string -> list (string * string) -> World ->
  (Thrown + HttpClient.HttpResponse) * Client * World.

(** X3.  When the [batchSize] property of the options is there and
    [undefined], which is what the replication node passes when the batch
    size is not set among its options, [performReplication] sends nothing
    and returns an output with no result, zero counts and [ok = true],
    whatever the paths. *)
Theorem unset_batchSize_processes_no_path fuel client options w :
  Replication.opt_batchSize options = JS.Present None ->
  exists out,
    Replication.performReplication Client postForm fuel client options w
      = Some (out, client, w) /\
    Replication.results out = [] /\
    Replication.out_ok out = true /\
    Replication.totalPaths out = 0%nat /\
    Replication.successCount out = 0%nat /\
    Replication.failureCount out = 0%nat.
Proof.
  intros Hb. unfold Replication.performReplication, Replication.processBatches.
  rewrite Hb. cbn [JS.spread].
  destruct (Replication.dedupe ∅ (Replication.opt_paths options)); cbn;
    eexists; repeat split.
Qed.

(** X4.  With a batch size of zero or less and at least one path, the
    loop that splits the paths into batches never ends: the call returns
    with no amount of fuel. *)
Theorem nonpositive_batchSize_never_returns fuel client options w (b : Z) :
  Replication.opt_batchSize options = JS.Present (Some b) ->
  b <= 0 ->
  Replication.opt_paths options <> [] ->
  Replication.performReplication Client postForm fuel client options w = None.
Proof.
  intros Hb Hneg Hne.
  apply (ReplicationProperties.performReplication_diverges Client postForm fuel client
           options w b); [| exact Hneg | exact Hne].
  rewrite Hb. reflexivity.
Qed.

End BatchSizes.

Lemma unset_batchSize_processes_no_path_witness :
  exists out,
    Replication.performReplication _ (Scenario.postForm (Scenario.respond 200)) 5
      Scenario.client Scenario.unsetBatchSize Scenario.world
      = Some (out, Scenario.client, Scenario.world) /\
    Replication.results out = [] /\
    Replication.out_ok out = true /\
    Replication.totalPaths out = 0%nat /\
    Replication.successCount out = 0%nat /\
    Replication.failureCount out = 0%nat.
Proof.
  apply (unset_batchSize_processes_no_path _ (Scenario.postForm (Scenario.respond 200)) 5
           Scenario.client Scenario.unsetBatchSize Scenario.world).
  reflexivity.
Defined.

Lemma nonpositive_batchSize_never_returns_witness :
  Replication.performReplication _ (Scenario.postForm (Scenario.respond 200)) 1000
    Scenario.client Scenario.zeroBatchSize Scenario.world = None.
Proof.
  apply (nonpositive_batchSize_never_returns _ (Scenario.postForm (Scenario.respond 200)) 1000
           Scenario.client Scenario.zeroBatchSize Scenario.world 0).
  - reflexivity.
  - lia.
  - discriminate.
Defined.

End Further.

(* ===================================================================== *)
(** * Strings, URL building and path helpers *)
(* ===================================================================== *)

Module StringFacts.

#[local] Arguments append !s1 s2 / : simpl nomatch.

Lemma append_nil_r (s : string) : s +:+ "" = s.
Proof. induction s as [| c s IH]; simpl; [reflexivity | now rewrite IH]. Qed.

Lemma append_assoc (a b c : string) : (a +:+ b) +:+ c = a +:+ (b +:+ c).
Proof. induction a as [| x a IH]; simpl; [reflexivity | now rewrite IH]. Qed.

Lemma length_append (a b : string) :
  String.length (a +:+ b) = (String.length a + String.length b)%nat.
Proof. induction a as [| x a IH]; simpl; [reflexivity | now rewrite IH]. Qed.

Lemma prefix_spec (p s : string) : String.prefix p s = true <-> exists t, s = p +:+ t.
Proof.
  revert s. induction p as [| c p IH]; intros s.
  - split; [intros _; exists s; reflexivity | intros _; destruct s; reflexivity].
  - destruct s as [| d s]; simpl; [split; [discriminate | intros [t H]; discriminate] |].
    destruct (ascii_dec c d) as [-> | Hne].
    + rewrite IH. split; intros [t H]; exists t; [now rewrite H | now injection H].
    + split; [discriminate | intros [t H]; injection H; congruence].
Qed.

Lemma prefix_cons (c d : ascii) (p s : string) :
  String.prefix (String c p) (String d s) = if ascii_dec c d then String.prefix p s else false.
Proof. reflexivity. Qed.

Lemma prefix_nil (s : string) : String.prefix "" s = true.
Proof. destruct s; reflexivity. Qed.

Lemma startsWith_spec (s p : string) : JS.startsWith s p = true <-> exists t, s = p +:+ t.
Proof. apply prefix_spec. Qed.

Lemma includes_nil (n : string) : JS.includes "" n = String.prefix n "".
Proof. unfold JS.includes. apply orb_false_r. Qed.

Lemma includes_cons (c : ascii) (s n : string) :
  JS.includes (String c s) n = String.prefix n (String c s) || JS.includes s n.
Proof. reflexivity. Qed.

Lemma includes_spec (s n : string) :
  JS.includes s n = true <-> exists a b, s = a +:+ n +:+ b.
Proof.
  induction s as [| c s IH]; [rewrite includes_nil | rewrite includes_cons].
  - rewrite prefix_spec. split.
    + intros [t H]. exists "", t. exact H.
    + intros (a & b & H). destruct a; [exists b; exact H | discriminate].
  - rewrite orb_true_iff, prefix_spec, IH. split.
    + intros [[t H] | (a & b & H)].
      * exists "", t. exact H.
      * exists (String c a), b. simpl. now rewrite H.
    + intros (a & b & H). destruct a as [| d a].
      * left. exists b. exact H.
      * right. simpl in H. injection H as _ H. exists a, b. exact H.
Qed.

Lemma substring_length_append (a t : string) :
  substring (String.length a) (String.length t) (a +:+ t) = t.
Proof.
  induction a as [| x a IH]; simpl; [| exact IH].
  induction t as [| y t IH]; simpl; [reflexivity | now rewrite IH].
Qed.

Lemma substring_split (s : string) :
  forall m, (m <= String.length s)%nat ->
    s = substring 0 m s +:+ substring m (String.length s - m) s.
Proof.
  induction s as [| c s IH]; intros m Hm; simpl in *.
  - destruct m; [reflexivity | lia].
  - destruct m as [| m]; simpl.
    + f_equal. clear. induction s as [| d s IH]; simpl; [reflexivity | now rewrite <- IH].
    + f_equal. apply IH. lia.
Qed.

Lemma endsWith_spec (s t : string) : JS.endsWith s t = true <-> exists a, s = a +:+ t.
Proof.
  unfold JS.endsWith. rewrite andb_true_iff, Nat.leb_le, String.eqb_eq. split.
  - intros [Hle H]. exists (substring 0 (String.length s - String.length t) s).
    pose proof (substring_split s (String.length s - String.length t)) as Hs.
    replace (String.length s - (String.length s - String.length t))%nat
      with (String.length t) in Hs by lia.
    rewrite H in Hs. apply Hs. lia.
  - intros [a ->]. rewrite length_append. split; [lia |].
    replace (String.length a + String.length t - String.length t)%nat
      with (String.length a) by lia.
    apply substring_length_append.
Qed.

Lemma endsWith_append (a t : string) : JS.endsWith (a +:+ t) t = true.
Proof. apply endsWith_spec. exists a. reflexivity. Qed.

End StringFacts.

Module UrlBuilding.
Import StringFacts.

#[local] Arguments append !s1 s2 / : simpl nomatch.

Section DropWhileEnd.

Variable p : ascii -> bool.

Lemma dropWhileEnd_cons (c : ascii) (r : string) :
  Web.dropWhileEnd p (String c r) =
  match Web.dropWhileEnd p r with
  | EmptyString => if p c then EmptyString else String c EmptyString
  | r' => String c r'
  end.
Proof. reflexivity. Qed.

Lemma dropWhileEnd_idempotent (s : string) :
  Web.dropWhileEnd p (Web.dropWhileEnd p s) = Web.dropWhileEnd p s.
Proof.
  induction s as [| c r IH]; [reflexivity |].
  rewrite dropWhileEnd_cons.
  destruct (Web.dropWhileEnd p r) as [| d r'] eqn:Hr.
  - destruct (p c) eqn:Hc; [reflexivity |]. simpl. now rewrite Hc.
  - rewrite dropWhileEnd_cons, IH. reflexivity.
Qed.

Lemma dropWhileEnd_last (s : string) :
  forall a c, Web.dropWhileEnd p s = a +:+ String c "" -> p c = false.
Proof.
  induction s as [| x r IH]; intros a c.
  - destruct a; discriminate.
  - rewrite dropWhileEnd_cons.
    destruct (Web.dropWhileEnd p r) as [| d r'] eqn:Hr.
    + destruct (p x) eqn:Hx; [destruct a; discriminate |].
      destruct a as [| y a]; simpl; [intros [= <-]; exact Hx |].
      intros [= _ H]. destruct a; discriminate.
    + destruct a as [| y a]; simpl; [discriminate |].
      intros [= _ H]. apply (IH a c). exact H.
Qed.

Lemma dropWhileEnd_suffix (s : string) :
  exists t, s = Web.dropWhileEnd p s +:+ t /\ Web.allChars p t = true.
Proof.
  induction s as [| x r (t & Ht & Hall)].
  - exists "". split; reflexivity.
  - rewrite dropWhileEnd_cons.
    destruct (Web.dropWhileEnd p r) as [| d r'] eqn:Hr.
    + simpl in Ht. subst t. destruct (p x) eqn:Hx.
      * exists (String x r). simpl. rewrite Hx, Hall. split; reflexivity.
      * exists r. split; [reflexivity | exact Hall].
    + exists t. simpl. split; [now rewrite Ht at 1 | exact Hall].
Qed.

Lemma dropWhileEnd_snoc (s : string) (c : ascii) :
  p c = true -> Web.dropWhileEnd p (s +:+ String c "") = Web.dropWhileEnd p s.
Proof.
  intros Hc. induction s as [| x r IH]; simpl.
  - now rewrite Hc.
  - now rewrite IH.
Qed.

Lemma dropWhileEnd_fixed (s : string) :
  (forall a c, s = a +:+ String c "" -> p c = false) -> Web.dropWhileEnd p s = s.
Proof.
  induction s as [| x r IH]; intros H; [reflexivity |].
  rewrite dropWhileEnd_cons. destruct r as [| y r].
  - simpl. rewrite (H "" x); reflexivity.
  - rewrite IH.
    + reflexivity.
    + intros a c Ha. apply (H (String x a) c). simpl. now rewrite Ha.
Qed.

End DropWhileEnd.

(** X5.  [normalizeBaseUrl] removes the slashes at the end of the base
    URL and nothing else: the base URL is the result followed by slashes
    only, the result does not end with a slash, a base URL that does not
    end with a slash is returned as it is, and normalising twice is
    normalising once. *)
Theorem normalizeBaseUrl_strips_trailing_slashes (baseUrl : string) :
  (exists slashes,
     baseUrl = HttpClient.normalizeBaseUrl baseUrl +:+ slashes /\
     Web.allChars (Ascii.eqb "/") slashes = true) /\
  JS.endsWith (HttpClient.normalizeBaseUrl baseUrl) "/" = false /\
  (JS.endsWith baseUrl "/" = false -> HttpClient.normalizeBaseUrl baseUrl = baseUrl) /\
  HttpClient.normalizeBaseUrl (HttpClient.normalizeBaseUrl baseUrl)
    = HttpClient.normalizeBaseUrl baseUrl.
Proof.
  unfold HttpClient.normalizeBaseUrl. split; [apply dropWhileEnd_suffix |].
  split; [| split; [| apply dropWhileEnd_idempotent]].
  - destruct (JS.endsWith _ "/") eqn:He; [| reflexivity].
    apply endsWith_spec in He as [a Ha].
    apply dropWhileEnd_last in Ha. discriminate.
  - intros He. apply dropWhileEnd_fixed. intros a c ->.
    destruct (Ascii.eqb_spec "/" c) as [<- | Hne]; [| reflexivity].
    rewrite endsWith_append in He. discriminate.
Qed.

(** X6.  [buildUrl] returns a URL that starts with [http://] or
    [https://] as it is.  For any other argument, the slashes at the end of
    the base URL make no difference to the URL built, and neither does a
    missing slash at the start of the path. *)
Theorem buildUrl_is_insensitive_to_slashes
    (base path : string) (authMethod : HttpClient.AuthMethod)
    (username password bearerToken : option string) (insecureTls csrfEnabled : option bool)
    (retryConfig : Retry.RetryConfig) (defaultTimeoutMs : Z)
    (csrfCache : option HttpClient.CsrfTokenCache) :
  let client b :=
    HttpClient.mkClient
      (HttpClient.mkCredentials b authMethod username password bearerToken insecureTls
         csrfEnabled)
      retryConfig defaultTimeoutMs csrfCache in
  (JS.startsWith path "http://" || JS.startsWith path "https://" = true ->
   HttpClient.buildUrl (client base) path = path) /\
  HttpClient.buildUrl (client (base +:+ "/")) path = HttpClient.buildUrl (client base) path /\
  (JS.startsWith path "http://" || JS.startsWith path "https://" = false ->
   JS.startsWith path "/" = false ->
   HttpClient.buildUrl (client base) ("/" +:+ path) = HttpClient.buildUrl (client base) path).
Proof.
  intros client. unfold HttpClient.buildUrl, client. cbn [HttpClient.credentials HttpClient.baseUrl].
  split; [| split].
  - intros ->. reflexivity.
  - unfold HttpClient.normalizeBaseUrl. rewrite dropWhileEnd_snoc by reflexivity. reflexivity.
  - intros Habs Hrel. rewrite Habs, Hrel.
    change (JS.startsWith ("/" +:+ path) "http://") with false.
    change (JS.startsWith ("/" +:+ path) "https://") with false.
    assert (Hslash : JS.startsWith ("/" +:+ path) "/" = true)
      by (apply startsWith_spec; exists path; reflexivity).
    rewrite Hslash. reflexivity.
Qed.

End UrlBuilding.

Module PathHelperProperties.
Import StringFacts PathHelpers.

#[local] Arguments append !s1 s2 / : simpl nomatch.

Lemma startsWith_slash_cons (d : ascii) (r : string) :
  JS.startsWith (String d r) "/" = Ascii.eqb d "/".
Proof.
  unfold JS.startsWith. rewrite prefix_cons, prefix_nil.
  destruct (ascii_dec "/" d) as [<- | Hne]; [reflexivity |].
  symmetry. apply Ascii.eqb_neq. congruence.
Qed.

Lemma collapseSlashes_cons (c d : ascii) (r : string) :
  collapseSlashes (String c (String d r)) =
  if Ascii.eqb c "/" then
    if Ascii.eqb d "/" then collapseSlashes (String d r)
    else String "/" (collapseSlashes (String d r))
  else String c (collapseSlashes (String d r)).
Proof.
  destruct (Ascii.eqb_spec d "/") as [-> | Hne]; [reflexivity |].
  cbn [collapseSlashes]. destruct (Ascii.eqb c "/"); [| reflexivity].
  destruct d as [[] [] [] [] [] [] [] []]; try reflexivity. congruence.
Qed.

Lemma collapseSlashes_startsWith (s : string) :
  JS.startsWith (collapseSlashes s) "/" = JS.startsWith s "/".
Proof.
  induction s as [| c r IH]; [reflexivity |].
  destruct r as [| d r].
  - cbn [collapseSlashes]. rewrite (startsWith_slash_cons c).
    destruct (Ascii.eqb_spec c "/") as [-> | Hne]; [reflexivity |].
    rewrite startsWith_slash_cons. apply Ascii.eqb_neq. exact Hne.
  - rewrite collapseSlashes_cons, (startsWith_slash_cons c).
    destruct (Ascii.eqb_spec c "/") as [-> | Hne].
    + destruct (Ascii.eqb_spec d "/") as [-> | Hd]; [| apply startsWith_slash_cons].
      rewrite IH. apply startsWith_slash_cons.
    + rewrite startsWith_slash_cons. apply Ascii.eqb_neq. exact Hne.
Qed.

Lemma includes_double_slash_cons (c : ascii) (r : string) :
  JS.includes (String c r) "//" =
  (Ascii.eqb c "/" && JS.startsWith r "/") || JS.includes r "//".
Proof.
  rewrite includes_cons. f_equal. rewrite prefix_cons.
  destruct (ascii_dec "/" c) as [<- | Hne].
  - destruct r as [| d r]; [reflexivity |]. rewrite startsWith_slash_cons, prefix_cons, prefix_nil.
    destruct (ascii_dec "/" d) as [<- | Hd]; [reflexivity |].
    symmetry. apply Ascii.eqb_neq. congruence.
  - replace (Ascii.eqb c "/") with false; [reflexivity |].
    symmetry. apply Ascii.eqb_neq. congruence.
Qed.

Lemma collapseSlashes_no_run (s : string) : JS.includes (collapseSlashes s) "//" = false.
Proof.
  induction s as [| c r IH]; [reflexivity |].
  destruct r as [| d r].
  - cbn [collapseSlashes]. destruct (Ascii.eqb c "/") eqn:Hc.
    + reflexivity.
    + rewrite includes_double_slash_cons, Hc. reflexivity.
  - rewrite collapseSlashes_cons.
    destruct (Ascii.eqb c "/") eqn:Hc.
    + destruct (Ascii.eqb d "/") eqn:Hd; [exact IH |].
      rewrite includes_double_slash_cons, IH, collapseSlashes_startsWith,
        startsWith_slash_cons, Hd. reflexivity.
    + rewrite includes_double_slash_cons, IH, Hc. reflexivity.
Qed.

Lemma collapseSlashes_fixed (s : string) :
  JS.includes s "//" = false -> collapseSlashes s = s.
Proof.
  induction s as [| c r IH]; [reflexivity |].
  rewrite includes_double_slash_cons. intros H.
  apply orb_false_iff in H as [Hhead Hrest].
  destruct r as [| d r].
  - cbn [collapseSlashes]. destruct (Ascii.eqb_spec c "/") as [-> | Hne]; reflexivity.
  - rewrite collapseSlashes_cons, (IH Hrest). rewrite startsWith_slash_cons in Hhead.
    destruct (Ascii.eqb_spec c "/") as [-> | Hne]; [| reflexivity].
    simpl in Hhead. rewrite Hhead. reflexivity.
Qed.

Lemma includes_prefix_false (a t n : string) :
  JS.includes (a +:+ t) n = false -> JS.includes a n = false.
Proof.
  intros H. destruct (JS.includes a n) eqn:Ha; [| reflexivity].
  apply includes_spec in Ha as (x & y & ->).
  assert (JS.includes ((x +:+ n +:+ y) +:+ t) n = true); [| congruence].
  apply includes_spec. exists x, (y +:+ t). now rewrite !append_assoc.
Qed.

(** X7.  [sanitizePath] returns a path that starts with a slash, contains
    no two slashes in a row and, unless it is the root path, does not end
    with a slash; a path of that shape is returned as it is, so that
    sanitising twice is sanitising once. *)
Theorem sanitizePath_normal_form (path : string) :
  JS.startsWith (sanitizePath path) "/" = true /\
  JS.includes (sanitizePath path) "//" = false /\
  (sanitizePath path = "/" \/ JS.endsWith (sanitizePath path) "/" = false) /\
  sanitizePath (sanitizePath path) = sanitizePath path.
Proof.
  assert (Hshape : forall s r,
    JS.startsWith s "/" = true -> JS.includes s "//" = false ->
    r = (if (1 <? String.length s)%nat then Web.dropWhileEnd (Ascii.eqb "/") s else s) ->
    JS.startsWith r "/" = true /\ JS.includes r "//" = false /\
    (r = "/" \/ JS.endsWith r "/" = false) /\
    (if (1 <? String.length r)%nat then Web.dropWhileEnd (Ascii.eqb "/") r else r) = r).
  { intros s r Hstart Hrun Hdef.
    destruct s as [| c s]; [discriminate |].
    rewrite startsWith_slash_cons in Hstart. apply Ascii.eqb_eq in Hstart as ->.
    destruct s as [| d s].
    - subst r. cbn. repeat split; auto.
    - assert (Hd : Ascii.eqb "/" d = false).
      { rewrite includes_double_slash_cons, startsWith_slash_cons in Hrun.
        apply orb_false_iff in Hrun as [Hd _]. simpl in Hd.
        rewrite Ascii.eqb_sym. exact Hd. }
      change ((1 <? String.length (String "/" (String d s)))%nat) with true in Hdef.
      cbv iota in Hdef.
      assert (Hr : exists t, r = String "/" (String d t)).
      { subst r. rewrite !UrlBuilding.dropWhileEnd_cons.
        destruct (Web.dropWhileEnd (Ascii.eqb "/") s) as [| e t].
        - rewrite Hd. exists "". reflexivity.
        - exists (String e t). reflexivity. }
      destruct Hr as [t Hr].
      assert (Hend : JS.endsWith r "/" = false).
      { destruct (JS.endsWith r "/") eqn:He; [| reflexivity].
        apply endsWith_spec in He as [a Ha]. rewrite Hdef in Ha.
        apply UrlBuilding.dropWhileEnd_last in Ha. discriminate. }
      split; [rewrite Hr; apply startsWith_slash_cons |].
      split.
      { destruct (UrlBuilding.dropWhileEnd_suffix (Ascii.eqb "/") (String "/" (String d s)))
          as (suffix & Hs & _).
        apply (includes_prefix_false r suffix). rewrite Hdef, <- Hs. exact Hrun. }
      split; [right; exact Hend |].
      rewrite Hr. change ((1 <? String.length (String "/" (String d t)))%nat) with true.
      rewrite <- Hr, Hdef. apply UrlBuilding.dropWhileEnd_idempotent. }
  set (s0 := if JS.startsWith path "/" then path else "/" +:+ path).
  assert (Hs0 : JS.startsWith s0 "/" = true).
  { subst s0. destruct (JS.startsWith path "/") eqn:H; [exact H |].
    apply startsWith_spec. exists path. reflexivity. }
  assert (Hc1 : JS.startsWith (collapseSlashes s0) "/" = true)
    by (rewrite collapseSlashes_startsWith; exact Hs0).
  pose proof (collapseSlashes_no_run s0) as Hc2.
  destruct (Hshape (collapseSlashes s0) (sanitizePath path) Hc1 Hc2 eq_refl)
    as (H1 & H2 & H3 & H4).
  set (r := sanitizePath path) in *.
  split; [exact H1 | split; [exact H2 | split; [exact H3 |]]].
  unfold sanitizePath. rewrite H1, (collapseSlashes_fixed r H2). exact H4.
Qed.


Lemma trimEnd_dropWhileEnd (s : string) : JS.trimEnd s = Web.dropWhileEnd JS.isWhiteSpace s.
Proof.
  induction s as [| c r IH]; [reflexivity |].
  rewrite UrlBuilding.dropWhileEnd_cons, <- IH. reflexivity.
Qed.

Lemma trimStart_cons (c : ascii) (r : string) :
  JS.trimStart (String c r) = if JS.isWhiteSpace c then JS.trimStart r else String c r.
Proof. reflexivity. Qed.

Lemma trimStart_head (s : string) :
  match JS.trimStart s with
  | EmptyString => True
  | String c _ => JS.isWhiteSpace c = false
  end.
Proof.
  induction s as [| c r IH]; [exact I |]. rewrite trimStart_cons.
  destruct (JS.isWhiteSpace c) eqn:Hc; [exact IH | exact Hc].
Qed.

Lemma trim_idempotent (s : string) : JS.trim (JS.trim s) = JS.trim s.
Proof.
  unfold JS.trim. pose proof (trimStart_head s) as Hhead.
  destruct (JS.trimStart s) as [| c r]; [reflexivity |].
  assert (Hstart : JS.trimStart (JS.trimEnd (String c r)) = JS.trimEnd (String c r)).
  { rewrite trimEnd_dropWhileEnd, UrlBuilding.dropWhileEnd_cons, Hhead.
    destruct (Web.dropWhileEnd JS.isWhiteSpace r);
      rewrite trimStart_cons, Hhead; reflexivity. }
  rewrite Hstart, !trimEnd_dropWhileEnd. apply UrlBuilding.dropWhileEnd_idempotent.
Qed.

Lemma existsChar_append (p : ascii -> bool) (a b : string) :
  Validation.existsChar p (a +:+ b) = Validation.existsChar p a || Validation.existsChar p b.
Proof.
  induction a as [| c a IH]; simpl; [reflexivity |]. now rewrite IH, orb_assoc.
Qed.

Lemma trimStart_suffix (s : string) : exists a, s = a +:+ JS.trimStart s.
Proof.
  induction s as [| c r [a Ha]]; [exists ""; reflexivity |]. rewrite trimStart_cons.
  destruct (JS.isWhiteSpace c).
  - exists (String c a). simpl. now rewrite <- Ha.
  - exists "". reflexivity.
Qed.

Lemma existsChar_trim (p : ascii -> bool) (s : string) :
  Validation.existsChar p s = false -> Validation.existsChar p (JS.trim s) = false.
Proof.
  intros H. unfold JS.trim. rewrite trimEnd_dropWhileEnd.
  destruct (trimStart_suffix s) as [a Ha].
  destruct (UrlBuilding.dropWhileEnd_suffix JS.isWhiteSpace (JS.trimStart s)) as (b & Hb & _).
  rewrite Ha, Hb, !existsChar_append in H.
  apply orb_false_iff in H as [_ H]. apply orb_false_iff in H as [H _]. exact H.
Qed.

Lemma splitOnSeparators_cons (c : ascii) (r : string) :
  splitOnSeparators (String c r) =
  if isSeparator c then
    match r with
    | String d _ =>
        if isSeparator d then splitOnSeparators r else EmptyString :: splitOnSeparators r
    | EmptyString => EmptyString :: splitOnSeparators r
    end
  else
    match splitOnSeparators r with
    | piece :: rest => String c piece :: rest
    | [] => [String c EmptyString]
    end.
Proof. reflexivity. Qed.

Lemma splitOnSeparators_pieces (input : string) :
  splitOnSeparators input <> [] /\
  Forall (fun p => Validation.existsChar isSeparator p = false) (splitOnSeparators input).
Proof.
  induction input as [| c r [Hne Hall]].
  - split; [discriminate | repeat constructor].
  - rewrite splitOnSeparators_cons. destruct (isSeparator c) eqn:Hc.
    + destruct r as [| d r'].
      * split; [discriminate | repeat constructor].
      * destruct (isSeparator d); [split; assumption |].
        split; [discriminate | constructor; [reflexivity | exact Hall]].
    + destruct (splitOnSeparators r) as [| piece rest]; [congruence |].
      split; [discriminate |]. inversion Hall as [| ? ? Hp Hrest]; subst.
      constructor; [simpl; now rewrite Hc, Hp | exact Hrest].
Qed.

(** X8.  Every entry of the list [parsePathList] returns is non-empty,
    has no white space at either end and contains no newline, comma or
    semicolon. *)
Theorem parsePathList_entries (input : string) :
  Forall
    (fun p => p <> "" /\ JS.trim p = p /\ Validation.existsChar isSeparator p = false)
    (parsePathList input).
Proof.
  unfold parsePathList. destruct (JS.isEmpty input); [constructor |].
  destruct (splitOnSeparators_pieces input) as [_ Hall].
  induction Hall as [| piece rest Hp _ IH]; [constructor |].
  rewrite map_cons, filter_cons.
  destruct (decide ((0 <? String.length (JS.trim piece))%nat = true)) as [Hlen | _];
    [| exact IH].
  constructor; [| exact IH].
  split; [intros Heq; rewrite Heq in Hlen; discriminate |].
  split; [apply trim_idempotent | apply existsChar_trim; exact Hp].
Qed.

Lemma splitOnSeparators_prepend (p s : string) :
  Validation.existsChar isSeparator p = false ->
  splitOnSeparators (p +:+ s) =
  match splitOnSeparators s with
  | piece :: rest => (p +:+ piece) :: rest
  | [] => [p]
  end.
Proof.
  induction p as [| c p IH]; intros Hp.
  - simpl. destruct (splitOnSeparators_pieces s) as [Hne _].
    destruct (splitOnSeparators s); [congruence | reflexivity].
  - simpl in Hp. apply orb_false_iff in Hp as [Hc Hp].
    change (String c p +:+ s) with (String c (p +:+ s)).
    rewrite splitOnSeparators_cons, Hc, (IH Hp).
    destruct (splitOnSeparators_pieces s) as [Hne _].
    destruct (splitOnSeparators s); [congruence | reflexivity].
Qed.

Lemma splitOnSeparators_join (c : ascii) (paths : list string) :
  isSeparator c = true ->
  Forall (fun p => p <> "" /\ Validation.existsChar isSeparator p = false) paths ->
  paths <> [] ->
  splitOnSeparators (JS.join (String c "") paths) = paths.
Proof.
  intros Hc Hall. induction Hall as [| p rest [Hp Hfree] Hrest IH]; [congruence |].
  intros _. destruct rest as [| q rest].
  - simpl. rewrite <- (append_nil_r p) at 1.
    rewrite (splitOnSeparators_prepend p "" Hfree). simpl. now rewrite append_nil_r.
  - change (JS.join (String c "") (p :: q :: rest))
      with (p +:+ String c (JS.join (String c "") (q :: rest))).
    rewrite (splitOnSeparators_prepend _ _ Hfree), splitOnSeparators_cons, Hc.
    inversion Hrest as [| ? ? [Hq Hqfree] _]; subst.
    assert (Hjoin : exists d t,
              JS.join (String c "") (q :: rest) = String d t /\ isSeparator d = false).
    { destruct q as [| d q]; [congruence |].
      simpl in Hqfree. apply orb_false_iff in Hqfree as [Hd _].
      destruct rest; [exists d, q | eexists d, _]; split; try exact Hd; reflexivity. }
    destruct Hjoin as (d & t & Hjoin & Hd).
    rewrite Hjoin, Hd, <- Hjoin, IH by discriminate.
    now rewrite append_nil_r.
Qed.

(** X9.  Parsing the paths of a list joined by a newline, a comma or a
    semicolon gives the list back, provided each path is non-empty, has no
    white space at either end and contains none of these separators. *)
Theorem parsePathList_join (c : ascii) (paths : list string) :
  isSeparator c = true ->
  Forall
    (fun p => p <> "" /\ JS.trim p = p /\ Validation.existsChar isSeparator p = false)
    paths ->
  parsePathList (JS.join (String c "") paths) = paths.
Proof.
  intros Hc Hall. destruct paths as [| p rest]; [reflexivity |].
  unfold parsePathList.
  assert (Hne : JS.isEmpty (JS.join (String c "") (p :: rest)) = false).
  { inversion Hall as [| ? ? [Hp _] _]; subst.
    destruct p; [congruence |]. destruct rest; reflexivity. }
  rewrite Hne, splitOnSeparators_join; [| exact Hc | | discriminate].
  - clear Hne. induction Hall as [| q rest' (Hq & Htrim & _) _ IH]; [reflexivity |].
    rewrite map_cons, filter_cons, Htrim.
    destruct (decide ((0 <? String.length q)%nat = true)) as [_ | Hlen].
    + f_equal. exact IH.
    + destruct q; [congruence | exfalso; apply Hlen; reflexivity].
  - eapply Forall_impl; [exact Hall |]. intros q (Hq & _ & Hfree). split; assumption.
Qed.

Lemma parsePathList_join_witness :
  parsePathList (JS.join (String "010" "") ["/content/a"; "/content/b"])
  = ["/content/a"; "/content/b"].
Proof.
  apply (parsePathList_join "010" ["/content/a"; "/content/b"]); [reflexivity |].
  repeat constructor; discriminate.
Defined.

End PathHelperProperties.

(* ===================================================================== *)
(** * The retry engine: delays and the trace of the loop *)
(* ===================================================================== *)

Module RetryEngine.
Import Host Retry.

Lemma parseDigits_acc (d : Decimal.uint) :
  forall p, JS.parseDigits (NilEmpty.string_of_uint d) (Z.pos p) true
            = Some (Z.pos (Pos.of_uint_acc d p)).
Proof.
  induction d as [| d IH | d IH | d IH | d IH | d IH | d IH | d IH | d IH | d IH | d IH];
    intros p; [reflexivity | ..];
    cbn [NilEmpty.string_of_uint JS.parseDigits Pos.of_uint_acc];
    change (JS.digitValue _) with (Some 0) ||
    change (JS.digitValue _) with (Some 1) ||
    change (JS.digitValue _) with (Some 2) ||
    change (JS.digitValue _) with (Some 3) ||
    change (JS.digitValue _) with (Some 4) ||
    change (JS.digitValue _) with (Some 5) ||
    change (JS.digitValue _) with (Some 6) ||
    change (JS.digitValue _) with (Some 7) ||
    change (JS.digitValue _) with (Some 8) ||
    change (JS.digitValue _) with (Some 9);
    cbv beta iota; rewrite <- IH; f_equal; lia.
Qed.

Lemma parseDigits_uint (d : Decimal.uint) :
  forall seen, d <> Decimal.Nil \/ seen = true ->
    JS.parseDigits (NilEmpty.string_of_uint d) 0 seen = Some (Z.of_N (Pos.of_uint d)).
Proof.
  induction d as [| d IH | d IH | d IH | d IH | d IH | d IH | d IH | d IH | d IH | d IH];
    intros seen Hseen.
  - destruct Hseen as [H | ->]; [congruence | reflexivity].
  - cbn [NilEmpty.string_of_uint JS.parseDigits Pos.of_uint].
    change (JS.digitValue _) with (Some 0). cbv beta iota.
    apply IH. right. reflexivity.
  - apply (parseDigits_acc d 1).
  - apply (parseDigits_acc d 2).
  - apply (parseDigits_acc d 3).
  - apply (parseDigits_acc d 4).
  - apply (parseDigits_acc d 5).
  - apply (parseDigits_acc d 6).
  - apply (parseDigits_acc d 7).
  - apply (parseDigits_acc d 8).
  - apply (parseDigits_acc d 9).
Qed.

Lemma to_uint_digits (p : positive) :
  exists c r,
    NilEmpty.string_of_uint (Pos.to_uint p) = String c r /\
    JS.isWhiteSpace c = false /\ c <> "-"%char /\ c <> "+"%char /\
    Pos.to_uint p <> Decimal.Nil.
Proof.
  pose proof (DecimalPos.Unsigned.of_to p) as H.
  destruct (Pos.to_uint p) eqn:E; [discriminate | ..];
    cbn [NilEmpty.string_of_uint]; eexists _, _;
    (split; [reflexivity | split; [reflexivity | split; [discriminate | split; discriminate]]]).
Qed.

(** Printing an integer and reading it back with [parseInt] gives the
    integer. *)
Lemma parseInt_numberToString (n : Z) : JS.parseInt (JS.numberToString n) = JS.Int n.
Proof.
  unfold JS.numberToString. destruct n as [| p | p]; [reflexivity | |].
  - cbn [Z.to_int NilEmpty.string_of_int].
    destruct (to_uint_digits p) as (c & r & Hs & Hw & Hminus & Hplus & Hnil).
    unfold JS.parseInt. rewrite Hs. cbn [JS.trimStart]. rewrite Hw.
    assert (Hdigits : JS.parseDigits (String c r) 0 false = Some (Z.pos p)).
    { rewrite <- Hs, parseDigits_uint by (left; exact Hnil).
      now rewrite DecimalPos.Unsigned.of_to. }
    destruct c as [[] [] [] [] [] [] [] []]; try congruence; rewrite Hdigits; reflexivity.
  - cbn [Z.to_int NilEmpty.string_of_int].
    destruct (to_uint_digits p) as (c & r & Hs & Hw & Hminus & Hplus & Hnil).
    unfold JS.parseInt. cbn [JS.trimStart].
    change (JS.isWhiteSpace "-") with false. cbv iota.
    rewrite parseDigits_uint by (left; exact Hnil).
    now rewrite DecimalPos.Unsigned.of_to.
Qed.






(** Without response headers, a decision to retry comes before the limit
    and carries the computed backoff delay. *)
Lemma shouldRetry_without_headers Date_parse now random error attempt config :
  RetryDecision.shouldRetry (shouldRetry Date_parse now random error attempt config None)
    = true ->
  attempt < maxRetries config /\
  RetryDecision.delayMs (shouldRetry Date_parse now random error attempt config None)
    = calculateBackoffDelay random attempt config.
Proof.
  unfold shouldRetry. destruct (Z.leb_spec (maxRetries config) attempt) as [Hge | Hlt];
    [discriminate |].
  intros H. split; [exact Hlt |].
  destruct (retryableStatus error config); [reflexivity |].
  destruct (retryableCode error config); [reflexivity | discriminate].
Qed.

Section Loop.

Variable env : Environment.
Variable JSON_stringify : Json -> string.
Variable Date_parse : string -> option Z.
Variable String_replace : Redaction.RegExpLiteral -> string -> string -> string.
Variable URL_redact : (string -> bool) -> string -> string -> option string.
Variable requestOptions : IHttpRequestOptions.
Variable startTime : Z.
Variable fullUrl : string.
Variable config : RetryConfig.

Abbreviation executeRequest :=
  (HttpClient.executeRequest env JSON_stringify String_replace URL_redact
     requestOptions startTime fullUrl).
Abbreviation retries := (RetryNotions.retries env config requestOptions).

Lemma executeRequest_world w :
  trace (executeRequest w).2 = trace w ++ [NetworkCall requestOptions] /\
  draws (executeRequest w).2 = draws w.
Proof.
  unfold HttpClient.executeRequest, httpRequest.
  destruct (answer env (length (networkCalls w)) requestOptions) as [[response | e] elapsed];
    cbn; [| split; reflexivity].
  destruct (400 <=? res_statusCode response); split; reflexivity.
Qed.

Lemma retryLoop_trace (remaining : nat) :
  forall attempt lastError w,
    attempt + Z.of_nat remaining = maxRetries config + 1 ->
    remaining <> O ->
    exists k,
      (k < remaining)%nat /\
      trace (HttpClient.retryLoop env Date_parse executeRequest config remaining attempt
               lastError w).2
        = trace w ++ NetworkCall requestOptions :: retries k attempt (draws w).
Proof.
  induction remaining as [| remaining IH]; intros attempt lastError w Hsum Hne; [congruence |].
  cbn [HttpClient.retryLoop].
  destruct (executeRequest_world w) as [Htrace Hdraws].
  destruct (executeRequest w) as [[error | value] w1]; cbn [snd] in Htrace, Hdraws;
    [| exists O; split; [lia | exact Htrace]].
  cbv beta iota zeta. unfold random at 1. cbv beta iota zeta.
  set (errorInfo := mkErrorInfo _ _ _).
  destruct (RetryDecision.shouldRetry
              (shouldRetry Date_parse (now w1) (Math_random env (draws w1)) errorInfo attempt
                 config None)) eqn:Hretry; cbn [negb];
    [| exists O; split; [lia | exact Htrace]].
  apply shouldRetry_without_headers in Hretry as [Hlt Hdelay]. cbv iota.
  match goal with
  | |- context [HttpClient.retryLoop _ _ _ _ _ ?a ?e ?w2] =>
      destruct (IH a e w2) as (k & Hk & Hloop); [lia | lia |];
      assert (Hw2 : trace w2 = trace w ++ [NetworkCall requestOptions;
                                           Slept (calculateBackoffDelay
                                                    (Math_random env (draws w)) attempt config)]
                    /\ draws w2 = if jitter config then S (draws w) else draws w)
  end.
  { unfold sleep. cbn [trace draws]. rewrite Hdelay, Hdraws.
    destruct (jitter config); cbn [trace draws]; rewrite ?Htrace, ?Hdraws, <- app_assoc;
      split; reflexivity. }
  destruct Hw2 as [Hw2 Hd2]. exists (S k). split; [lia |].
  rewrite Hloop, Hw2, Hd2, <- app_assoc. reflexivity.
Qed.

(** X12.  [withRetry] around the request closure leaves in the trace the
    request, then for each retry a sleep followed by the request again,
    and nothing else: it sleeps only between attempts, at most
    [maxRetries] times, and each delay is the computed backoff delay of the
    attempt, whatever headers the failed response carried. *)
Theorem withRetry_trace (w : World) :
  0 <= maxRetries config ->
  exists k,
    Z.of_nat k <= maxRetries config /\
    trace (HttpClient.withRetry env Date_parse executeRequest config w).2
      = trace w ++ NetworkCall requestOptions :: retries k 0 (draws w).
Proof.
  intros Hpos. unfold HttpClient.withRetry.
  destruct (retryLoop_trace (Z.to_nat (maxRetries config + 1)) 0 None w) as (k & Hk & Htrace);
    [lia | lia |].
  exists k. split; [lia | exact Htrace].
Qed.

End Loop.

Lemma withRetry_trace_witness :
  exists k,
    Z.of_nat k <= maxRetries DEFAULT_RETRY_CONFIG /\
    trace (HttpClient.withRetry (Scenario.respond 503) (fun _ => None)
             (HttpClient.executeRequest (Scenario.respond 503) (fun _ => "") (fun _ s _ => s)
                (fun _ _ _ => None)
                (mkRequestOptions "GET" "https://author.example.com/x" ∅ NoBody [] 30000 false)
                1000 "https://author.example.com/x")
             DEFAULT_RETRY_CONFIG Scenario.world).2
      = trace Scenario.world ++
        NetworkCall
          (mkRequestOptions "GET" "https://author.example.com/x" ∅ NoBody [] 30000 false) ::
        RetryNotions.retries (Scenario.respond 503) DEFAULT_RETRY_CONFIG
          (mkRequestOptions "GET" "https://author.example.com/x" ∅ NoBody [] 30000 false)
          k 0 (draws Scenario.world).
Proof.
  apply (withRetry_trace (Scenario.respond 503) (fun _ => "") (fun _ => None)
           (fun _ s _ => s) (fun _ _ _ => None)
           (mkRequestOptions "GET" "https://author.example.com/x" ∅ NoBody [] 30000 false)
           1000 "https://author.example.com/x" DEFAULT_RETRY_CONFIG Scenario.world).
  discriminate.
Defined.

End RetryEngine.

(* ===================================================================== *)
(** * The requests of the client *)
(* ===================================================================== *)

Module ClientRequests.
Import Host HttpClient ClientNotions.

Section WithPlatform.

Variable env : Environment.
Variable JSON_stringify : Json -> string.
Variable base64 : string -> string.
Variable Date_parse : string -> option Z.
Variable String_replace : Redaction.RegExpLiteral -> string -> string -> string.
Variable URL_redact : (string -> bool) -> string -> string -> option string.

Abbreviation executeRequest :=
  (HttpClient.executeRequest env JSON_stringify String_replace URL_redact).
Abbreviation withRetry := (HttpClient.withRetry env Date_parse).
Abbreviation getCsrfToken :=
  (HttpClient.getCsrfToken env JSON_stringify base64 Date_parse String_replace URL_redact).
Abbreviation get :=
  (HttpClient.get env JSON_stringify base64 Date_parse String_replace URL_redact).
Abbreviation postForm :=
  (HttpClient.postForm env JSON_stringify base64 Date_parse String_replace URL_redact).
Abbreviation uploadFile :=
  (HttpClient.uploadFile env JSON_stringify base64 Date_parse String_replace URL_redact).
Abbreviation tokenRequest := (ClientNotions.tokenRequest base64).
Abbreviation getRequest := (ClientNotions.getRequest base64).
Abbreviation formRequest := (ClientNotions.formRequest base64).
Abbreviation uploadRequest := (ClientNotions.uploadRequest base64).

Lemma get_unfold client url timeout w :
  get client url timeout w =
  let '(result, w') :=
    withRetry (executeRequest (getRequest client url timeout) (now w) (buildUrl client url))
      (retryConfig client) w in
  (result, client, w').
Proof.
  unfold HttpClient.get, HttpClient.request, HttpClient.send, ClientNotions.getRequest.
  cbn. rewrite (left_id_L ∅ (∪)). reflexivity.
Qed.


Lemma withRetry_calls requestOptions startTime fullUrl config w :
  exists calls,
    networkCalls (withRetry (executeRequest requestOptions startTime fullUrl) config w).2
      = networkCalls w ++ calls /\
    Forall (eq requestOptions) calls /\
    Z.of_nat (length calls) <= Z.max 0 (Retry.maxRetries config + 1).
Proof.
  unfold HttpClient.withRetry.
  destruct (Further.retryLoop_calls env JSON_stringify Date_parse String_replace URL_redact
              requestOptions startTime fullUrl config
              (Z.to_nat (Retry.maxRetries config + 1)) 0 None w)
    as (calls & Hcalls & Hall & Hlen & _).
  exists calls. split; [exact Hcalls | split; [exact Hall | lia]].
Qed.

Lemma get_calls client url timeout w :
  exists calls,
    (get client url timeout w).1.2 = client /\
    networkCalls (get client url timeout w).2 = networkCalls w ++ calls /\
    Forall (eq (getRequest client url timeout)) calls /\
    Z.of_nat (length calls) <= Z.max 0 (Retry.maxRetries (retryConfig client) + 1).
Proof.
  rewrite get_unfold.
  destruct (withRetry_calls (getRequest client url timeout) (now w) (buildUrl client url)
              (retryConfig client) w) as (calls & Hcalls & Hall & Hlen).
  destruct (withRetry _ _ w) as [result w']. exists calls. cbn in *.
  split; [reflexivity | split; [exact Hcalls | split; assumption]].
Qed.

Section Always.

Variable status : Z.
Hypothesis Halways : RetryNotions.alwaysAnswers env status.
Variable requestOptions : IHttpRequestOptions.
Variable startTime : Z.
Variable fullUrl : string.
Variable config : Retry.RetryConfig.

Lemma executeRequest_always w :
  networkCalls (executeRequest requestOptions startTime fullUrl w).2
    = networkCalls w ++ [requestOptions] /\
  if 400 <=? status then
    exists e,
      (executeRequest requestOptions startTime fullUrl w).1 = inl e /\
      Host.statusCode e = Some status /\ Host.code e = None /\
      Host.httpCode e = Some (JS.numberToString status) /\ Host.isError e = true
  else
    exists response,
      (executeRequest requestOptions startTime fullUrl w).1 = inr response /\
      resp_statusCode response = status.
Proof.
  split; [apply (Further.executeRequest_calls env) |].
  unfold HttpClient.executeRequest, httpRequest.
  destruct (Halways (length (networkCalls w)) requestOptions) as (response & elapsed & -> & Hs).
  cbn. rewrite Hs. destruct (400 <=? status).
  - eexists. split; [reflexivity |]. repeat split.
  - eexists. split; reflexivity.
Qed.

Lemma decision_always now random (e : Thrown) attempt :
  400 <= status -> Host.statusCode e = Some status -> Host.code e = None ->
  Retry.RetryDecision.shouldRetry
    (Retry.shouldRetry Date_parse now random
       (Retry.mkErrorInfo (Host.statusCode e) (Host.code e) (Some (Host.message e)))
       attempt config None)
  = negb (Retry.maxRetries config <=? attempt) && Retry.isRetryableStatusCode status config.
Proof.
  intros Hge Hstatus Hcode. unfold Retry.shouldRetry.
  destruct (Retry.maxRetries config <=? attempt); [reflexivity |].
  unfold Retry.retryableStatus, Retry.retryableCode. cbn [Retry.statusCode Retry.code].
  rewrite Hstatus, Hcode. cbn [JS.truthyNumber JS.truthyString].
  destruct (Z.eqb_spec status 0) as [H0 | _]; [lia |].
  destruct (Retry.isRetryableStatusCode status config); reflexivity.
Qed.

Lemma retryLoop_always (remaining : nat) :
  forall attempt lastError w,
    attempt + Z.of_nat remaining = Retry.maxRetries config + 1 ->
    remaining <> O ->
    networkCalls
      (HttpClient.retryLoop env Date_parse (executeRequest requestOptions startTime fullUrl)
         config remaining attempt lastError w).2 =
      networkCalls w ++
      replicate
        (if (400 <=? status) && Retry.isRetryableStatusCode status config
         then remaining else 1%nat)
        requestOptions /\
    if 400 <=? status then
      exists e,
        (HttpClient.retryLoop env Date_parse (executeRequest requestOptions startTime fullUrl)
           config remaining attempt lastError w).1 = inl e /\
        Host.statusCode e = Some status /\
        Host.httpCode e = Some (JS.numberToString status) /\ Host.isError e = true
    else
      exists response,
        (HttpClient.retryLoop env Date_parse (executeRequest requestOptions startTime fullUrl)
           config remaining attempt lastError w).1 = inr response /\
        resp_statusCode response = status.
Proof.
  induction remaining as [| remaining IH]; intros attempt lastError w Hsum Hne;
    [congruence |].
  cbn [HttpClient.retryLoop].
  destruct (executeRequest_always w) as [Hcalls Hresult].
  destruct (executeRequest requestOptions startTime fullUrl w) as [result w1].
  cbn [fst snd] in Hcalls, Hresult.
  destruct (400 <=? status) eqn:Hleb.
  - apply Z.leb_le in Hleb as Hge.
    destruct Hresult as (e & -> & Hstatus & Hcode & Hhttp & Herror). cbv beta iota zeta.
    unfold random. cbv beta iota zeta.
    rewrite !(decision_always _ _ e attempt Hge Hstatus Hcode).
    destruct (Retry.isRetryableStatusCode status config) eqn:Hretryable.
    + destruct (Z.leb_spec (Retry.maxRetries config) attempt) as [Hlast | Hmore].
      * cbn. assert (remaining = O) as -> by lia.
        split; [exact Hcalls | exists e; repeat split; assumption].
      * cbn [negb andb]. cbv iota.
        match goal with
        | |- context [HttpClient.retryLoop _ _ _ _ _ ?a ?err ?w2] =>
            destruct (IH a err w2) as [Hloop Hend]; [lia | lia |];
            assert (Hw2 : networkCalls w2 = networkCalls w1)
        end.
        { rewrite Common.networkCalls_sleep. destruct (Retry.jitter config); reflexivity. }
        split; [| exact Hend].
        rewrite Hloop, Hw2, Hcalls, <- app_assoc. reflexivity.
    + rewrite andb_false_r. cbn.
      split; [exact Hcalls | exists e; repeat split; assumption].
  - destruct Hresult as (response & -> & Hstatus). cbn.
    split; [exact Hcalls | exists response; split; [reflexivity | exact Hstatus]].
Qed.

End Always.

Lemma get_always (status : Z) client url timeout w :
  RetryNotions.alwaysAnswers env status ->
  0 <= Retry.maxRetries (retryConfig client) ->
  networkCalls (get client url timeout w).2 =
    networkCalls w ++
    replicate
      (if (400 <=? status) && Retry.isRetryableStatusCode status (retryConfig client)
       then Z.to_nat (Retry.maxRetries (retryConfig client) + 1) else 1%nat)
      (getRequest client url timeout) /\
  if 400 <=? status
  then exists e,
         (get client url timeout w).1.1 = inl e /\ Host.statusCode e = Some status /\
         Host.httpCode e = Some (JS.numberToString status) /\ Host.isError e = true
  else exists response,
         (get client url timeout w).1.1 = inr response /\ resp_statusCode response = status.
Proof.
  intros Halways Hpos. rewrite get_unfold. unfold HttpClient.withRetry.
  destruct (retryLoop_always status Halways (getRequest client url timeout) (now w)
              (buildUrl client url) (retryConfig client)
              (Z.to_nat (Retry.maxRetries (retryConfig client) + 1)) 0 None w)
    as [Hcalls Hend]; [lia | lia |].
  destruct (HttpClient.retryLoop _ _ _ _ _ _ _ w) as [result w']. cbn in *.
  split; [exact Hcalls | exact Hend].
Qed.

(** X13.  [get] leaves the client as it is and sends nothing but its own
    request, at most [maxRetries + 1] times: method GET, the built URL,
    the authentication header and no other header, no body, and the given
    timeout or else the client's default; it never fetches an anti-forgery
    token.  Against a server that answers every call with the same status,
    with a non-negative [maxRetries], it sends the request exactly
    [maxRetries + 1] times when the status is an error status of the
    retryable set and exactly once otherwise; it throws an error carrying
    the status when the status is 400 or more and returns the response
    otherwise. *)
Theorem get_requests client url timeout w :
  (exists calls,
     (get client url timeout w).1.2 = client /\
     networkCalls (get client url timeout w).2 = networkCalls w ++ calls /\
     Forall (eq (getRequest client url timeout)) calls /\
     Z.of_nat (length calls) <= Z.max 0 (Retry.maxRetries (retryConfig client) + 1)) /\
  (forall status,
     RetryNotions.alwaysAnswers env status ->
     0 <= Retry.maxRetries (retryConfig client) ->
     networkCalls (get client url timeout w).2 =
       networkCalls w ++
       replicate
         (if (400 <=? status) && Retry.isRetryableStatusCode status (retryConfig client)
          then Z.to_nat (Retry.maxRetries (retryConfig client) + 1) else 1%nat)
         (getRequest client url timeout) /\
     if 400 <=? status
     then exists e, (get client url timeout w).1.1 = inl e /\ Host.statusCode e = Some status
     else exists response,
            (get client url timeout w).1.1 = inr response /\
            resp_statusCode response = status).
Proof.
  split; [apply get_calls |].
  intros status Halways Hpos.
  destruct (get_always status client url timeout w Halways Hpos) as [Hcalls Hend].
  split; [exact Hcalls |].
  destruct (400 <=? status); [| exact Hend].
  destruct Hend as (e & He & Hstatus & _). exists e. split; assumption.
Qed.

Lemma postForm_unfold client url formData w :
  postForm client url formData w =
  let '(csrfToken, client1, w1) := getCsrfToken client w in
  let '(result, w2) :=
    withRetry
      (executeRequest (formRequest client1 url formData csrfToken) (now w)
         (buildUrl client1 url))
      (retryConfig client1) w1 in
  (result, client1, w2).
Proof.
  unfold HttpClient.postForm, HttpClient.request. cbn [req_method existsb String.eqb orb].
  change (existsb (String.eqb "POST") ["POST"; "PUT"; "DELETE"]) with true. cbv iota.
  destruct (getCsrfToken client w) as [[csrfToken client1] w1].
  unfold HttpClient.send, ClientNotions.formRequest, ClientNotions.withToken.
  cbn. rewrite (left_id_L ∅ (∪)). reflexivity.
Qed.

Lemma getCsrfToken_disabled client w :
  default false (csrfEnabled (credentials client)) = false ->
  getCsrfToken client w = (None, client, w).
Proof. intros H. unfold HttpClient.getCsrfToken. rewrite H. reflexivity. Qed.

Lemma getCsrfToken_cached client w token :
  default false (csrfEnabled (credentials client)) = true ->
  cachedToken client w = Some token ->
  getCsrfToken client w = (Some token, client, w).
Proof. intros H Hc. unfold HttpClient.getCsrfToken. rewrite H, Hc. reflexivity. Qed.

Lemma getCsrfToken_fetch client w :
  default false (csrfEnabled (credentials client)) = true ->
  cachedToken client w = None ->
  getCsrfToken client w =
  let '(result, w1) :=
    executeRequest (tokenRequest client) (now w)
      (buildUrl client "/libs/granite/csrf/token.json") w in
  match result with
  | inr response =>
      match stringField "token" (resp_body response) with
      | Some token => (Some token, withCachedToken client token (now w1), w1)
      | None => (None, client, w1)
      end
  | inl _ => (None, client, w1)
  end.
Proof.
  intros H Hc. unfold HttpClient.getCsrfToken. rewrite H, Hc. cbn [negb].
  unfold HttpClient.send, ClientNotions.tokenRequest. cbn. rewrite (left_id_L ∅ (∪)).
  reflexivity.
Qed.

(** X14.  With the anti-forgery token disabled, [postForm] sends only its
    own request, without a token header.  With the token enabled and a
    cached token that has not expired, it sends only its own request with
    the cached token in the [CSRF-Token] header: no token is fetched and
    the client keeps its cache.  Either way the request is sent at most
    [maxRetries + 1] times. *)
Theorem postForm_uses_cached_token client url formData w :
  (default false (csrfEnabled (credentials client)) = false ->
   exists calls,
     (postForm client url formData w).1.2 = client /\
     networkCalls (postForm client url formData w).2 = networkCalls w ++ calls /\
     Forall (eq (formRequest client url formData None)) calls /\
     Z.of_nat (length calls) <= Z.max 0 (Retry.maxRetries (retryConfig client) + 1)) /\
  (forall cache,
     default false (csrfEnabled (credentials client)) = true ->
     csrfCache client = Some cache ->
     now w < expiresAt cache ->
     exists calls,
       (postForm client url formData w).1.2 = client /\
       networkCalls (postForm client url formData w).2 = networkCalls w ++ calls /\
       Forall (eq (formRequest client url formData (Some (token cache)))) calls /\
       Z.of_nat (length calls) <= Z.max 0 (Retry.maxRetries (retryConfig client) + 1)).
Proof.
  split.
  - intros Hoff. rewrite postForm_unfold, (getCsrfToken_disabled client w Hoff).
    destruct (withRetry_calls (formRequest client url formData None) (now w)
                (buildUrl client url) (retryConfig client) w) as (calls & Hcalls & Hall & Hlen).
    destruct (withRetry _ _ w) as [result w']. exists calls. cbn in *.
    split; [reflexivity | split; [exact Hcalls | split; assumption]].
  - intros cache Hon Hcache Hfresh.
    assert (Hc : cachedToken client w = Some (token cache)).
    { unfold cachedToken. rewrite Hcache.
      destruct (Z.ltb_spec (now w) (expiresAt cache)); [reflexivity | lia]. }
    rewrite postForm_unfold, (getCsrfToken_cached client w _ Hon Hc).
    destruct (withRetry_calls (formRequest client url formData (Some (token cache))) (now w)
                (buildUrl client url) (retryConfig client) w) as (calls & Hcalls & Hall & Hlen).
    destruct (withRetry _ _ w) as [result w']. exists calls. cbn in *.
    split; [reflexivity | split; [exact Hcalls | split; assumption]].
Qed.

(** The world once the network has answered [options] after [elapsed]
    milliseconds. *)
Abbreviation answered options elapsed w :=
  (mkWorld (now w + elapsed) (draws w) (trace w ++ [NetworkCall options])).

Lemma networkCalls_answered options elapsed w :
  networkCalls (answered options elapsed w) = networkCalls w ++ [options].
Proof. unfold networkCalls. cbn. rewrite omap_app. reflexivity. Qed.

Lemma executeRequest_answer requestOptions startTime fullUrl w :
  executeRequest requestOptions startTime fullUrl w =
  match answer env (length (networkCalls w)) requestOptions with
  | (Responded response, elapsed) =>
      if 400 <=? res_statusCode response then
        (inl (setStatusCode
                (createError JSON_stringify String_replace URL_redact
                   (res_statusCode response) fullUrl (res_body response))
                (res_statusCode response)),
         answered requestOptions elapsed w)
      else
        (inr (mkHttpResponse (res_statusCode response) (default ∅ (res_headers response))
                (res_body response) (now w + elapsed - startTime)),
         answered requestOptions elapsed w)
  | (Threw e, elapsed) => (inl e, answered requestOptions elapsed w)
  end.
Proof.
  unfold HttpClient.executeRequest, httpRequest.
  destruct (answer env (length (networkCalls w)) requestOptions) as [[response | e] elapsed];
    [| reflexivity].
  cbv beta iota zeta. destruct (400 <=? res_statusCode response); reflexivity.
Qed.

Lemma postForm_token_fetch client url formData w :
  default false (csrfEnabled (credentials client)) = true ->
  cachedToken client w = None ->
  exists calls token,
    networkCalls (postForm client url formData w).2
      = networkCalls w ++ tokenRequest client :: calls /\
    Forall (eq (formRequest client url formData token)) calls /\
    Z.of_nat (length calls) <= Z.max 0 (Retry.maxRetries (retryConfig client) + 1) /\
    match answer env (length (networkCalls w)) (tokenRequest client) with
    | (Threw _, _) => token = None /\ (postForm client url formData w).1.2 = client
    | (Responded response, elapsed) =>
        if 400 <=? res_statusCode response then
          token = None /\ (postForm client url formData w).1.2 = client
        else
          match field "token" (res_body response) with
          | None => token = None /\ (postForm client url formData w).1.2 = client
          | Some (JString fetched) =>
              token = Some fetched /\
              (postForm client url formData w).1.2
                = withCachedToken client fetched (now w + elapsed)
          | Some _ => True
          end
    end.
Proof.
  intros Hon Hcache. rewrite postForm_unfold, (getCsrfToken_fetch client w Hon Hcache).
  rewrite (executeRequest_answer (tokenRequest client)).
  assert (Hmain : forall token1 client1 elapsed,
            client1 = client \/ (exists t f, client1 = withCachedToken client t f) ->
            exists calls,
              networkCalls
                (withRetry
                   (executeRequest (formRequest client1 url formData token1) (now w)
                      (buildUrl client1 url))
                   (retryConfig client1) (answered (tokenRequest client) elapsed w)).2
                = networkCalls w ++ tokenRequest client :: calls /\
              Forall (eq (formRequest client url formData token1)) calls /\
              Z.of_nat (length calls) <= Z.max 0 (Retry.maxRetries (retryConfig client) + 1)).
  { intros token1 client1 elapsed Hclient.
    assert (Hsame : formRequest client1 url formData token1
                    = formRequest client url formData token1 /\
                    buildUrl client1 url = buildUrl client url /\
                    retryConfig client1 = retryConfig client).
    { destruct Hclient as [-> | (t & f & ->)]; repeat split. }
    destruct Hsame as (-> & -> & ->).
    destruct (withRetry_calls (formRequest client url formData token1) (now w)
                (buildUrl client url) (retryConfig client)
                (answered (tokenRequest client) elapsed w))
      as (calls & Hcalls & Hall & Hlen).
    exists calls. rewrite Hcalls, networkCalls_answered, <- app_assoc.
    split; [reflexivity | split; assumption]. }
  destruct (answer env (length (networkCalls w)) (tokenRequest client))
    as [[response | thrown] elapsed].
  - destruct (400 <=? res_statusCode response).
    + destruct (Hmain None client elapsed) as (calls & Hcalls & Hall & Hlen); [now left |].
      destruct (withRetry _ _ _) as [result w']. exists calls, None. cbn in *.
      split; [exact Hcalls | split; [exact Hall | split; [exact Hlen | split; reflexivity]]].
    + cbn [resp_body]. unfold stringField.
      destruct (field "token" (res_body response)) as [[| | | fetched | |] |];
        match goal with
        | |- context [withRetry (executeRequest (formRequest ?c _ _ ?t) _ _) _ _] =>
            destruct (Hmain t c elapsed) as (calls & Hcalls & Hall & Hlen);
              [first [now left | right; eexists _, _; reflexivity] |];
            destruct (withRetry _ _ _) as [result w']; exists calls, t
        end;
        cbn in *;
        (split; [exact Hcalls | split; [exact Hall | split; [exact Hlen |]]]);
        try exact I; split; reflexivity.
  - destruct (Hmain None client elapsed) as (calls & Hcalls & Hall & Hlen); [now left |].
    destruct (withRetry _ _ _) as [result w']. exists calls, None. cbn in *.
    split; [exact Hcalls | split; [exact Hall | split; [exact Hlen | split; reflexivity]]].
Qed.

(** X15.  With the anti-forgery token enabled and no cached token that is
    still valid, [postForm] first fetches the token with one GET of
    [/libs/granite/csrf/token.json], sent exactly once whatever the answer,
    and then sends its form at most [maxRetries + 1] times.  If the fetch
    throws or is answered with a status of 400 or more, or the body has no
    [token] field, the form is posted without a token and the cache is
    left as it was; if the body holds a string under [token], the form is
    posted with it and the client caches it until five minutes after the
    answer. *)
Theorem postForm_fetches_token_once client url formData w :
  default false (csrfEnabled (credentials client)) = true ->
  cachedToken client w = None ->
  exists calls,
    networkCalls (postForm client url formData w).2
      = networkCalls w ++ tokenRequest client :: calls /\
    Z.of_nat (length calls) <= Z.max 0 (Retry.maxRetries (retryConfig client) + 1) /\
    let withoutToken :=
      Forall (eq (formRequest client url formData None)) calls /\
      (postForm client url formData w).1.2 = client in
    match answer env (length (networkCalls w)) (tokenRequest client) with
    | (Threw _, _) => withoutToken
    | (Responded response, elapsed) =>
        if 400 <=? res_statusCode response then withoutToken
        else
          match field "token" (res_body response) with
          | None => withoutToken
          | Some (JString fetched) =>
              Forall (eq (formRequest client url formData (Some fetched))) calls /\
              (postForm client url formData w).1.2
                = withCachedToken client fetched (now w + elapsed)
          | Some _ => True
          end
    end.
Proof.
  intros Hon Hcache.
  destruct (postForm_token_fetch client url formData w Hon Hcache)
    as (calls & token & Hcalls & Hall & Hlen & Hmatch).
  exists calls. split; [exact Hcalls |]. split; [exact Hlen |]. cbv zeta.
  destruct (answer env (length (networkCalls w)) (tokenRequest client))
    as [[response | thrown] elapsed].
  - destruct (400 <=? res_statusCode response).
    + destruct Hmatch as [-> Hclient]. split; assumption.
    + destruct (field "token" (res_body response)) as [[| | | fetched | |] |];
        try exact I; destruct Hmatch as [-> Hclient]; split; assumption.
  - destruct Hmatch as [-> Hclient]. split; assumption.
Qed.

Lemma getCsrfToken_calls client w :
  exists tokenCalls,
    networkCalls (getCsrfToken client w).2 = networkCalls w ++ tokenCalls /\
    (tokenCalls = [] \/ tokenCalls = [tokenRequest client]) /\
    (default false (csrfEnabled (credentials client)) = false ->
     tokenCalls = [] /\ (getCsrfToken client w).1.1 = None) /\
    ((getCsrfToken client w).1.2 = client \/
     exists t f, (getCsrfToken client w).1.2 = withCachedToken client t f).
Proof.
  destruct (default false (csrfEnabled (credentials client))) eqn:Hon.
  - destruct (cachedToken client w) as [token |] eqn:Hcache.
    + rewrite (getCsrfToken_cached client w token Hon Hcache). exists []. cbn [fst snd].
      rewrite app_nil_r. repeat split; auto. discriminate.
    + rewrite (getCsrfToken_fetch client w Hon Hcache), executeRequest_answer.
      exists [tokenRequest client].
      destruct (answer env (length (networkCalls w)) (tokenRequest client))
        as [[response | thrown] elapsed].
      * destruct (400 <=? res_statusCode response); cbn [resp_body].
        -- cbn [fst snd]. rewrite networkCalls_answered. repeat split; auto. discriminate.
        -- destruct (stringField "token" (res_body response)); cbn [fst snd];
             rewrite networkCalls_answered; repeat split; auto; try discriminate.
           right. eexists _, _. reflexivity.
      * cbn [fst snd]. rewrite networkCalls_answered. repeat split; auto. discriminate.
  - rewrite (getCsrfToken_disabled client w Hon). exists []. cbn [fst snd].
    rewrite app_nil_r. repeat split; auto.
Qed.

Lemma uploadFile_calls client url fileData fileName additionalFields w :
  exists tokenCalls token,
    networkCalls (uploadFile client url fileData fileName additionalFields w).2
      = networkCalls w ++ tokenCalls ++
        [uploadRequest client url fileData fileName additionalFields token] /\
    (tokenCalls = [] \/ tokenCalls = [tokenRequest client]) /\
    (default false (csrfEnabled (credentials client)) = false ->
     tokenCalls = [] /\ token = None).
Proof.
  destruct (getCsrfToken_calls client w) as (tokenCalls & Hcalls & Hshape & Hoff & Hclient).
  unfold HttpClient.uploadFile.
  destruct (getCsrfToken client w) as [[csrfToken client1] w1]. cbn [fst snd] in *.
  exists tokenCalls, csrfToken.
  assert (Hsame : buildUrl client1 url = buildUrl client url /\
                  getAuthHeaders base64 client1 = getAuthHeaders base64 client /\
                  defaultTimeoutMs client1 = defaultTimeoutMs client /\
                  credentials client1 = credentials client).
  { destruct Hclient as [-> | (t & f & ->)]; repeat split. }
  destruct Hsame as (Hurl & Hauth & Htimeout & Hcred).
  cbv beta iota zeta. rewrite ?Hurl, ?Hauth, ?Htimeout, ?Hcred.
  split; [| split; assumption].
  fold (ClientNotions.withToken csrfToken (getAuthHeaders base64 client)).
  fold (uploadRequest client url fileData fileName additionalFields csrfToken).
  match goal with
  | |- context [httpRequest env ?ro w1] =>
      pose proof (Common.networkCalls_httpRequest env ro w1) as Hsent;
      destruct (httpRequest env ro w1) as [[response | thrown] w2]
  end; cbn [snd] in Hsent.
  - destruct (400 <=? res_statusCode response); cbn [snd];
      rewrite Hsent, Hcalls, <- app_assoc; reflexivity.
  - cbn [snd]. rewrite Hsent, Hcalls, <- app_assoc. reflexivity.
Qed.

(** X16.  [uploadFile] sends the upload exactly once, whatever the answer:
    it is never retried.  The upload is a POST of the file as
    [application/zip] to the built URL with the client's default timeout.
    Before it there is at most one call, the fetch of the anti-forgery
    token, and none when the token is disabled, in which case the upload
    carries the authentication header only. *)
Theorem uploadFile_sends_once client url fileData fileName additionalFields w :
  exists tokenCalls upload,
    networkCalls (uploadFile client url fileData fileName additionalFields w).2
      = networkCalls w ++ tokenCalls ++ [upload] /\
    Host.method upload = "POST" /\
    Host.url upload = buildUrl client url /\
    Host.body upload
      = MultipartBody fileData fileName "application/zip" (default [] additionalFields) /\
    Host.timeout upload = defaultTimeoutMs client /\
    (tokenCalls = [] \/ tokenCalls = [tokenRequest client]) /\
    (default false (csrfEnabled (credentials client)) = false ->
     tokenCalls = [] /\
     upload = uploadRequest client url fileData fileName additionalFields None).
Proof.
  destruct (uploadFile_calls client url fileData fileName additionalFields w)
    as (tokenCalls & token & Hcalls & Hshape & Hoff).
  exists tokenCalls, (uploadRequest client url fileData fileName additionalFields token).
  split; [exact Hcalls |]. repeat (split; [reflexivity |]).
  split; [exact Hshape |].
  intros Hdisabled. destruct (Hoff Hdisabled) as [-> ->]. split; reflexivity.
Qed.

(** X17.  Against a server that answers every call with the same
    status, with the anti-forgery token disabled and a non-negative
    [maxRetries], the result [replicateSinglePath] gives for a valid path
    outside dry run is requested, carries the status of the server (for an
    error status it is read back from the error the client throws) and is
    [ok] exactly for a status from 200 to 299. *)
Theorem replication_reports_server_status (status : Z) client path action w :
  RetryNotions.alwaysAnswers env status ->
  default false (csrfEnabled (credentials client)) = false ->
  0 <= Retry.maxRetries (retryConfig client) ->
  Validation.valid (Validation.validateAemPath path) = true ->
  let result :=
    (Replication.replicateSinglePath AemHttpClient postForm client path action (Some false)
       w).1.1 in
  Replication.requested result = true /\
  Replication.statusCode result = JS.Int status /\
  Replication.ok result = (200 <=? status) && (status <? 300).
Proof.
  intros Halways Hoff Hpos Hvalid result. subst result.
  unfold Replication.replicateSinglePath. rewrite Hvalid. cbn [negb default].
  rewrite postForm_unfold, (getCsrfToken_disabled client w Hoff). unfold HttpClient.withRetry.
  match goal with
  | |- context [HttpClient.retryLoop _ _ (executeRequest ?ro ?st ?url) ?cfg ?rem 0 None w] =>
      destruct (retryLoop_always status Halways ro st url cfg rem 0 None w)
        as [_ Hend]; [lia | lia |];
      destruct (HttpClient.retryLoop env Date_parse (executeRequest ro st url) cfg rem 0 None w)
        as [outcome w']
  end.
  cbn [fst snd] in Hend |- *.
  destruct (Z.leb_spec 400 status) as [Hge | Hlt].
  - destruct Hend as (e & -> & _ & Hhttp & _). cbn [fst snd Replication.requested
      Replication.statusCode Replication.ok]. rewrite Hhttp.
    pose proof (RetryEngine.parseInt_numberToString status) as Hparse.
    destruct (JS.numberToString status) as [| c r] eqn:Hs; [discriminate |].
    cbn [JS.truthyString JS.isEmpty]. rewrite Hparse.
    split; [reflexivity | split; [reflexivity |]].
    destruct (Z.ltb_spec status 300); [lia |]. now rewrite andb_false_r.
  - destruct Hend as (response & -> & Hstatus). cbn [fst snd Replication.requested
      Replication.statusCode Replication.ok]. rewrite Hstatus. repeat split.
Qed.

End WithPlatform.

Lemma get_requests_witness :
  networkCalls
    (HttpClient.get (Scenario.respond 503) (fun _ => "") (fun s => s) (fun _ => None)
       (fun _ s _ => s) (fun _ _ _ => None) Scenario.client "/system/health" None
       Scenario.world).2
  = networkCalls Scenario.world ++
    replicate 4 (ClientNotions.getRequest (fun s => s) Scenario.client "/system/health" None).
Proof.
  apply (proj2 (get_requests (Scenario.respond 503) (fun _ => "") (fun s => s)
                  (fun _ => None) (fun _ s _ => s) (fun _ _ _ => None)
                  Scenario.client "/system/health" None Scenario.world) 503).
  - intros n options. eexists _, _. split; reflexivity.
  - discriminate.
Defined.

Lemma postForm_fetches_token_once_witness :
  exists calls,
    networkCalls
      (Scenario.postForm Cases.tokenServer Cases.csrfClient "/bin/replicate.json" []
         Scenario.world).2
    = networkCalls Scenario.world ++
      ClientNotions.tokenRequest (fun s => s) Cases.csrfClient :: calls /\
    Forall
      (eq (ClientNotions.formRequest (fun s => s) Cases.csrfClient "/bin/replicate.json" []
             (Some "abc")))
      calls.
Proof.
  destruct (postForm_fetches_token_once Cases.tokenServer (fun _ => "") (fun s => s)
              (fun _ => None) (fun _ s _ => s) (fun _ _ _ => None)
              Cases.csrfClient "/bin/replicate.json" [] Scenario.world eq_refl eq_refl)
    as (calls & Hcalls & _ & Htoken).
  cbn in Htoken. destruct Htoken as [Hall _].
  exists calls. split; [exact Hcalls | exact Hall].
Defined.

Lemma replication_reports_server_status_witness :
  let result :=
    (Replication.replicateSinglePath _ (Scenario.postForm (Scenario.respond 503))
       Scenario.client "/content/a" Replication.activate (Some false) Scenario.world).1.1 in
  Replication.requested result = true /\
  Replication.statusCode result = JS.Int 503 /\
  Replication.ok result = false.
Proof.
  apply (replication_reports_server_status (Scenario.respond 503) (fun _ => "") (fun s => s)
           (fun _ => None) (fun _ s _ => s) (fun _ _ _ => None)
           503 Scenario.client "/content/a" Replication.activate Scenario.world).
  - intros n options. eexists _, _. split; reflexivity.
  - reflexivity.
  - discriminate.
  - reflexivity.
Defined.

End ClientRequests.

(* ===================================================================== *)
(** * Redaction of headers and objects *)
(* ===================================================================== *)

Module RedactionProperties.
Import Host Redaction ObjectRedaction.

Lemma redactObject_unfold (obj : Json) (depth : Z) :
  redactObject obj depth =
  if 10 <? depth then obj
  else
    match obj with
    | JNull => obj
    | JArray items => JArray (map (fun item => redactObject item (depth + 1)) items)
    | JObject fields =>
        JObject
          (omap (fun entry : string * Json =>
                   let (key, value) := entry in
                   if isSensitiveKey key then assigned key (JString REDACTED)
                   else
                     match value with
                     | JArray _ | JObject _ => assigned key (redactObject value (depth + 1))
                     | _ => assigned key value
                     end)
                fields)
    | _ => obj
    end.
Proof. destruct obj; reflexivity. Qed.

Lemma omap_cons_assigned {A B : Type} (f : A -> option (string * B)) (a : A) (l : list A)
    (key : string) (x : B) :
  f a = assigned key x ->
  omap f (a :: l) = if String.eqb key "__proto__" then omap f l else (key, x) :: omap f l.
Proof.
  intros H.
  change (omap f (a :: l))
    with (match f a with Some y => y :: omap f l | None => omap f l end).
  rewrite H. unfold assigned. destruct (String.eqb key "__proto__"); reflexivity.
Qed.

(** Rewrites the head of the entries of an object under [omap], once the
    value assigned to its key is known. *)
Ltac assign key x Hkey :=
  rewrite (omap_cons_assigned _ _ _ key x) by (cbv beta iota; rewrite ?Hkey; reflexivity).

Lemma exposes_redactObject (levels : nat) :
  forall obj depth,
    0 <= depth -> Z.of_nat levels + depth <= 11 ->
    exposes levels (redactObject obj depth) = false.
Proof.
  induction levels as [| n IH]; intros obj depth Hpos Hsum; [reflexivity |].
  rewrite redactObject_unfold.
  destruct (Z.ltb_spec 10 depth) as [Hdeep | _]; [lia |].
  destruct obj as [| b | z | s | items | fields]; try reflexivity.
  - cbn [exposes]. induction items as [| item items IHitems]; [reflexivity |].
    cbn [map existsb]. rewrite IH by lia. exact IHitems.
  - cbn [exposes]. induction fields as [| [key value] fields IHfields]; [reflexivity |].
    destruct (isSensitiveKey key) eqn:Hkey.
    + assign key (JString REDACTED) Hkey.
      destruct (String.eqb key "__proto__"); [exact IHfields |].
      cbn [existsb]. rewrite Hkey, IHfields. reflexivity.
    + destruct value as [| b | z | s | items | fs];
        match goal with
        | |- context [omap _ ((key, ?v) :: _)] =>
            first [assign key (redactObject v (depth + 1)) Hkey | assign key v Hkey]
        end;
        (destruct (String.eqb key "__proto__"); [exact IHfields |]);
        cbn [existsb]; rewrite Hkey, IHfields, orb_false_r;
        try (destruct n; reflexivity); apply IH; lia.
Qed.

Lemma redactObject_nest (keys : list string) (v : Json) :
  Forall (fun key => special key = false) keys ->
  forall depth,
    depth + Z.of_nat (length keys) = 11 ->
    redactObject (nest keys v) depth = nest keys v.
Proof.
  induction 1 as [| key rest Hkey _ IH]; intros depth Hsum.
  - cbn in Hsum. rewrite redactObject_unfold.
    destruct (Z.ltb_spec 10 depth); [reflexivity | lia].
  - cbn [length] in Hsum. cbn [nest]. rewrite redactObject_unfold.
    destruct (Z.ltb_spec 10 depth); [reflexivity |].
    apply orb_false_iff in Hkey as [Hkey Hown].
    specialize (IH (depth + 1) ltac:(lia)).
    destruct (nest rest v) eqn:Hnest;
      match goal with
      | |- context [omap _ [(key, ?x)]] =>
          first [assign key (redactObject x (depth + 1)) Hkey | assign key x Hkey]
      end;
      rewrite Hown, ?IH; reflexivity.
Qed.

(** X18.  The recursion of [redactObject] stops below the tenth level: a
    value wrapped in eleven objects, under keys that are neither sensitive
    nor [__proto__], is returned as it is, whatever sensitive keys it
    holds. *)
Theorem redactObject_depth_limit (keys : list string) (v : Json) :
  length keys = 11%nat ->
  Forall (fun key => special key = false) keys ->
  redactObject (nest keys v) 0 = nest keys v /\
  (exposes 1 v = true -> exposes 12 (redactObject (nest keys v) 0) = true).
Proof.
  intros Hlen Hkeys. assert (Heq : redactObject (nest keys v) 0 = nest keys v).
  { apply redactObject_nest; [exact Hkeys | lia]. }
  split; [exact Heq |]. rewrite Heq. intros Hv.
  do 12 (destruct keys as [| ? keys]; try discriminate).
  repeat match goal with
         | H : Forall _ (_ :: _) |- _ => inversion H as [| ? ? ? ?]; subst; clear H
         end.
  cbn [nest exposes existsb].
  repeat match goal with
         | H : special _ = false |- _ => apply orb_false_iff in H as [H _]; rewrite H; clear H
         end.
  rewrite !orb_false_r. exact Hv.
Qed.

Lemma redactObject_depth_limit_witness :
  let keys := ["a"; "b"; "c"; "d"; "e"; "f"; "g"; "h"; "i"; "j"; "k"] in
  let v := JObject [("password", JString "hunter2")] in
  redactObject (nest keys v) 0 = nest keys v /\
  (exposes 1 v = true -> exposes 12 (redactObject (nest keys v) 0) = true).
Proof.
  apply (redactObject_depth_limit ["a"; "b"; "c"; "d"; "e"; "f"; "g"; "h"; "i"; "j"; "k"]
           (JObject [("password", JString "hunter2")])).
  - reflexivity.
  - repeat constructor.
Defined.

Lemma Json_induction (P : Json -> Prop) :
  P JNull -> (forall b, P (JBool b)) -> (forall n, P (JNumber n)) ->
  (forall s, P (JString s)) ->
  (forall items, Forall P items -> P (JArray items)) ->
  (forall fields, Forall (fun entry => P entry.2) fields -> P (JObject fields)) ->
  forall v, P v.
Proof.
  intros Hnull Hbool Hnumber Hstring Harray Hobject.
  fix IH 1. intros [| b | n | s | items | fields].
  - exact Hnull.
  - apply Hbool.
  - apply Hnumber.
  - apply Hstring.
  - apply Harray. induction items as [| item items IHitems]; constructor.
    + apply IH.
    + exact IHitems.
  - apply Hobject. induction fields as [| [key value] fields IHfields]; constructor.
    + apply IH.
    + exact IHfields.
Qed.

Lemma redactObject_without_special_key (v : Json) :
  forall depth, hasSpecialKey v = false -> redactObject v depth = v.
Proof.
  induction v as [| b | n | s | items IH | fields IH] using Json_induction;
    intros depth Hv; rewrite redactObject_unfold;
    destruct (10 <? depth); try reflexivity.
  - f_equal. cbn [hasSpecialKey] in Hv.
    induction IH as [| item items Hitem _ IHitems]; [reflexivity |].
    cbn [existsb] in Hv. apply orb_false_iff in Hv as [Hhead Hrest].
    cbn [map]. rewrite (Hitem _ Hhead), (IHitems Hrest). reflexivity.
  - f_equal. cbn [hasSpecialKey] in Hv.
    induction IH as [| [key value] fields Hvalue _ IHfields]; [reflexivity |].
    cbn [existsb] in Hv. apply orb_false_iff in Hv as [Hhead Hrest].
    apply orb_false_iff in Hhead as [Hkey Hval].
    apply orb_false_iff in Hkey as [Hkey Hown].
    cbn [snd] in Hvalue. specialize (Hvalue (depth + 1) Hval).
    destruct value;
      match goal with
      | |- context [omap _ ((key, ?x) :: _)] =>
          first [assign key (redactObject x (depth + 1)) Hkey | assign key x Hkey]
      end;
      rewrite Hown, ?Hvalue, (IHfields Hrest); reflexivity.
Qed.

Lemma redactObject_shape (v : Json) (depth : Z) :
  match v with
  | JArray _ => exists items, redactObject v depth = JArray items
  | JObject _ => exists fields, redactObject v depth = JObject fields
  | _ => redactObject v depth = v
  end.
Proof.
  rewrite redactObject_unfold.
  destruct v; destruct (10 <? depth); try reflexivity; eexists; reflexivity.
Qed.

Lemma redactObject_idempotent (v : Json) :
  forall depth, redactObject (redactObject v depth) depth = redactObject v depth.
Proof.
  induction v as [| b | n | s | items IH | fields IH] using Json_induction;
    intros depth; rewrite (redactObject_unfold _ depth);
    destruct (10 <? depth) eqn:Hdepth;
    try (rewrite redactObject_unfold, Hdepth; reflexivity).
  - rewrite redactObject_unfold, Hdepth. f_equal.
    induction IH as [| item items Hitem _ IHitems]; [reflexivity |].
    cbn [map]. rewrite Hitem, IHitems. reflexivity.
  - rewrite redactObject_unfold, Hdepth. f_equal.
    induction IH as [| [key value] fields Hvalue _ IHfields]; [reflexivity |].
    cbn [snd] in Hvalue. specialize (Hvalue (depth + 1)).
    pose proof (redactObject_shape value (depth + 1)) as Hshape.
    destruct (isSensitiveKey key) eqn:Hkey.
    + assign key (JString REDACTED) Hkey.
      destruct (String.eqb key "__proto__") eqn:Hown; [exact IHfields |].
      assign key (JString REDACTED) Hkey. rewrite Hown, IHfields. reflexivity.
    + destruct value;
        match goal with
        | |- context [omap _ ((key, ?x) :: _)] =>
            first [assign key (redactObject x (depth + 1)) Hkey | assign key x Hkey]
        end;
        (destruct (String.eqb key "__proto__") eqn:Hown; [exact IHfields |]);
        try (match goal with
             | |- context [omap _ ((key, ?x) :: _)] => assign key x Hkey
             end; rewrite Hown, IHfields; reflexivity);
        destruct Hshape as [inner Hinner]; rewrite Hinner in Hvalue |- *;
        match goal with
        | |- context [omap _ ((key, ?x) :: _)] =>
            assign key (redactObject x (depth + 1)) Hkey
        end;
        rewrite Hown, Hvalue, IHfields; reflexivity.
Qed.

(** X19.  After [redactObject], no sensitive key within eleven levels of
    nesting (the top object and ten levels of arrays and objects below it)
    holds anything but the placeholder.  A value in which no key is
    sensitive or [__proto__] is returned as it is, at any depth, and
    redacting twice is redacting once. *)
Theorem redactObject_hides_sensitive_keys (v : Json) :
  exposes 11 (redactObject v 0) = false /\
  (forall depth, hasSpecialKey v = false -> redactObject v depth = v) /\
  (forall depth, redactObject (redactObject v depth) depth = redactObject v depth).
Proof.
  split; [apply exposes_redactObject; lia |].
  split; [intros depth; apply redactObject_without_special_key |].
  apply redactObject_idempotent.
Qed.

Lemma toLower_idempotent (c : ascii) : Web.toLower (Web.toLower c) = Web.toLower c.
Proof. destruct c as [[] [] [] [] [] [] [] []]; reflexivity. Qed.

Lemma toLowerCase_idempotent (s : string) : toLowerCase (toLowerCase s) = toLowerCase s.
Proof.
  unfold toLowerCase. induction s as [| c s IH]; [reflexivity |].
  cbn [Web.mapString]. now rewrite toLower_idempotent, IH.
Qed.

(** X20.  [redactHeaders] keeps the headers other than [__proto__] in
    their order, puts the placeholder in place of the value of every
    sensitive name and leaves the other values as they are; the names are
    compared without regard to the case of ASCII letters, and redacting
    twice is redacting once. *)
Theorem redactHeaders_replaces_sensitive_values (headers : list (string * string)) :
  let kept := List.filter (fun entry => negb (String.eqb entry.1 "__proto__")) headers in
  map fst (redactHeaders headers) = map fst kept /\
  Forall2
    (fun before after =>
       after.2 = if isSensitiveKey before.1 then REDACTED else before.2)
    kept (redactHeaders headers) /\
  (forall key value,
     (key, value) ∈ redactHeaders headers -> isSensitiveKey key = true -> value = REDACTED) /\
  (forall key, isSensitiveKey (toLowerCase key) = isSensitiveKey key) /\
  redactHeaders (redactHeaders headers) = redactHeaders headers.
Proof.
  cbv zeta. unfold redactHeaders.
  split; [| split; [| split; [| split]]].
  - induction headers as [| [key value] headers IH]; [reflexivity |].
    cbn [List.filter fst].
    destruct (isSensitiveKey key) eqn:Hkey;
      [assign key REDACTED Hkey | assign key value Hkey];
      destruct (String.eqb key "__proto__"); cbn [negb map fst]; now rewrite ?IH.
  - induction headers as [| [key value] headers IH]; [constructor |].
    cbn [List.filter fst].
    destruct (isSensitiveKey key) eqn:Hkey;
      [assign key REDACTED Hkey | assign key value Hkey];
      destruct (String.eqb key "__proto__"); cbn [negb]; try exact IH;
      (constructor; [cbn; now rewrite Hkey | exact IH]).
  - intros key value Hin Hkey.
    apply list_elem_of_omap in Hin as ([k v] & _ & Hentry).
    unfold assigned in Hentry.
    destruct (isSensitiveKey k) eqn:Hk, (String.eqb k "__proto__"); try discriminate;
      injection Hentry as -> ->; [reflexivity | congruence].
  - intros key. unfold isSensitiveKey. now rewrite toLowerCase_idempotent.
  - induction headers as [| [key value] headers IH]; [reflexivity |].
    destruct (isSensitiveKey key) eqn:Hkey;
      [assign key REDACTED Hkey | assign key value Hkey];
      (destruct (String.eqb key "__proto__") eqn:Hown; [exact IH |]);
      [assign key REDACTED Hkey | assign key value Hkey];
      rewrite Hown, IH; reflexivity.
Qed.

End RedactionProperties.

(* ===================================================================== *)
(** * Package names and the package upload *)
(* ===================================================================== *)

Module PackageNames.
Import Host PackageManager StringFacts.

#[local] Arguments append !s1 s2 / : simpl nomatch.

Lemma trimEnd_snoc (a : string) (c : ascii) :
  JS.isWhiteSpace c = false -> JS.trimEnd (a +:+ String c "") = a +:+ String c "".
Proof.
  intros Hc. rewrite PathHelperProperties.trimEnd_dropWhileEnd.
  apply UrlBuilding.dropWhileEnd_fixed. intros b d Heq.
  assert (Hlast : forall x y (p q : ascii), x +:+ String p "" = y +:+ String q "" -> p = q).
  { clear. induction x as [| e x IH]; intros [| f y] p q H; simpl in H.
    - now injection H.
    - injection H as _ H. destruct y; discriminate.
    - injection H as _ H. destruct x; discriminate.
    - injection H as _ H. eapply IH, H. }
  apply Hlast in Heq. now subst.
Qed.

Lemma trim_fixed_append (name : string) (c : ascii) (a : string) :
  name <> "" -> JS.trim name = name -> JS.isWhiteSpace c = false ->
  JS.trim (name +:+ a +:+ String c "") = name +:+ a +:+ String c "".
Proof.
  intros Hne Htrim Hc. unfold JS.trim.
  assert (Hstart : JS.trimStart (name +:+ a +:+ String c "") = name +:+ a +:+ String c "").
  { destruct name as [| d name]; [congruence |].
    pose proof (PathHelperProperties.trimStart_head (String d name)) as Hhead.
    unfold JS.trim in Htrim.
    assert (Hd : JS.isWhiteSpace d = false).
    { destruct (JS.isWhiteSpace d) eqn:Hd; [| reflexivity]. exfalso.
      rewrite PathHelperProperties.trimStart_cons, Hd in Htrim, Hhead.
      pose proof (PathHelperProperties.trimStart_suffix name) as [pre Hpre].
      pose proof (UrlBuilding.dropWhileEnd_suffix JS.isWhiteSpace (JS.trimStart name))
        as (post & Hpost & _).
      rewrite <- PathHelperProperties.trimEnd_dropWhileEnd, Htrim in Hpost.
      assert (Hlen : String.length name
                     = (String.length pre + (String.length (String d name)
                                             + String.length post))%nat).
      { rewrite Hpre at 1. rewrite length_append. rewrite Hpost at 1.
        rewrite length_append. reflexivity. }
      simpl in Hlen. lia. }
    change (String d name +:+ a +:+ String c "")
      with (String d (name +:+ a +:+ String c "")).
    rewrite PathHelperProperties.trimStart_cons, Hd. reflexivity. }
  rewrite Hstart, <- append_assoc. apply trimEnd_snoc. exact Hc.
Qed.

Lemma generated_name_shape (now : Z) :
  exists a,
    "package-" +:+ JS.numberToString now +:+ ".zip" = "p" +:+ a +:+ "p" /\
    JS.endsWith ("package-" +:+ JS.numberToString now +:+ ".zip") ".zip" = true.
Proof.
  exists ("ackage-" +:+ JS.numberToString now +:+ ".zi"). split.
  - simpl. f_equal. rewrite !append_assoc. reflexivity.
  - rewrite <- append_assoc. apply endsWith_append.
Qed.

Lemma extractPackageName_zip (now : Z) (providedName : option string) :
  JS.endsWith (extractPackageName now providedName) ".zip" = true.
Proof.
  assert (Hgenerated : JS.endsWith ("package-" +:+ JS.numberToString now +:+ ".zip") ".zip"
                       = true)
    by (destruct (generated_name_shape now) as (a & _ & Hzip); exact Hzip).
  unfold extractPackageName.
  destruct (JS.truthyString providedName) as [provided |]; [| exact Hgenerated].
  destruct (JS.isEmpty (JS.trim provided)); [exact Hgenerated |].
  destruct (JS.endsWith (JS.trim provided) ".zip") eqn:Hzip; [exact Hzip |].
  apply endsWith_append.
Qed.

(** X21.  The name [extractPackageName] returns always ends with [.zip]
    and is a name it would return as it is: given back as the provided
    name, at any time, it comes out unchanged. *)
Theorem extractPackageName_fixed_point (now later : Z) (providedName : option string) :
  JS.endsWith (extractPackageName now providedName) ".zip" = true /\
  extractPackageName later (Some (extractPackageName now providedName))
    = extractPackageName now providedName.
Proof.
  assert (Hfixed : forall name,
            name <> "" -> JS.trim name = name -> JS.endsWith name ".zip" = true ->
            extractPackageName later (Some name) = name).
  { intros name Hne Htrim Hzip. unfold extractPackageName.
    destruct name as [| c name]; [congruence |].
    cbn [JS.truthyString JS.isEmpty]. rewrite Htrim. cbn [JS.isEmpty]. now rewrite Hzip. }
  assert (Hgenerated : forall t,
            JS.endsWith ("package-" +:+ JS.numberToString t +:+ ".zip") ".zip" = true /\
            extractPackageName later (Some ("package-" +:+ JS.numberToString t +:+ ".zip"))
              = "package-" +:+ JS.numberToString t +:+ ".zip").
  { intros t. destruct (generated_name_shape t) as (a & Hshape & Hzip).
    split; [exact Hzip |]. apply Hfixed; [discriminate | | exact Hzip].
    rewrite Hshape. apply (trim_fixed_append "p" "p" a); [discriminate | | ]; reflexivity. }
  assert (Hcases : extractPackageName now providedName =
            match JS.truthyString providedName with
            | Some provided =>
                if JS.isEmpty (JS.trim provided)
                then "package-" +:+ JS.numberToString now +:+ ".zip"
                else if JS.endsWith (JS.trim provided) ".zip" then JS.trim provided
                     else JS.trim provided +:+ ".zip"
            | None => "package-" +:+ JS.numberToString now +:+ ".zip"
            end) by reflexivity.
  rewrite Hcases. clear Hcases.
  destruct (JS.truthyString providedName) as [provided |]; [| apply Hgenerated].
  destruct (JS.isEmpty (JS.trim provided)) eqn:Hempty; [apply Hgenerated |].
  assert (Hne : JS.trim provided <> "")
    by (destruct (JS.trim provided); [discriminate Hempty | discriminate]).
  destruct (JS.endsWith (JS.trim provided) ".zip") eqn:Hzip.
  - split; [exact Hzip |].
    apply Hfixed; [exact Hne | apply PathHelperProperties.trim_idempotent | exact Hzip].
  - split; [apply endsWith_append |].
    apply Hfixed; [destruct (JS.trim provided); [now elim Hne | discriminate] | |
                   apply endsWith_append].
    change ".zip" with (".zi" +:+ "p").
    apply trim_fixed_append;
      [exact Hne | apply PathHelperProperties.trim_idempotent | reflexivity].
Qed.

End PackageNames.

Module PackageUpload.
Import Host PackageManager.

Section WithPlatform.

Variable JSON_parse : string -> option Json.
Variable String_match : Redaction.RegExpLiteral -> string -> option string.
Variable String_replace : Redaction.RegExpLiteral -> string -> string -> string.
Variable nullPropertyError : string -> Thrown.
Variable Client : Type.
Variable uploadFile :
  Client -> string -> string -> string -> option (list (string * string)) -> World ->
  (Thrown + HttpClient.HttpResponse) * Client * World.
Variable postForm :
  Client -> string -> list (string * string) -> World ->
  (Thrown + HttpClient.HttpResponse) * Client * World.

Abbreviation logLine := (PackageManager.logLine String_replace).
Abbreviation parseInstallLogs :=
  (PackageManager.parseInstallLogs String_replace nullPropertyError).
Abbreviation installStep :=
  (PackageManager.installStep String_replace nullPropertyError Client postForm).
Abbreviation tryUpload :=
  (PackageManager.tryUpload JSON_parse String_match String_replace nullPropertyError
     Client uploadFile postForm).
Abbreviation uploadPackage :=
  (PackageManager.uploadPackage JSON_parse String_match String_replace nullPropertyError
     Client uploadFile postForm).

(** X22.  From a markup body [parseInstallLogs] returns at most a hundred
    lines, none of them empty, none starting with [<], and each without
    white space at either end. *)
Theorem parseInstallLogs_markup_lines (text : string) :
  exists lines,
    parseInstallLogs (JString text) = inr lines /\
    (length lines <= 100)%nat /\
    Forall
      (fun line => line <> "" /\ JS.startsWith line "<" = false /\ JS.trim line = line)
      lines.
Proof.
  eexists. split; [reflexivity |]. split.
  - rewrite length_take. lia.
  - apply Forall_take. apply Forall_forall. intros line Hin.
    apply list_elem_of_omap in Hin as (raw & _ & Hline).
    unfold PackageManager.logLine in Hline.
    destruct (JS.isEmpty (JS.trim _)) eqn:Hempty; [discriminate |].
    destruct (JS.startsWith (JS.trim _) "<") eqn:Hstart; [discriminate |].
    injection Hline as <-.
    split; [destruct (JS.trim _); [discriminate Hempty | discriminate] |].
    split; [exact Hstart | apply PathHelperProperties.trim_idempotent].
Qed.

Lemma installStep_invariants client name timestamp install statusCode pid logs w :
  let '(progress, result, _, _) :=
    installStep client name timestamp install statusCode pid logs w in
  p_uploaded progress = true /\
  p_packageId progress = pid /\
  (p_installed progress = true -> install = true /\ JS.truthyString pid <> None) /\
  match result with
  | inr out =>
      uploaded out = true /\ installed out = p_installed progress /\
      packageId out = pid /\ dryRun out = false /\
      PackageManager.packageName out = name /\
      ok out = (if install then installed out else true)
  | inl _ => True
  end.
Proof.
  unfold PackageManager.installStep.
  destruct install; cbn [negb].
  - destruct (JS.truthyString pid) as [id |] eqn:Hid.
    + destruct (postForm client _ _ w) as [[[e | response] client'] w']; cbn.
      * repeat split; discriminate.
      * destruct (isSuccessResponse _ _ _) as [e | installed]; cbn;
          [repeat split; discriminate |].
        destruct (PackageManager.parseInstallLogs _ _ _) as [e | installLogs]; cbn;
          repeat split; congruence.
    + cbn. repeat split; discriminate.
  - cbn. repeat split; discriminate.
Qed.

Lemma tryUpload_invariants client packageData name timestamp install w :
  let '(progress, result, _, _) :=
    tryUpload client packageData name timestamp install w in
  (p_installed progress = true ->
   p_uploaded progress = true /\ install = true /\
   JS.truthyString (p_packageId progress) <> None) /\
  match result with
  | inr out =>
      (installed out = true ->
       uploaded out = true /\ install = true /\ JS.truthyString (packageId out) <> None) /\
      dryRun out = false /\
      PackageManager.packageName out = name /\
      ok out = uploaded out && (if install then installed out else true)
  | inl _ => True
  end.
Proof.
  unfold PackageManager.tryUpload.
  destruct (uploadFile client _ _ _ _ w) as [[[e | response] client'] w']; cbn;
    [split; [discriminate | exact I] |].
  destruct (isSuccessResponse _ _ _) as [e | uploaded]; cbn;
    [split; [discriminate | exact I] |].
  destruct (parsePackageId _ _ _ _) as [e | pid]; cbn;
    [split; [discriminate | exact I] |].
  destruct uploaded.
  - match goal with
    | |- context [PackageManager.installStep _ _ _ _ ?c ?n ?t ?i ?s ?p ?l ?w0] =>
        pose proof (installStep_invariants c n t i s p l w0) as Hstep;
        destruct (PackageManager.installStep _ _ _ _ c n t i s p l w0)
          as [[[progress result] client''] w'']
    end.
    destruct Hstep as (Hup & Hid & Hinst & Hres). rewrite Hid.
    split; [intros H; destruct (Hinst H); auto |].
    destruct result as [e | out]; [exact I |].
    destruct Hres as (Hu & Hi & Hp & Hd & Hn & Hok).
    rewrite Hu, Hp. cbn [andb].
    split; [rewrite Hi; intros H; destruct (Hinst H); auto |].
    split; [exact Hd | split; [exact Hn | exact Hok]].
  - destruct (PackageManager.parseInstallLogs _ _ _) as [e | uploadLogs]; cbn;
      [split; [discriminate | exact I] |].
    split; [discriminate |]. split; [discriminate |]. repeat split.
Qed.

(** X23.  Whatever the client answers, the output of [uploadPackage]
    has a package name ending in [.zip]; reports [installed] only with
    [uploaded], an installation that was asked for and a non-empty package
    id; reports [ok] only for a dry run or an upload that succeeded and,
    when installation was asked for, an installation that succeeded; and
    under dry run reports nothing uploaded or installed. *)
Theorem uploadPackage_output_invariants client packageData options w :
  let out := (uploadPackage client packageData options w).1.1 in
  let install := default false (JS.spread false (opt_install options)) in
  JS.endsWith (PackageManager.packageName out) ".zip" = true /\
  (installed out = true ->
   uploaded out = true /\ install = true /\ JS.truthyString (packageId out) <> None) /\
  (ok out = true ->
   dryRun out = true \/ (uploaded out = true /\ installed out = install)) /\
  (dryRun out = true ->
   uploaded out = false /\ installed out = false /\ packageId out = None /\ ok out = true).
Proof.
  intros out install. subst out. unfold PackageManager.uploadPackage.
  fold install.
  pose proof (PackageNames.extractPackageName_zip (now w)
                (JS.spread "" (opt_packageName options))) as Hzip.
  destruct (default false (JS.spread false (opt_dryRun options))).
  - cbn. split; [exact Hzip |]. split; [discriminate |].
    split; [left; reflexivity | repeat split].
  - match goal with
    | |- context [PackageManager.tryUpload _ _ _ _ _ _ _ ?c ?d ?n ?t ?i ?w0] =>
        pose proof (tryUpload_invariants c d n t i w0) as Htry;
        destruct (PackageManager.tryUpload _ _ _ _ _ _ _ c d n t i w0)
          as [[[progress result] client'] w']
    end.
    destruct Htry as [Hprogress Hresult].
    destruct result as [e | out]; cbn [fst snd].
    + cbn. split; [exact Hzip |]. split; [exact Hprogress |].
      split; discriminate.
    + destruct Hresult as (Hinst & Hdry & Hname & Hok).
      rewrite Hname, Hdry, Hok. split; [exact Hzip |]. split; [exact Hinst |].
      split; [| discriminate].
      intros H. right. apply andb_true_iff in H as [Hu Hi]. split; [exact Hu |].
      destruct install eqn:Hinstall; [exact Hi |].
      destruct (installed out) eqn:Hcontra; [| reflexivity].
      destruct (Hinst eq_refl) as (_ & Habsurd & _). discriminate.
Qed.

End WithPlatform.

End PackageUpload.

(* ===================================================================== *)
(** * The requests of the cache purge node *)
(* ===================================================================== *)

Module PurgeRequests.
Import Host CachePurge Notions.

Lemma assoc_snoc {A : Type} (name key : string) (value : A) (l : list (string * A)) :
  assoc name (l ++ [(key, value)]) =
  match assoc name l with
  | Some v => Some v
  | None => if String.eqb key name then Some value else None
  end.
Proof.
  induction l as [| [k v] l IH]; [reflexivity |].
  cbn [app assoc]. destruct (String.eqb k name); [reflexivity | exact IH].
Qed.

Lemma buildCustomHeaders_lookup (header : list (string * string)) (name : string) :
  forall acc,
    buildCustomHeaders header acc !! name =
    match assoc name (reverse (List.filter PurgeNotions.keptHeader header)) with
    | Some value => Some value
    | None => acc !! name
    end.
Proof.
  induction header as [| [key value] header IH]; intros acc; [reflexivity |].
  cbn [buildCustomHeaders List.filter]. unfold PurgeNotions.keptHeader at 1. cbn [fst snd].
  destruct (negb (JS.isEmpty key) && negb (JS.isEmpty value)).
  - rewrite IH, reverse_cons, assoc_snoc.
    destruct (assoc name (reverse (List.filter PurgeNotions.keptHeader header)));
      [reflexivity |].
    destruct (String.eqb_spec key name) as [-> | Hne].
    + apply lookup_insert_eq.
    + apply lookup_insert_ne. exact Hne.
  - apply IH.
Qed.

(** X24.  In the custom headers the node sends, a name carries the
    value of its last entry among the entries whose name and value are
    both non-empty; the other entries are ignored.  The name [__proto__]
    is left aside: on the object literal of the source it is the
    prototype accessor, which the map of the model does not have. *)
Theorem buildCustomHeaders_last_entry_wins (header : list (string * string)) (name : string) :
  name <> "__proto__" ->
  buildCustomHeaders header ∅ !! name =
  assoc name (reverse (List.filter PurgeNotions.keptHeader header)).
Proof.
  intros _. rewrite buildCustomHeaders_lookup.
  destruct (assoc name _); [reflexivity | apply lookup_empty].
Qed.

Lemma buildCustomHeaders_last_entry_wins_witness :
  buildCustomHeaders [("X-Purge", "a"); ("X-Other", ""); ("X-Purge", "b")] ∅ !! "X-Purge"
  = Some "b".
Proof.
  apply (buildCustomHeaders_last_entry_wins
           [("X-Purge", "a"); ("X-Other", ""); ("X-Purge", "b")] "X-Purge").
  discriminate.
Defined.

Section WithPlatform.

Variable env : Environment.
Variable URL_parse : string -> option Validation.URL.
Variable RegExp : Type.
Variable RegExp_new : string -> option RegExp.
Variable RegExp_test : RegExp -> string -> bool.

Abbreviation validateUrlAgainstAllowlist :=
  (Validation.validateUrlAgainstAllowlist URL_parse RegExp RegExp_new RegExp_test).
Abbreviation purgeUrl := (CachePurge.purgeUrl env URL_parse RegExp RegExp_new RegExp_test).
Abbreviation purgeUrls := (CachePurge.purgeUrls env URL_parse RegExp RegExp_new RegExp_test).
Abbreviation tryItem := (CachePurge.tryItem env URL_parse RegExp RegExp_new RegExp_test).
Abbreviation executeItem :=
  (CachePurge.executeItem env URL_parse RegExp RegExp_new RegExp_test).

Section Loop.

Variable p : Parameters.
Variable headers : gmap string string.
Variable timeout : Z.
Variable timestamp : Z.

Abbreviation cleared :=
  (PurgeNotions.cleared URL_parse RegExp RegExp_new RegExp_test p).

Lemma purgeUrl_requested u processed w :
  requested (purgeUrl p headers timeout timestamp u processed w).1.1 = true ->
  (u ∉ processed) /\ cleared u.
Proof.
  destruct (decide (u ∈ processed)) as [Hin | Hout].
  - rewrite (CachePurgeProperties.purgeUrl_seen env URL_parse RegExp RegExp_new RegExp_test
               p headers timeout timestamp u processed w Hin). discriminate.
  - destruct (CachePurgeProperties.purgeUrl_fresh env URL_parse RegExp RegExp_new RegExp_test
                p headers timeout timestamp u processed w Hout) as (r & w' & -> & Hsettled).
    cbn [fst snd]. intros Hreq. split; [exact Hout |].
    inversion Hsettled; subst; try discriminate. repeat split; assumption.
Qed.

Lemma purgeUrls_requests (urls : list string) :
  forall results processed w,
    exists sent,
      networkCalls (purgeUrls p headers timeout timestamp urls results processed w).2
        = networkCalls w ++ map (purgeRequest p headers timeout) sent /\
      NoDup sent /\
      Forall (fun u => u ∈ urls /\ (u ∉ processed) /\ cleared u) sent.
Proof.
  induction urls as [| u urls IH]; intros results processed w.
  - exists []. cbn. rewrite app_nil_r. repeat split; constructor.
  - cbn [CachePurge.purgeUrls].
    pose proof (purgeUrl_requested u processed w) as Hreq.
    pose proof (CachePurgeProperties.purgeUrl_calls env URL_parse RegExp RegExp_new RegExp_test
                  p headers timeout timestamp u processed w) as Hcalls.
    pose proof (CachePurgeProperties.purgeUrl_processed env URL_parse RegExp RegExp_new
                  RegExp_test p headers timeout timestamp u processed w) as Hprocessed.
    destruct (purgeUrl p headers timeout timestamp u processed w) as [[r processed'] w1].
    cbn [fst snd] in *. subst processed'.
    destruct (IH (results ++ [r]) ({[u]} ∪ processed) w1) as (sent & Hsent & Hnodup & Hall).
    destruct (requested r).
    + destruct (Hreq eq_refl) as [Hout Hcleared].
      exists (u :: sent). rewrite Hsent, Hcalls, <- app_assoc. split; [reflexivity |].
      split.
      * constructor; [| exact Hnodup]. intros Hin.
        rewrite Forall_forall in Hall. destruct (Hall u Hin) as (_ & Hnot & _).
        set_solver.
      * constructor; [split; [set_solver | split; assumption] |].
        eapply Forall_impl; [exact Hall |]. intros x (Hx & Hnot & Hc).
        split; [set_solver | split; [set_solver | exact Hc]].
    + exists sent. rewrite Hsent, Hcalls, app_nil_r. split; [reflexivity |].
      split; [exact Hnodup |].
      eapply Forall_impl; [exact Hall |]. intros x (Hx & Hnot & Hc).
      split; [set_solver | split; [set_solver | exact Hc]].
Qed.

End Loop.

(** X25.  Whatever the network answers and whether or not the item ends
    in an error, the requests the purge node sends for one item go to
    distinct URLs of its list, each of which passes the URL check and the
    allowlist; each carries the chosen method, the custom headers and the
    timeout; and none is sent in dry run. *)
Theorem purge_requests_are_allowlisted (continueOnFail : bool) (p : Parameters) (w : World) :
  exists sent,
    networkCalls (executeItem continueOnFail p w).2
      = networkCalls w ++ map (purgeRequest p (runHeaders p) (runTimeout p)) sent /\
    NoDup sent /\
    Forall
      (fun u =>
         u ∈ urls p /\
         Validation.valid (Validation.validateUrl URL_parse u None) = true /\
         Validation.valid (validateUrlAgainstAllowlist u (allowlistRegex p)) = true)
      sent /\
    (par_dryRun p = true -> sent = []).
Proof.
  assert (Htry : exists sent,
            networkCalls (tryItem p w).2
              = networkCalls w ++ map (purgeRequest p (runHeaders p) (runTimeout p)) sent /\
            NoDup sent /\
            Forall (fun u => u ∈ urls p /\ (u ∉ (∅ : gset string)) /\
                           PurgeNotions.cleared URL_parse RegExp RegExp_new RegExp_test p u)
              sent).
  { unfold CachePurge.tryItem. destruct (urls p) as [| u rest] eqn:Hurls.
    - exists []. cbn. rewrite app_nil_r. repeat split; constructor.
    - rewrite <- Hurls.
      destruct (purgeUrls_requests p (runHeaders p) (runTimeout p) (now w) (urls p) [] ∅ w)
        as (sent & Hsent & Hnodup & Hall).
      exists sent. split; [| split; assumption].
      unfold runHeaders, runTimeout in Hsent.
      destruct (purgeUrls _ _ _ _ _ _ _ w) as [[results processed] w'].
      cbn [snd] in Hsent.
      destruct (default false (failOnError p) && _); exact Hsent. }
  destruct Htry as (sent & Hsent & Hnodup & Hall).
  exists sent. split; [| split; [exact Hnodup | split]].
  - unfold CachePurge.executeItem. destruct (tryItem p w) as [[e | output] w'];
      [destruct continueOnFail |]; exact Hsent.
  - eapply Forall_impl; [exact Hall |]. intros u (Hu & _ & Hv & Ha & _). auto.
  - intros Hdry. destruct sent as [| u sent]; [reflexivity |].
    inversion Hall as [| ? ? (_ & _ & _ & _ & Hlive) _]. congruence.
Qed.

End WithPlatform.

End PurgeRequests.

(* ===================================================================== *)
(** * Batches and throttling *)
(* ===================================================================== *)

Module Batching.
Import Host Replication.

Lemma slice_length {A : Type} (l : list A) (i b : Z) :
  0 <= i -> 1 <= b -> i < Z.of_nat (length l) ->
  Z.of_nat (length (JS.slice l i (i + b))) = Z.min b (Z.of_nat (length l) - i).
Proof.
  intros Hi Hb Hlt. unfold JS.slice.
  destruct (Z.ltb_spec i 0) as [? | _]; [lia |].
  destruct (Z.ltb_spec (i + b) 0) as [? | _]; [lia |].
  rewrite length_take, length_drop. lia.
Qed.

Lemma batch_count_step (n b : Z) :
  1 <= b -> 1 <= n -> 1 + (Z.max 0 (n - b) + b - 1) / b = (Z.max 0 n + b - 1) / b.
Proof.
  intros Hb Hn. rewrite (Z.max_r 0 n) by lia.
  destruct (Z.le_gt_cases b n) as [Hle | Hgt].
  - rewrite (Z.max_r 0 (n - b)) by lia.
    replace (n + b - 1) with (n - b + b - 1 + 1 * b) by lia.
    rewrite Z.div_add by lia. lia.
  - rewrite (Z.max_l 0 (n - b)) by lia.
    rewrite (Z.div_small (0 + b - 1) b) by lia.
    assert (H : (n + b - 1) / b = 1)
      by (symmetry; apply (Z.div_unique _ b 1 (n - 1)); lia).
    rewrite H. lia.
Qed.

(** The batches the loop builds for a batch size of one or more: how
    many they are and how long each is. *)
Lemma splitBatches_sizes (paths : list string) (b : Z) :
  1 <= b ->
  forall fuel i,
    0 <= i ->
    (length paths - Z.to_nat i <= fuel)%nat ->
    exists batches,
      splitBatches fuel paths b i = Some batches /\
      concat batches = drop (Z.to_nat i) paths /\
      Z.of_nat (length batches) = (Z.max 0 (Z.of_nat (length paths) - i) + b - 1) / b /\
      Forall (fun batch => 1 <= Z.of_nat (length batch) <= b) batches /\
      (forall k batch,
         batches !! k = Some batch -> (S k < length batches)%nat ->
         Z.of_nat (length batch) = b).
Proof.
  intros Hb fuel. induction fuel as [| fuel IH]; intros i Hi Hfuel.
  - exists []. cbn [splitBatches].
    destruct (Z.ltb_spec i (Z.of_nat (length paths))) as [Hlt | Hge]; [lia |].
    split; [reflexivity |]. split; [symmetry; apply drop_ge; lia |].
    split; [rewrite Z.max_l by lia; rewrite Z.div_small; cbn; lia |].
    split; [constructor | intros k batch Hk; discriminate].
  - cbn [splitBatches].
    destruct (Z.ltb_spec i (Z.of_nat (length paths))) as [Hlt | Hge].
    + destruct (IH (i + b)) as (batches & Hsplit & Hconcat & Hcount & Hall & Hfull);
        [lia | lia |].
      rewrite Hsplit. eexists. split; [reflexivity |].
      pose proof (slice_length paths i b Hi Hb Hlt) as Hlen.
      split; [cbn [concat]; rewrite Hconcat;
              apply ReplicationProperties.slice_within; assumption |].
      split.
      { cbn [length]. rewrite Nat2Z.inj_succ, Hcount.
        replace (Z.of_nat (length paths) - (i + b)) with (Z.of_nat (length paths) - i - b)
          by lia.
        rewrite <- (batch_count_step (Z.of_nat (length paths) - i) b) by lia. lia. }
      split; [constructor; [lia | exact Hall] |].
      intros [| k] batch Hk Hmore; cbn in Hk.
      * injection Hk as <-. cbn [length] in Hmore.
        assert (Hrest : 1 <= Z.of_nat (length batches)) by lia.
        rewrite Hcount in Hrest.
        destruct (Z.le_gt_cases (Z.of_nat (length paths) - (i + b)) 0) as [Hend | Hnot].
        { rewrite Z.max_l, Z.div_small in Hrest by lia. lia. }
        lia.
      * apply (Hfull k batch Hk). cbn [length] in Hmore. lia.
    + exists []. split; [reflexivity |]. split; [symmetry; apply drop_ge; lia |].
      split; [rewrite Z.max_l by lia; rewrite Z.div_small; cbn; lia |].
      split; [constructor | intros k batch Hk; discriminate].
Qed.

Section WithClient.

Variable Client : Type.
Variable postForm :
  Client -> string -> list (string * string) -> World ->
  (Thrown + HttpClient.HttpResponse) * Client * World.

Abbreviation processBatch := (Replication.processBatch Client postForm).
Abbreviation processEachBatch := (Replication.processEachBatch Client postForm).
Abbreviation performReplication := (Replication.performReplication Client postForm).

Lemma processEachBatch_dryRun_sleeps action (t : Z) dryRun (batches : list (list string)) :
  default false dryRun = true -> 0 < t ->
  forall client processed results w,
    exists results' processed' w',
      processEachBatch action (Some t) dryRun batches client processed results w
        = (results', processed', client, w') /\
      trace w' = trace w ++ replicate (length batches - 1) (Slept t) /\
      now w' = now w + t * Z.of_nat (length batches - 1).
Proof.
  intros Hdry Ht. induction batches as [| batch rest IH]; intros client processed results w.
  - eexists _, _, _. split; [reflexivity |]. cbn. rewrite app_nil_r. split; [reflexivity | lia].
  - cbn [Replication.processEachBatch].
    destruct (ReplicationProperties.processBatch_dryRun Client postForm action dryRun batch
                Hdry client processed results w) as (rs & processed1 & -> & _).
    destruct rest as [| next rest].
    + cbn. eexists _, _, _. split; [reflexivity |]. rewrite app_nil_r.
      split; [reflexivity | lia].
    + destruct (Z.ltb_spec 0 t) as [_ | ?]; [| lia].
      destruct (IH client processed1 (results ++ rs) (sleep t w))
        as (results' & processed' & w' & Heq & Htrace & Hnow).
      rewrite Heq. eexists _, _, _. split; [reflexivity |].
      rewrite Htrace, Hnow. unfold sleep. cbn [trace now length Nat.sub].
      rewrite Nat.sub_0_r, <- app_assoc. cbn [app replicate]. split; [reflexivity | lia].
Qed.

(** X26.  A dry run still throttles.  With a batch size of one or more
    and a positive throttle, [performReplication] in dry run does nothing
    to the world but sleep the throttle between consecutive batches: the
    number of distinct paths divided by the batch size, rounded up, less
    one, times. *)
Theorem dry_run_sleeps_between_batches fuel client options w (b t : Z) :
  JS.spread false (opt_dryRun options) = Some true ->
  JS.spread 10 (opt_batchSize options) = Some b -> 1 <= b ->
  JS.spread 100 (opt_throttleMs options) = Some t -> 0 < t ->
  (length (opt_paths options) <= fuel)%nat ->
  let batches := (Z.of_nat (length (dedupe ∅ (opt_paths options))) + b - 1) / b in
  exists out w',
    performReplication fuel client options w = Some (out, client, w') /\
    trace w' = trace w ++ replicate (Z.to_nat (batches - 1)) (Slept t) /\
    now w' = now w + t * Z.max 0 (batches - 1).
Proof.
  intros Hdry Hbatch Hb Hthrottle Ht Hfuel batches.
  unfold Replication.performReplication, Replication.processBatches.
  rewrite Hdry, Hbatch, Hthrottle.
  pose proof (ReplicationProperties.dedupe_length (opt_paths options) ∅) as Hlen.
  destruct (splitBatches_sizes (dedupe ∅ (opt_paths options)) b Hb fuel 0)
    as (split & -> & _ & Hcount & _); [lia | lia |].
  destruct (processEachBatch_dryRun_sleeps (opt_action options) t (Some true) split
              eq_refl Ht client ∅ [] w) as (results & processed & w' & -> & Htrace & Hnow).
  eexists _, w'. split; [reflexivity |].
  rewrite Z.sub_0_r, Z.max_r in Hcount by lia. fold batches in Hcount.
  rewrite Htrace, Hnow. split; [f_equal; f_equal; lia | f_equal; lia].
Qed.

End WithClient.

Lemma dry_run_sleeps_between_batches_witness :
  exists out w',
    Replication.performReplication _ (Scenario.postForm (Scenario.respond 200)) 3
      Scenario.client Cases.dryThrottled Scenario.world
      = Some (out, Scenario.client, w') /\
    trace w' = trace Scenario.world ++ replicate 1 (Slept 250) /\
    now w' = now Scenario.world + 250 * 1.
Proof.
  apply (dry_run_sleeps_between_batches _ (Scenario.postForm (Scenario.respond 200)) 3
           Scenario.client Cases.dryThrottled Scenario.world 2 250);
    [reflexivity | reflexivity | lia | reflexivity | lia | cbn; lia].
Defined.

End Batching.

(* ===================================================================== *)
(** * The replicate node *)
(* ===================================================================== *)

Module ReplicateNodeProperties.
Import Host ReplicateNode.

Lemma slice_elem_of {A : Type} (l : list A) (i j : Z) (x : A) :
  x ∈ JS.slice l i j -> x ∈ l.
Proof.
  unfold JS.slice. intros H.
  eapply elem_of_sublist; [| apply sublist_drop].
  eapply elem_of_sublist; [exact H | apply sublist_take].
Qed.

Lemma splitBatches_elem_of (l : list string) (b : Z) (fuel : nat) :
  forall i batches,
    Replication.splitBatches fuel l b i = Some batches ->
    forall x, x ∈ concat batches -> x ∈ l.
Proof.
  induction fuel as [| n IH]; intros i batches; cbn [Replication.splitBatches].
  - destruct (i <? Z.of_nat (length l)); [discriminate |].
    intros [= <-] x Hx. inversion Hx.
  - destruct (i <? Z.of_nat (length l)); [| intros [= <-] x Hx; inversion Hx].
    destruct (Replication.splitBatches n l b (i + b)) as [more |] eqn:Hmore; [| discriminate].
    cbn. intros [= <-] x. cbn [concat]. rewrite elem_of_app. intros [Hslice | Hrest].
    + eapply slice_elem_of, Hslice.
    + eapply IH; [exact Hmore | exact Hrest].
Qed.

Section WithPlatform.

Variable env : Environment.
Variable JSON_stringify : Json -> string.
Variable base64 : string -> string.
Variable Date_parse : string -> option Z.
Variable String_replace : Redaction.RegExpLiteral -> string -> string -> string.
Variable URL_redact : (string -> bool) -> string -> string -> option string.

Abbreviation tryItem :=
  (ReplicateNode.tryItem env JSON_stringify base64 Date_parse String_replace URL_redact).
Abbreviation executeItem :=
  (ReplicateNode.executeItem env JSON_stringify base64 Date_parse String_replace URL_redact).
Abbreviation postForm :=
  (HttpClient.postForm env JSON_stringify base64 Date_parse String_replace URL_redact).

(** X27.  The replicate node validates all the paths of an item before
    it sends anything: if one path is invalid the item ends in an error
    with the world as it was, whatever the other paths are; and an output
    the item returns holds only results whose paths are valid. *)
Theorem replicate_node_validates_first fuel credentials (p : Parameters) (w : World) :
  (Validation.valid (Validation.validateAemPaths (paths p)) = false ->
   exists e, tryItem fuel credentials p w = Some (inl e, w)) /\
  (forall output w',
     tryItem fuel credentials p w = Some (inr output, w') ->
     Forall
       (fun r => Validation.valid (Validation.validateAemPath (Replication.path r)) = true)
       (Replication.results output)).
Proof.
  split.
  - intros Hinvalid. unfold ReplicateNode.tryItem.
    destruct (String.eqb (credentialType p) "aemCloud"); [eexists; reflexivity |].
    destruct (paths p) as [| path rest] eqn:Hpaths; [eexists; reflexivity |].
    rewrite Hinvalid. eexists. reflexivity.
  - intros output w'. unfold ReplicateNode.tryItem.
    destruct (String.eqb (credentialType p) "aemCloud"); [discriminate |].
    destruct (paths p) as [| path rest] eqn:Hpaths; [discriminate |].
    destruct (Validation.valid (Validation.validateAemPaths (path :: rest))) eqn:Hvalid;
      [| discriminate].
    cbn [negb]. unfold ReplicateNode.performReplication.
    destruct (Replication.performReplication _ _ fuel _ _ w) as [[[result client] w1] |] eqn:Hrun;
      [| discriminate].
    destruct (default false (failOnError p) && _); [discriminate |].
    intros [= <- <-].
    assert (Hall : Forall (fun x => Validation.valid (Validation.validateAemPath x) = true)
                     (path :: rest)).
    { apply Further.firstInvalidPath_valid. exact Hvalid. }
    assert (Hpath : forall r, r ∈ Replication.results result ->
                              Replication.path r ∈ path :: rest).
    { unfold Replication.performReplication, Replication.processBatches in Hrun.
      cbn [Replication.opt_batchSize Replication.opt_throttleMs Replication.opt_dryRun
           Replication.opt_paths Replication.opt_action JS.spread] in Hrun.
      assert (Hsub : forall batches,
                match batchSize p with
                | Some b => Replication.splitBatches fuel (Replication.dedupe ∅ (path :: rest)) b 0
                | None => Some (Replication.splitBatchesUndefined
                                  (Replication.dedupe ∅ (path :: rest)))
                end = Some batches ->
                forall x, x ∈ concat batches -> x ∈ path :: rest).
      { intros batches Hsplit x Hx. destruct (batchSize p) as [b |].
        - apply (splitBatches_elem_of _ _ _ _ _ Hsplit) in Hx.
          apply ReplicationProperties.dedupe_elem_of in Hx. tauto.
        - injection Hsplit as <-. unfold Replication.splitBatchesUndefined in Hx.
          destruct (Replication.dedupe ∅ (path :: rest)); cbn in Hx; inversion Hx. }
      destruct (match batchSize p with
                | Some b => _
                | None => _
                end) as [batches |]; [| discriminate].
      specialize (Hsub batches eq_refl).
      destruct (Replication.processEachBatch _ _ _ _ _ batches _ _ _ w)
        as [[[results processed] client1] w2] eqn:Heach.
      injection Hrun as <- _ _. cbn [Replication.results].
      destruct (ReplicationProperties.processEachBatch_results _ _ _ _ _ _ _ _ _ _ _ _ _ _ Heach)
        as (rs & Hrs & Hmap & _).
      cbn [app] in Hrs. subst results.
      intros r Hr. apply Hsub. rewrite <- Hmap.
      apply (list_elem_of_fmap_2 Replication.path). exact Hr. }
    apply Forall_forall. intros r Hr. rewrite Forall_forall in Hall.
    apply Hall, Hpath, Hr.
Qed.

(** X28.  When the batch size is not set among the options of the
    replicate node, an item with valid paths sends nothing and pushes an
    output with no result, zero counts and [ok = true], in dry run or not
    and whatever the other options: the [undefined] the node passes
    replaces the default batch size, and the batching loop then builds a
    single empty batch. *)
Theorem replicate_node_without_batch_size fuel continueOnFail credentials
    (p : Parameters) (w : World) :
  String.eqb (credentialType p) "aemCloud" = false ->
  Validation.valid (Validation.validateAemPaths (paths p)) = true ->
  batchSize p = None ->
  exists output,
    executeItem fuel continueOnFail credentials p w = Some (Pushed output None, w) /\
    Replication.results output = [] /\
    Replication.out_ok output = true /\
    Replication.totalPaths output = 0%nat /\
    Replication.failureCount output = 0%nat.
Proof.
  intros Hcloud Hvalid Hbatch.
  unfold ReplicateNode.executeItem, ReplicateNode.tryItem. rewrite Hcloud.
  destruct (paths p) as [| path rest] eqn:Hpaths; [discriminate Hvalid |].
  rewrite Hvalid. cbn [negb]. rewrite Hbatch.
  unfold ReplicateNode.performReplication.
  match goal with
  | |- context [Replication.performReplication ?C ?pf fuel ?c ?o w] =>
      destruct (ReplicationProperties.performReplication_undefined_batchSize C pf fuel c o w)
        as (output & Hrun & Hresults & Hok & Htotal); [reflexivity |];
      destruct (ReplicationProperties.performReplication_summary C pf fuel c o w output c w
                  Hrun) as (Hsum & _)
  end.
  rewrite Hrun, Hok, andb_false_r. exists output.
  split; [reflexivity | split; [exact Hresults | split; [exact Hok | split; [exact Htotal |]]]].
  lia.
Qed.

End WithPlatform.

Lemma replicate_node_without_batch_size_witness :
  exists output,
    Cases.replicateItem (Scenario.respond 200) 5 false
      (HttpClient.credentials Scenario.client) Cases.withoutOptions Scenario.world
    = Some (Pushed output None, Scenario.world) /\
    Replication.results output = [] /\
    Replication.out_ok output = true /\
    Replication.totalPaths output = 0%nat /\
    Replication.failureCount output = 0%nat.
Proof.
  apply (replicate_node_without_batch_size (Scenario.respond 200) (fun _ => "") (fun s => s)
           (fun _ => None) (fun _ s _ => s) (fun _ _ _ => None) 5 false
           (HttpClient.credentials Scenario.client) Cases.withoutOptions Scenario.world);
    reflexivity.
Defined.

End ReplicateNodeProperties.

(* ===================================================================== *)
(** * Health checks *)
(* ===================================================================== *)

Module HealthCheckProperties.
Import Host HealthCheck.

Section Aggregate.

Variable Object_toString : Json -> string.
Variable nullPropertyError : string -> Thrown.
Variable undefinedPropertyError : string -> Thrown.
Variable notAFunctionError : string -> Thrown.
Variable Client : Type.
Variable get :
  Client -> string -> option Z -> World ->
  (Thrown + HttpClient.HttpResponse) * Client * World.

Abbreviation checkEndpoints :=
  (HealthCheck.checkEndpoints Object_toString nullPropertyError undefinedPropertyError
     notAFunctionError Client get).
Abbreviation performMultiEndpointHealthCheck :=
  (HealthCheck.performMultiEndpointHealthCheck Object_toString nullPropertyError
     undefinedPropertyError notAFunctionError Client get).

Lemma checkEndpoints_results (endpoints : list string) :
  forall client results total w,
    exists checked,
      (checkEndpoints endpoints client results total w).1.1.1 = results ++ checked /\
      length checked = length endpoints /\
      (checkEndpoints endpoints client results total w).1.1.2
        = total + foldr Z.add 0 (latencyMs <$> checked).
Proof.
  induction endpoints as [| endpoint rest IH]; intros client results total w.
  - exists []. cbn. rewrite app_nil_r. repeat split. lia.
  - cbn [HealthCheck.checkEndpoints].
    destruct (HealthCheck.performHealthCheck _ _ _ _ _ _ client _ w) as [[result client1] w1].
    destruct (IH client1 (results ++ [result]) (total + latencyMs result) w1)
      as (checked & Hresults & Hlength & Hlatency).
    exists (result :: checked). rewrite Hresults, Hlatency, <- app_assoc.
    split; [reflexivity |]. split; [cbn; now rewrite Hlength |]. cbn. lia.
Qed.

(** X29.  [performMultiEndpointHealthCheck] checks every endpoint once, in
    order.  Its output is [ok] exactly when every check is; its latency is
    the sum of the latencies of the checks; its status code is 200 when it
    is [ok] and otherwise that of the first check that failed, or 500 if
    that one is zero, so it is never zero; there is at least one note per
    endpoint; and for an empty list of endpoints it is [ok] with status
    200 and no note. *)
Theorem multi_endpoint_aggregate (client : Client) (endpoints : list string) (w : World) :
  let output := (performMultiEndpointHealthCheck client endpoints w).1.1 in
  let checks := (checkEndpoints endpoints client [] 0 w).1.1.1 in
  length checks = length endpoints /\
  ok output = forallb ok checks /\
  latencyMs output = foldr Z.add 0 (latencyMs <$> checks) /\
  (ok output = true -> statusCode output = 200) /\
  (ok output = false ->
   exists before failed after,
     checks = before ++ failed :: after /\
     forallb ok before = true /\ ok failed = false /\
     statusCode output = if statusCode failed =? 0 then 500 else statusCode failed) /\
  statusCode output <> 0 /\
  (length endpoints <= length (notes output))%nat /\
  (endpoints = [] -> ok output = true /\ statusCode output = 200 /\ notes output = []).
Proof.
  intros output checks.
  destruct (checkEndpoints_results endpoints client [] 0 w)
    as (checked & Hresults & Hlength & Hlatency).
  subst output checks. unfold HealthCheck.performMultiEndpointHealthCheck.
  destruct (checkEndpoints endpoints client [] 0 w) as [[[results total] client'] w'].
  cbn [fst snd app ok statusCode latencyMs notes] in *. subst results total.
  assert (Hfind : forallb ok checked = false ->
            exists before failed after,
              checked = before ++ failed :: after /\
              forallb ok before = true /\ ok failed = false /\
              List.find (fun r => negb (ok r)) checked = Some failed).
  { clear. induction checked as [| r rest IH]; [discriminate |].
    cbn [forallb List.find]. destruct (ok r) eqn:Hr; cbn [negb andb].
    - intros H. destruct (IH H) as (before & failed & after & -> & Hb & Hf & Hfind).
      exists (r :: before), failed, after. cbn. rewrite Hr, Hb. repeat split; assumption.
    - intros _. exists [], r, rest. repeat split. exact Hr. }
  split; [exact Hlength |]. split; [reflexivity |]. split; [lia |].
  split; [intros ->; reflexivity |].
  split.
  { intros Hbad. destruct (Hfind Hbad) as (before & failed & after & Hsplit & Hb & Hf & Hfound).
    exists before, failed, after. rewrite Hbad, Hfound. repeat split; assumption. }
  split.
  { destruct (forallb ok checked) eqn:Hall; [discriminate |].
    destruct (Hfind eq_refl) as (before & failed & after & _ & _ & _ & ->).
    destruct (Z.eqb_spec (statusCode failed) 0); [discriminate | assumption]. }
  split.
  { clear Hfind. revert checked Hlength.
    induction endpoints as [| e rest IH]; intros [| r checked] Hlength;
      try discriminate Hlength; [cbn; lia |].
    cbn [zip_with concat]. unfold HealthCheck.endpointNotes at 1.
    cbn [app length]. rewrite length_app.
    specialize (IH checked ltac:(now injection Hlength)). lia. }
  intros ->. destruct checked; [| discriminate]. repeat split.
Qed.

End Aggregate.

Section WithClient.

Variable env : Environment.
Variable JSON_stringify : Json -> string.
Variable base64 : string -> string.
Variable Date_parse : string -> option Z.
Variable String_replace : Redaction.RegExpLiteral -> string -> string -> string.
Variable URL_redact : (string -> bool) -> string -> string -> option string.
Variable Object_toString : Json -> string.
Variable nullPropertyError : string -> Thrown.
Variable undefinedPropertyError : string -> Thrown.
Variable notAFunctionError : string -> Thrown.

Abbreviation get :=
  (HttpClient.get env JSON_stringify base64 Date_parse String_replace URL_redact).
Abbreviation performHealthCheck :=
  (HealthCheck.performHealthCheck Object_toString nullPropertyError undefinedPropertyError
     notAFunctionError HttpClient.AemHttpClient get).
Abbreviation getRequest := (ClientNotions.getRequest base64).

(** X30.  A health check of an endpoint sends only the GET of that
    endpoint, with the given timeout, at most [maxRetries + 1] times.  For
    a relative endpoint that is not empty the URL it reports as checked is
    the URL requested without the base URL; for an empty endpoint it
    requests the root path and reports [/system/health].  Against a server
    that answers every call with the same error status it reports that
    status with [ok = false] and a latency of zero. *)
Theorem health_check_requests client (endpoint : string) (timeout : option Z) (w : World) :
  let options := HealthCheck.mkOptions (JS.Present (Some endpoint)) (JS.Present timeout) in
  let output := (performHealthCheck client options w).1.1 in
  (exists calls,
     networkCalls (performHealthCheck client options w).2 = networkCalls w ++ calls /\
     Forall (eq (getRequest client endpoint timeout)) calls /\
     Z.of_nat (length calls)
       <= Z.max 0 (Retry.maxRetries (HttpClient.retryConfig client) + 1)) /\
  (endpoint <> "" ->
   JS.startsWith endpoint "http://" || JS.startsWith endpoint "https://" = false ->
   HttpClient.buildUrl client endpoint
     = HttpClient.normalizeBaseUrl (HttpClient.baseUrl (HttpClient.credentials client))
       +:+ checkedUrl output) /\
  (endpoint = "" ->
   checkedUrl output = "/system/health" /\
   HttpClient.buildUrl client endpoint
     = HttpClient.normalizeBaseUrl (HttpClient.baseUrl (HttpClient.credentials client))
       +:+ "/") /\
  (forall status,
     RetryNotions.alwaysAnswers env status -> 400 <= status ->
     0 <= Retry.maxRetries (HttpClient.retryConfig client) ->
     ok output = false /\ statusCode output = status /\ latencyMs output = 0).
Proof.
  intros options output.
  assert (Hurl : checkedUrl output = HealthCheck.buildHealthCheckUrl "" (Some endpoint)).
  { subst output options. unfold HealthCheck.performHealthCheck.
    cbn [JS.spread opt_healthEndpoint opt_timeoutMs].
    destruct (get client endpoint timeout w) as [[[e | response] client'] w']; cbn [fst snd].
    - reflexivity.
    - destruct (HealthCheck.parseHealthResponse _ _ _ _ _) as [e | [good notes]]; reflexivity. }
  split; [| split; [| split]].
  - destruct (ClientRequests.get_calls env JSON_stringify base64 Date_parse
                String_replace URL_redact client endpoint timeout w)
      as (calls & _ & Hcalls & Hall & Hlen).
    exists calls. split; [| split; assumption].
    subst options. unfold HealthCheck.performHealthCheck. cbn [JS.spread opt_healthEndpoint opt_timeoutMs].
    destruct (get client endpoint timeout w) as [[[e | response] client'] w'];
      cbn [fst snd] in Hcalls |- *; [exact Hcalls |].
    destruct (HealthCheck.parseHealthResponse _ _ _ _ _) as [e | [good notes]]; exact Hcalls.
  - intros Hne Hrel. rewrite Hurl.
    unfold HealthCheck.buildHealthCheckUrl, HttpClient.buildUrl.
    destruct endpoint as [| c rest]; [congruence |].
    cbn [JS.truthyString JS.isEmpty default id]. rewrite Hrel. reflexivity.
  - intros ->. rewrite Hurl. split; reflexivity.
  - intros status Halways Hge Hpos.
    destruct (ClientRequests.get_always env JSON_stringify base64 Date_parse String_replace
                URL_redact status client endpoint timeout w Halways Hpos) as [_ Hend].
    destruct (Z.leb_spec 400 status) as [_ | Hlt]; [| lia].
    destruct Hend as (e & He & _ & Hhttp & Herror).
    subst output options. unfold HealthCheck.performHealthCheck.
    cbn [JS.spread opt_healthEndpoint opt_timeoutMs].
    destruct (get client endpoint timeout w) as [[attempt client'] w'].
    cbn [fst snd] in He. subst attempt. cbn [fst snd ok statusCode latencyMs].
    rewrite Hhttp. pose proof (RetryEngine.parseInt_numberToString status) as Hparse.
    destruct (JS.numberToString status) as [| c r] eqn:Hs; [discriminate |].
    cbn [JS.truthyString JS.isEmpty]. rewrite Hparse. repeat split.
Qed.

End WithClient.

Lemma health_check_requests_witness :
  let output :=
    (Cases.healthCheck (Scenario.respond 503) Scenario.client
       (HealthCheck.mkOptions (JS.Present (Some "/system/health")) (JS.Present None))
       Scenario.world).1.1 in
  ok output = false /\ statusCode output = 503 /\ latencyMs output = 0.
Proof.
  apply (proj2 (proj2 (proj2
           (health_check_requests (Scenario.respond 503) (fun _ => "") (fun s => s)
              (fun _ => None) (fun _ s _ => s) (fun _ _ _ => None) (fun _ => "")
              Scenario.v8NullPropertyError Scenario.v8NullPropertyError
              Scenario.v8NullPropertyError Scenario.client "/system/health" None
              Scenario.world))) 503).
  - intros n options. eexists _, _. split; reflexivity.
  - lia.
  - discriminate.
Defined.

End HealthCheckProperties.
